(** * Thrapy backend: a shallow embedding of [backend/server.py]

    The request handlers of the FastAPI application are embedded as
    functions in a state-and-exception monad over the document store.
    Python floats are IEEE-754 binary64 numbers; they are embedded with
    the bit-level specification [spec_float] at precision 53 and maximal
    exponent 1024, so that every cost the server computes can be
    evaluated here digit for digit, and their real values are compared in
    [R]. *)

From stdpp Require Import base option list strings gmap.
From Stdlib Require Import ZArith Lia SpecFloat Reals Lra.

Local Open Scope Z_scope.
Local Open Scope string_scope.
Local Open Scope list_scope.

(** ** Python floats *)

Module B64.

Definition prec : Z := 53.
Definition emax : Z := 1024.

Abbreviation float := spec_float.

Definition mul : float -> float -> float := SFmul prec emax.
Definition add : float -> float -> float := SFadd prec emax.
Definition div : float -> float -> float := SFdiv prec emax.

(** An integer seen as an (unnormalised) significand with exponent 0. *)
Definition of_int_raw (z : Z) : float :=
  match z with
  | Z0 => S754_zero false
  | Zpos p => S754_finite false p 0
  | Zneg p => S754_finite true p 0
  end.

(** [float(z)]: the integer rounded to the nearest binary64 number. *)
Definition of_int (z : Z) : float := binary_normalize prec emax z 0 false.

(** The binary64 number nearest to the fraction [n / d] of two integers:
    [SFdiv] divides the two significands and rounds the quotient once
    (lemma [B64Facts.nearest_quot_rounded] below). *)
Definition nearest_quot (n d : Z) : float := div (of_int_raw n) (of_int_raw d).

(** A decimal literal [m * 10^-k] of the source text, read as Python reads
    it: the nearest binary64 number. *)
Definition literal (m : Z) (k : nat) : float := nearest_quot m (10 ^ Z.of_nat k).

Definition is_finite (x : float) : bool :=
  match x with
  | S754_zero _ | S754_finite _ _ _ => true
  | _ => false
  end.

(** The floats that are binary64 numbers: canonical significand and
    exponent. *)
Definition valid (x : float) : bool := valid_binary prec emax x.

(** The real number a float stands for; the special values count as 0. *)
Definition bpow (e : Z) : R := powerRZ 2 e.
Arguments bpow : simpl never.

Definition B2R (x : float) : R :=
  match x with
  | S754_finite s m e => (if s then -1 else 1) * (IZR (Zpos m) * bpow e)
  | _ => 0
  end.

(** Equality up to floating-point precision: the same special value, or two
    finite values that differ by at most [2^-51] of the second plus
    [2^-1073]. *)
Definition close_to (x y : float) : Prop :=
  match x, y with
  | S754_nan, S754_nan => True
  | S754_infinity sx, S754_infinity sy => sx = sy
  | (S754_zero _ | S754_finite _ _ _), (S754_zero _ | S754_finite _ _ _) =>
      (Rabs (B2R x - B2R y) <= bpow (-51) * Rabs (B2R y) + bpow (-1073))%R
  | _, _ => False
  end.

End B64.

(** ** Python exceptions and handler outcomes *)

Inductive exn : Type :=
  | HTTPException (status_code : Z) (detail : string)
  | OverflowError (msg : string)
  | ZeroDivisionError (msg : string).

Inductive outcome (A : Type) : Type :=
  | Return (a : A)
  | Raise (e : exn).
Arguments Return {A} a.
Arguments Raise {A} e.

(** [a / b] on Python ints (true division): the correctly rounded quotient,
    [ZeroDivisionError] on a zero divisor and [OverflowError] when the
    quotient is too large for a float. *)
Definition int_truediv (a b : Z) : outcome B64.float :=
  if decide (b = 0) then Raise (ZeroDivisionError "division by zero")
  else
    let q := B64.nearest_quot a b in
    if B64.is_finite q then Return q
    else Raise (OverflowError "integer division result too large for a float").

(** ** Documents of the store and pydantic models *)

(** Timestamps are seconds since the epoch. *)
Abbreviation datetime := Z (only parsing).

Record UserDoc := {
  user_id_ : string;
  user_email : string;
  user_full_name : string;
  user_role : string;
  user_password_hash : string;
  user_created_at : datetime }.

Record UserCreate := {
  uc_email : string;
  uc_full_name : string;
  uc_role : string;
  uc_password : string }.

Record UserLogin := {
  ul_email : string;
  ul_password : string }.

Record UserResponse := {
  ur_id : string;
  ur_email : string;
  ur_full_name : string;
  ur_role : string;
  ur_created_at : datetime }.

Record TherapistRegistration := {
  tr_license_number : string;
  tr_specialization : string;
  tr_hourly_rate : B64.float;
  tr_bio : string;
  tr_years_experience : Z }.

(** A document of [db.therapists]; [TherapistProfile] has the same fields. *)
Record TherapistProfile := {
  th_id : string;
  th_user_id : string;
  th_license_number : string;
  th_specialization : string;
  th_hourly_rate : B64.float;
  th_bio : string;
  th_years_experience : Z;
  th_is_available : bool;
  th_created_at : datetime }.

Record SessionCreate := {
  sc_session_type : string;
  sc_scheduled_date : option datetime;
  sc_duration_minutes : Z;
  sc_cost : B64.float;
  sc_therapist_id : option string }.

(** A document of [db.sessions]; [SessionResponse] has the same fields. *)
Record SessionDoc := {
  se_id : string;
  se_user_id : string;
  se_therapist_id : option string;
  se_session_type : string;
  se_scheduled_date : option datetime;
  se_duration_minutes : Z;
  se_cost : B64.float;
  se_status : string;
  se_created_at : datetime }.

Record PaymentDoc := {
  pay_id : string;
  pay_user_id : string;
  pay_session_id : string;
  pay_amount : B64.float;
  pay_payment_type : string;
  pay_status : string;
  pay_created_at : datetime;
  pay_platform_fee : option B64.float;
  pay_therapist_earnings : option B64.float }.

Record ChatMessage := {
  cm_session_id : string;
  cm_message : string }.

Record ChatResponse := {
  cr_response : string;
  cr_session_id : string }.

Record ChatDoc := {
  ch_id : string;
  ch_session_id : string;
  ch_user_id : string;
  ch_user_message : string;
  ch_ai_response : string;
  ch_timestamp : datetime }.

(** ** JSON web tokens *)

Inductive claim : Type :=
  | ClaimStr (s : string)
  | ClaimInt (z : Z).

#[global] Instance claim_eq_dec : EqDecision claim.
Proof. solve_decision. Defined.

Inductive PyJWTError : Type :=
  | DecodeError
  | InvalidAlgorithmError
  | InvalidSignatureError
  | ExpiredSignatureError.

(** Modelled from the spec: the JWT primitives [jwt.encode] and [jwt.decode]
    of the PyJWT package, which the repository imports but does not
    contain.  A token is either the signed encoding of a payload, which
    remembers the key and the algorithm it was signed with, or a string
    that does not parse.  Decoding fails when the token is malformed, when
    the signature does not verify, or when the expiry has been reached. *)
Inductive token : Type :=
  | Signed (payload : gmap string claim) (key : string) (alg : string)
  | Malformed (raw : string).

Definition jwt_encode (payload : gmap string claim) (key alg : string) : token :=
  Signed payload key alg.

Definition jwt_decode (tok : token) (key : string) (algorithms : list string)
    (now : datetime) : PyJWTError + gmap string claim :=
  match tok with
  | Malformed _ => inl DecodeError
  | Signed payload k alg =>
      if decide (alg ∈ algorithms) then
        if decide (k = key) then
          match payload !! "exp" with
          | None => inr payload
          | Some (ClaimInt exp) =>
              if decide (exp <= now) then inl ExpiredSignatureError
              else inr payload
          | Some (ClaimStr _) => inl DecodeError
          end
        else inl InvalidSignatureError
      else inl InvalidAlgorithmError
  end.

Record TokenResponse := {
  tk_access_token : token;
  tk_token_type : string;
  tk_user : UserResponse }.

(** ** The world: the document store, the clock and the source of ids *)

Record World := {
  users : list UserDoc;
  therapists : list TherapistProfile;
  sessions : list SessionDoc;
  payments : list PaymentDoc;
  chat_history : list ChatDoc;
  clock : datetime;
  uuid_drawn : nat }.

Definition Handler (A : Type) : Type := World -> outcome A * World.

Definition ret {A} (a : A) : Handler A := fun w => (Return a, w).

Definition raise {A} (e : exn) : Handler A := fun w => (Raise e, w).

Definition bind {A B} (m : Handler A) (k : A -> Handler B) : Handler B :=
  fun w =>
    match m w with
    | (Return a, w') => k a w'
    | (Raise e, w') => (Raise e, w')
    end.

Declare Scope handler_scope.
Delimit Scope handler_scope with handler.
Notation "'let*' x ':=' m 'in' k" := (bind m (fun x => k))
  (at level 10, x name, m at level 100, k at level 200) : handler_scope.
Notation "m ';;' k" := (bind m (fun _ => k))
  (at level 100, k at level 200, right associativity) : handler_scope.
Local Open Scope handler_scope.

Definition lift_outcome {A} (o : outcome A) : Handler A := fun w => (o, w).

(** Reading a component of the world. *)
Definition read {A} (f : World -> A) : Handler A := fun w => (Return (f w), w).

(** [datetime.now(timezone.utc)]: the time of the world, in whole seconds.
    A handler reads it and does not move it; that time has passed between
    two requests is said with [at_time] below. *)
Definition datetime_now : Handler datetime := read clock.

(** [collection.find_one(filter)]: the first matching document. *)
Definition find_one {A} (P : A -> Prop) `{!forall x, Decision (P x)}
    (c : list A) : option A :=
  head (filter P c).

(** [collection.find(filter).to_list(n)] *)
Definition find_to_list {A} (P : A -> Prop) `{!forall x, Decision (P x)}
    (n : nat) (c : list A) : list A :=
  take n (filter P c).

Definition insert_user (u : UserDoc) : Handler unit := fun w =>
  (Return tt,
   {| users := users w ++ [u]; therapists := therapists w;
      sessions := sessions w; payments := payments w;
      chat_history := chat_history w; clock := clock w;
      uuid_drawn := uuid_drawn w |}).

Definition insert_therapist (t : TherapistProfile) : Handler unit := fun w =>
  (Return tt,
   {| users := users w; therapists := therapists w ++ [t];
      sessions := sessions w; payments := payments w;
      chat_history := chat_history w; clock := clock w;
      uuid_drawn := uuid_drawn w |}).

(** The integers of BSON, the encoding in which the driver sends a
    document to the store, have at most 8 bytes. *)
Definition bson_int (z : Z) : bool :=
  (- 2 ^ 63 <=? z)%Z && (z <? 2 ^ 63)%Z.

(** [db.sessions.insert_one]: the driver refuses to encode a duration
    that is no 8-byte integer, with the OverflowError of the BSON encoder,
    and then nothing is stored.  The two other integers that clients
    supply, the years of experience of a profile and the day of an
    availability slot, are taken to be 8-byte integers in [insert_therapist]
    and [set_availability]. *)
Definition insert_session (s : SessionDoc) : Handler unit := fun w =>
  if bson_int (se_duration_minutes s) then
    (Return tt,
     {| users := users w; therapists := therapists w;
        sessions := sessions w ++ [s]; payments := payments w;
        chat_history := chat_history w; clock := clock w;
        uuid_drawn := uuid_drawn w |})
  else
    (Raise (OverflowError "MongoDB can only handle up to 8-byte ints"), w).

Definition insert_payment (p : PaymentDoc) : Handler unit := fun w =>
  (Return tt,
   {| users := users w; therapists := therapists w;
      sessions := sessions w; payments := payments w ++ [p];
      chat_history := chat_history w; clock := clock w;
      uuid_drawn := uuid_drawn w |}).

Definition insert_chat (c : ChatDoc) : Handler unit := fun w =>
  (Return tt,
   {| users := users w; therapists := therapists w;
      sessions := sessions w; payments := payments w;
      chat_history := chat_history w ++ [c]; clock := clock w;
      uuid_drawn := uuid_drawn w |}).

(** ** Constants of the server *)

Definition JWT_SECRET : string := "thrapy_secret_key_2024".
Definition JWT_ALGORITHM : string := "HS256".
Definition JWT_EXPIRATION_TIME_MINUTES : Z := 60 * 24 * 7.

(** [timedelta(minutes=m)] in seconds. *)
Definition timedelta_minutes (m : Z) : Z := m * 60.

(** The float literals of [create_session]. *)
Definition lit_5_0 : B64.float := B64.literal 50 1.
Definition lit_0_30 : B64.float := B64.literal 30 2.
Definition lit_0_70 : B64.float := B64.literal 70 2.

Section Server.

(** The external collaborators: the password hashing context, the random
    source behind [uuid.uuid4] and the chat provider, which answers a
    message of a conversation with a text or fails with an error text. *)
Variable hash_password : string -> string.
Variable verify_password : string -> string -> bool.
Variable uuid_pool : nat -> string.
Variable llm_send_message : string -> string -> string + string.

(** [str(uuid.uuid4())] *)
Definition uuid4 : Handler string := fun w =>
  (Return (uuid_pool (uuid_drawn w)),
   {| users := users w; therapists := therapists w;
      sessions := sessions w; payments := payments w;
      chat_history := chat_history w; clock := clock w;
      uuid_drawn := S (uuid_drawn w) |}).

Definition create_access_token (data : gmap string claim) : Handler token :=
  let to_encode := data in
  let* now := datetime_now in
  let expire := now + timedelta_minutes JWT_EXPIRATION_TIME_MINUTES in
  let to_encode := <["exp" := ClaimInt expire]> to_encode in
  let encoded_jwt := jwt_encode to_encode JWT_SECRET JWT_ALGORITHM in
  ret encoded_jwt.

Definition UserResponse_of_doc (u : UserDoc) : UserResponse :=
  {| ur_id := user_id_ u; ur_email := user_email u;
     ur_full_name := user_full_name u; ur_role := user_role u;
     ur_created_at := user_created_at u |}.

Definition get_current_user (credentials : token) : Handler UserResponse :=
  let* now := datetime_now in
  match jwt_decode credentials JWT_SECRET [JWT_ALGORITHM] now with
  | inl _ => raise (HTTPException 401 "Invalid token")
  | inr payload =>
      match payload !! "sub" with
      | None => raise (HTTPException 401 "Invalid token")
      | Some user_id =>
          let* db_users := read users in
          match find_one (fun u => ClaimStr (user_id_ u) = user_id) db_users with
          | None => raise (HTTPException 401 "User not found")
          | Some user => ret (UserResponse_of_doc user)
          end
      end
  end.

(** [POST /api/auth/register] *)
Definition register (user : UserCreate) : Handler TokenResponse :=
  let* db_users := read users in
  let existing_user := find_one (fun u => user_email u = uc_email user) db_users in
  match existing_user with
  | Some _ => raise (HTTPException 400 "Email already registered")
  | None =>
      let* user_id := uuid4 in
      let hashed_password := hash_password (uc_password user) in
      let* created_at := datetime_now in
      let user_doc :=
        {| user_id_ := user_id; user_email := uc_email user;
           user_full_name := uc_full_name user; user_role := uc_role user;
           user_password_hash := hashed_password;
           user_created_at := created_at |} in
      insert_user user_doc ;;
      let* access_token := create_access_token {[ "sub" := ClaimStr user_id ]} in
      let user_response :=
        {| ur_id := user_id; ur_email := uc_email user;
           ur_full_name := uc_full_name user; ur_role := uc_role user;
           ur_created_at := user_created_at user_doc |} in
      ret {| tk_access_token := access_token; tk_token_type := "bearer";
             tk_user := user_response |}
  end.

(** [POST /api/auth/login] *)
Definition login (user_login : UserLogin) : Handler TokenResponse :=
  let* db_users := read users in
  match find_one (fun u => user_email u = ul_email user_login) db_users with
  | None => raise (HTTPException 401 "Invalid credentials")
  | Some user =>
      if verify_password (ul_password user_login) (user_password_hash user) then
        let* access_token :=
          create_access_token {[ "sub" := ClaimStr (user_id_ user) ]} in
        ret {| tk_access_token := access_token; tk_token_type := "bearer";
               tk_user := UserResponse_of_doc user |}
      else raise (HTTPException 401 "Invalid credentials")
  end.

(** [POST /api/therapist/register] *)
Definition register_therapist (therapist_data : TherapistRegistration)
    (current_user : UserResponse) : Handler TherapistProfile :=
  if decide (ur_role current_user <> "therapist") then
    raise (HTTPException 403 "Only therapists can register as therapists")
  else
    let* db_therapists := read therapists in
    let existing_therapist :=
      find_one (fun t => th_user_id t = ur_id current_user) db_therapists in
    match existing_therapist with
    | Some _ => raise (HTTPException 400 "Therapist profile already exists")
    | None =>
        let* therapist_id := uuid4 in
        let* created_at := datetime_now in
        let therapist_doc :=
          {| th_id := therapist_id; th_user_id := ur_id current_user;
             th_license_number := tr_license_number therapist_data;
             th_specialization := tr_specialization therapist_data;
             th_hourly_rate := tr_hourly_rate therapist_data;
             th_bio := tr_bio therapist_data;
             th_years_experience := tr_years_experience therapist_data;
             th_is_available := true;
             th_created_at := created_at |} in
        insert_therapist therapist_doc ;;
        ret therapist_doc
    end.

(** [GET /api/therapists] *)
Definition get_therapists : Handler (list TherapistProfile) :=
  let* db_therapists := read therapists in
  ret (find_to_list (fun t => th_is_available t = true) 100 db_therapists).

(** The truth value Python gives an optional string: [None] and the empty
    string are false. *)
Definition truthy (o : option string) : bool :=
  match o with
  | None => false
  | Some s => if decide (s = "") then false else true
  end.

(** The cost computation at the head of [create_session]. *)
Definition session_cost (session_data : SessionCreate) : Handler B64.float :=
  if decide (sc_session_type session_data = "ai") then
    let* hours := lift_outcome (int_truediv (sc_duration_minutes session_data) 60) in
    ret (B64.mul lit_5_0 hours)
  else if decide (sc_session_type session_data = "therapist") then
    if negb (truthy (sc_therapist_id session_data)) then
      raise (HTTPException 400 "Therapist ID required for therapist sessions")
    else
      let* db_therapists := read therapists in
      match find_one (fun t => Some (th_id t) = sc_therapist_id session_data)
              db_therapists with
      | None => raise (HTTPException 404 "Therapist not found")
      | Some therapist =>
          let* hours :=
            lift_outcome (int_truediv (sc_duration_minutes session_data) 60) in
          ret (B64.mul (th_hourly_rate therapist) hours)
      end
  else raise (HTTPException 400 "Invalid session type").

(** [POST /api/sessions/create]; the response model [SessionResponse] has
    the fields of the stored session document. *)
Definition create_session (session_data : SessionCreate)
    (current_user : UserResponse) : Handler SessionDoc :=
  let* session_id := uuid4 in
  let* cost := session_cost session_data in
  let* created_at := datetime_now in
  let session_doc :=
    {| se_id := session_id; se_user_id := ur_id current_user;
       se_therapist_id := sc_therapist_id session_data;
       se_session_type := sc_session_type session_data;
       se_scheduled_date := sc_scheduled_date session_data;
       se_duration_minutes := sc_duration_minutes session_data;
       se_cost := cost; se_status := "scheduled";
       se_created_at := created_at |} in
  insert_session session_doc ;;
  let* payment_id := uuid4 in
  let* payment_created_at := datetime_now in
  let is_therapist := bool_decide (sc_session_type session_data = "therapist") in
  let payment_doc :=
    {| pay_id := payment_id; pay_user_id := ur_id current_user;
       pay_session_id := session_id; pay_amount := cost;
       pay_payment_type := sc_session_type session_data +:+ "_session";
       pay_status := "completed"; pay_created_at := payment_created_at;
       pay_platform_fee :=
         if is_therapist then Some (B64.mul cost lit_0_30) else None;
       pay_therapist_earnings :=
         if is_therapist then Some (B64.mul cost lit_0_70) else None |} in
  insert_payment payment_doc ;;
  ret session_doc.

(** [POST /api/ai-chat] *)
Definition ai_chat (chat_message : ChatMessage)
    (current_user : UserResponse) : Handler ChatResponse :=
  let* db_sessions := read sessions in
  let session :=
    find_one (fun s => se_id s = cm_session_id chat_message
                       /\ se_user_id s = ur_id current_user
                       /\ se_session_type s = "ai") db_sessions in
  match session with
  | None => raise (HTTPException 404 "AI session not found")
  | Some _ =>
      match llm_send_message (cm_session_id chat_message)
              (cm_message chat_message) with
      | inr e => raise (HTTPException 500 ("AI chat error: " +:+ e))
      | inl response =>
          let* message_id := uuid4 in
          let* timestamp := datetime_now in
          insert_chat
            {| ch_id := message_id;
               ch_session_id := cm_session_id chat_message;
               ch_user_id := ur_id current_user;
               ch_user_message := cm_message chat_message;
               ch_ai_response := response;
               ch_timestamp := timestamp |} ;;
          ret {| cr_response := response;
                 cr_session_id := cm_session_id chat_message |}
      end
  end.

End Server.

(** ** Vocabulary of the properties *)

(** The five collections of the document store coincide. *)
Definition same_store (w w' : World) : Prop :=
  users w' = users w /\ therapists w' = therapists w
  /\ sessions w' = sessions w /\ payments w' = payments w
  /\ chat_history w' = chat_history w.

(** The three ways in which [create_session] rejects a request, with the
    exception each one raises. *)
Inductive creation_fault (session_data : SessionCreate) (w : World) : exn -> Prop :=
  | MissingTherapistId :
      sc_session_type session_data = "therapist" ->
      truthy (sc_therapist_id session_data) = false ->
      creation_fault session_data w
        (HTTPException 400 "Therapist ID required for therapist sessions")
  | TherapistNotFound tid :
      sc_session_type session_data = "therapist" ->
      sc_therapist_id session_data = Some tid -> tid <> "" ->
      (forall t, t ∈ therapists w -> th_id t <> tid) ->
      creation_fault session_data w (HTTPException 404 "Therapist not found")
  | InvalidSessionType :
      sc_session_type session_data <> "ai" ->
      sc_session_type session_data <> "therapist" ->
      creation_fault session_data w (HTTPException 400 "Invalid session type").

(** The three situations in which the caller has no ai session under the
    id of a chat message. *)
Inductive chat_denied (sid : string) (caller : UserResponse) (w : World) : Prop :=
  | NoSuchSession :
      (forall s, s ∈ sessions w -> se_id s <> sid) ->
      chat_denied sid caller w
  | ForeignSession s0 :
      s0 ∈ sessions w -> se_id s0 = sid ->
      (forall s, s ∈ sessions w -> se_id s = sid -> se_user_id s <> ur_id caller) ->
      chat_denied sid caller w
  | NotAnAiSession s0 :
      s0 ∈ sessions w -> se_id s0 = sid -> se_user_id s0 = ur_id caller ->
      (forall s, s ∈ sessions w -> se_id s = sid -> se_user_id s = ur_id caller ->
                 se_session_type s <> "ai") ->
      chat_denied sid caller w.

(** Two creation requests that agree on every field but the cost. *)
Definition same_but_cost (r1 r2 : SessionCreate) : Prop :=
  sc_session_type r1 = sc_session_type r2
  /\ sc_scheduled_date r1 = sc_scheduled_date r2
  /\ sc_duration_minutes r1 = sc_duration_minutes r2
  /\ sc_therapist_id r1 = sc_therapist_id r2.

(** The reading of the data model under which every stored session has a
    positive duration. *)
Definition stored_durations_positive : Prop :=
  forall uuid_pool session_data current_user w s w',
    create_session uuid_pool session_data current_user w = (Return s, w') ->
    0 < sc_duration_minutes session_data /\ 0 < se_duration_minutes s.

(** What an accepted creation leaves behind: the response is the stored
    session, and one session and one payment have been appended. *)
Definition created (session_data : SessionCreate) (current_user : UserResponse)
    (cost : B64.float) (w : World) (s : SessionDoc) (p : PaymentDoc)
    (w' : World) : Prop :=
  sessions w' = sessions w ++ [s] /\ payments w' = payments w ++ [p]
  /\ users w' = users w /\ therapists w' = therapists w
  /\ se_cost s = cost /\ pay_amount p = cost
  /\ pay_session_id p = se_id s
  /\ se_user_id s = ur_id current_user /\ pay_user_id p = ur_id current_user
  /\ se_duration_minutes s = sc_duration_minutes session_data
  /\ se_session_type s = sc_session_type session_data
  /\ se_status s = "scheduled".

(** The reading of the cost rule under which an ai request of any duration
    is given its cost, stored in a session and in its payment. *)
Definition ai_cost_stored_for_every_duration : Prop :=
  forall uuid_pool session_data current_user w,
    sc_session_type session_data = "ai" ->
    exists s p w',
      create_session uuid_pool session_data current_user w = (Return s, w')
      /\ created session_data current_user
           (B64.mul lit_5_0
              (B64.nearest_quot (sc_duration_minutes session_data) 60))
           w s p w'.

(** The exception [create_session] ends with when the duration is no 8-byte
    integer: the one of the division when the quotient by 60 is no float,
    the one of the BSON encoder otherwise. *)
Definition duration_overflow (minutes : Z) : exn :=
  if B64.is_finite (B64.nearest_quot minutes 60) then
    OverflowError "MongoDB can only handle up to 8-byte ints"
  else OverflowError "integer division result too large for a float".

(** ** Concrete worlds *)

Definition demo_pool (n : nat) : string :=
  match n with
  | O => "5b1c0a52-0001"
  | S O => "5b1c0a52-0002"
  | _ => "5b1c0a52-0003"
  end.

Definition demo_hash (password : string) : string := "$2b$" +:+ password.

Definition demo_verify (password hashed : string) : bool :=
  bool_decide (hashed = demo_hash password).

Definition demo_llm (session_id message : string) : string + string :=
  inl "I hear you.".

Definition alice : UserResponse :=
  {| ur_id := "u-alice"; ur_email := "alice@example.org";
     ur_full_name := "Alice"; ur_role := "client"; ur_created_at := 1700000000 |}.

Definition bob : UserResponse :=
  {| ur_id := "u-bob"; ur_email := "bob@example.org";
     ur_full_name := "Bob"; ur_role := "therapist"; ur_created_at := 1700000000 |}.

Definition alice_doc : UserDoc :=
  {| user_id_ := "u-alice"; user_email := "alice@example.org";
     user_full_name := "Alice"; user_role := "client";
     user_password_hash := demo_hash "correct horse";
     user_created_at := 1700000000 |}.

Definition bob_profile : TherapistProfile :=
  {| th_id := "t-bob"; th_user_id := "u-bob"; th_license_number := "LIC-7";
     th_specialization := "cbt"; th_hourly_rate := B64.of_int 80;
     th_bio := ""; th_years_experience := 9; th_is_available := true;
     th_created_at := 1700000100 |}.

Definition bob_session : SessionDoc :=
  {| se_id := "s-bob"; se_user_id := "u-bob"; se_therapist_id := None;
     se_session_type := "ai"; se_scheduled_date := None;
     se_duration_minutes := 60; se_cost := lit_5_0; se_status := "scheduled";
     se_created_at := 1700000200 |}.

Definition demo_world : World :=
  {| users := [alice_doc]; therapists := [bob_profile];
     sessions := [bob_session]; payments := []; chat_history := [];
     clock := 1700001000; uuid_drawn := 0 |}.

Definition demo_request (session_type : string) (minutes : Z)
    (therapist_id : option string) (cost : B64.float) : SessionCreate :=
  {| sc_session_type := session_type; sc_scheduled_date := None;
     sc_duration_minutes := minutes; sc_cost := cost;
     sc_therapist_id := therapist_id |}.

(** ** Notions used in the analysis of rounding *)

Module Round.

Local Open Scope Z_scope.

Abbreviation fexp64 := (fexp 53 1024).

(** A significand [m] with location [l] stands for a real [x] of the unit
    interval that starts at [m]: [x] is [m] itself, below, at or above the
    midpoint. *)
Definition inbetween (m : Z) (l : location) (x : R) : Prop :=
  match l with
  | loc_Exact => x = IZR m
  | loc_Inexact Lt => (IZR m < x < IZR m + / 2)%R
  | loc_Inexact Eq => x = (IZR m + / 2)%R
  | loc_Inexact Gt => (IZR m + / 2 < x < IZR m + 1)%R
  end.

(** The significand [binary_round_aux] obtains from [m] with location [l]
    by dropping [n] bits and rounding to nearest, ties to even. *)
Definition rounded_significand (m n : Z) (l : location) : Z :=
  let mrs := Nat.iter (Z.to_nat n) shr_1 (shr_record_of_loc m l) in
  round_nearest_even (shr_m mrs) (loc_of_shr_record mrs).

(** What [binary_round_aux] returns for the rounded significand [m2] at
    exponent [e1]. *)
Definition rounds_to (s : bool) (m2 e1 : Z) (res : spec_float) : Prop :=
  (m2 = 0 /\ res = S754_zero s)
  \/ (exists m3 e3,
        0 < m2 /\ Zpos m3 * 2 ^ (e3 - e1) = m2 /\ e1 <= e3 <= e1 + 1
        /\ fexp64 (Zdigits2 (Zpos m3) + e3) = e3
        /\ res = if e3 <=? 971 then S754_finite s m3 e3 else S754_infinity s).

(** [rounded_from s x res]: [res] is the rounding of the real [x >= 0] with
    sign [s], in the standard model: a relative error of at most [2^-53] or
    an absolute error of at most [2^-1075], zero only below [2^-1075] and
    overflow only from [2^1024 - 2^970] on. *)
Definition rounded_from (s : bool) (x : R) (res : spec_float) : Prop :=
  match res with
  | S754_zero s' => s' = s /\ (x <= B64.bpow (-1075))%R
  | S754_finite s' m e =>
      s' = s /\ SpecFloat.bounded 53 1024 m e = true
      /\ (Rabs (IZR (Zpos m) * B64.bpow e - x)
          <= B64.bpow (-53) * x + B64.bpow (-1075))%R
  | S754_infinity s' => s' = s /\ (B64.bpow 1024 - B64.bpow 970 <= x)%R
  | S754_nan => False
  end.

End Round.

(** ** The remaining handlers *)

(** [get_admin_user], which depends on [get_current_user]. *)
Definition get_admin_user (current_user : UserResponse) : Handler UserResponse :=
  if decide (ur_role current_user <> "admin") then
    raise (HTTPException 403 "Admin access required")
  else ret current_user.

(** The dependency chain of an admin-only route: the bearer token is
    resolved by [get_current_user], whose result is passed to
    [get_admin_user]. *)
Definition admin_dependency (credentials : token) : Handler UserResponse :=
  let* current_user := get_current_user credentials in
  get_admin_user current_user.

(** [GET /api/sessions] *)
Definition get_user_sessions (current_user : UserResponse)
    : Handler (list SessionDoc) :=
  let* db_sessions := read sessions in
  ret (find_to_list (fun s => se_user_id s = ur_id current_user) 100 db_sessions).

(** [GET /api/sessions/{session_id}/chat-history]; the value is the list
    the handler returns. *)
Definition get_chat_history (session_id : string) (current_user : UserResponse)
    : Handler (list ChatDoc) :=
  let* db_sessions := read sessions in
  let session :=
    find_one (fun s => se_id s = session_id
                       /\ se_user_id s = ur_id current_user) db_sessions in
  match session with
  | None => raise (HTTPException 404 "Session not found")
  | Some _ =>
      let* db_chat_history := read chat_history in
      ret (find_to_list (fun c => ch_session_id c = session_id) 1000
             db_chat_history)
  end.

(** [GET /api/payments/history] *)
Definition get_payment_history (current_user : UserResponse)
    : Handler (list PaymentDoc) :=
  let* db_payments := read payments in
  ret (find_to_list (fun p => pay_user_id p = ur_id current_user) 100 db_payments).

(** [GET /api/health]: the status and the timestamp of the returned
    dictionary. *)
Definition health_check : Handler (string * datetime) :=
  let* timestamp := datetime_now in
  ret ("healthy", timestamp).

(** *** Availability *)

Record AvailabilitySlot := {
  sl_day_of_week : Z;
  sl_start_time : string;
  sl_end_time : string }.

Record TherapistAvailability := {
  ta_therapist_id : string;
  ta_availability : list AvailabilitySlot }.

(** A document of [db.therapist_availability]. *)
Record AvailabilityDoc := {
  av_therapist_id : string;
  av_availability : list AvailabilitySlot;
  av_updated_at : datetime }.

(** The world together with the collection [db.therapist_availability],
    which only [set_availability] touches. *)
Record Store := {
  store_world : World;
  therapist_availability : list AvailabilityDoc }.

Definition Route (A : Type) : Type := Store -> outcome A * Store.

(** A handler of the world, run on the store. *)
Definition on_world {A} (h : Handler A) : Route A := fun st =>
  let (o, w') := h (store_world st) in
  (o, {| store_world := w';
         therapist_availability := therapist_availability st |}).

(** [collection.replace_one(filter, doc)]: the first matching document is
    replaced in its place; [None] when no document matches. *)
Fixpoint replace_first {A} (P : A -> Prop) `{!forall x, Decision (P x)}
    (doc : A) (c : list A) : option (list A) :=
  match c with
  | [] => None
  | x :: c' =>
      if decide (P x) then Some (doc :: c')
      else cons x <$> replace_first P doc c'
  end.

(** [collection.replace_one(filter, doc, upsert=True)] *)
Definition replace_one_upsert {A} (P : A -> Prop) `{!forall x, Decision (P x)}
    (doc : A) (c : list A) : list A :=
  match replace_first P doc c with
  | Some c' => c'
  | None => c ++ [doc]
  end.

(** [POST /api/therapist/availability]; the response is the message of the
    returned dictionary. *)
Definition set_availability (availability : TherapistAvailability)
    (current_user : UserResponse) : Route string := fun st =>
  match find_one (fun t => th_user_id t = ur_id current_user)
          (therapists (store_world st)) with
  | None => (Raise (HTTPException 404 "Therapist profile not found"), st)
  | Some therapist =>
      let availability_doc :=
        {| av_therapist_id := th_id therapist;
           av_availability := ta_availability availability;
           av_updated_at := clock (store_world st) |} in
      (Return "Availability updated successfully",
       {| store_world := store_world st;
          therapist_availability :=
            replace_one_upsert (fun d => av_therapist_id d = th_id therapist)
              availability_doc (therapist_availability st) |})
  end.

(** The store when the clock has moved to [now]. *)
Definition at_time (now : datetime) (st : Store) : Store :=
  {| store_world :=
       {| users := users (store_world st);
          therapists := therapists (store_world st);
          sessions := sessions (store_world st);
          payments := payments (store_world st);
          chat_history := chat_history (store_world st);
          clock := now; uuid_drawn := uuid_drawn (store_world st) |};
     therapist_availability := therapist_availability st |}.

(** ** The routes of the router *)

(** A request to one of the routes of [api_router], with the bearer
    credentials of the routes that depend on [get_current_user]. *)
Inductive request : Type :=
  | POST_auth_register (user : UserCreate)
  | POST_auth_login (user_login : UserLogin)
  | POST_therapist_register (credentials : token)
      (therapist_data : TherapistRegistration)
  | GET_therapists
  | POST_therapist_availability (credentials : token)
      (availability : TherapistAvailability)
  | POST_sessions_create (credentials : token) (session_data : SessionCreate)
  | GET_sessions (credentials : token)
  | POST_ai_chat (credentials : token) (chat_message : ChatMessage)
  | GET_chat_history (credentials : token) (session_id : string)
  | GET_payments_history (credentials : token)
  | GET_health.

Inductive response : Type :=
  | TokenBody (body : TokenResponse)
  | ProfileBody (body : TherapistProfile)
  | ProfilesBody (body : list TherapistProfile)
  | MessageBody (message : string)
  | SessionBody (body : SessionDoc)
  | SessionsBody (body : list SessionDoc)
  | ChatBody (body : ChatResponse)
  | HistoryBody (body : list ChatDoc)
  | PaymentsBody (body : list PaymentDoc)
  | HealthBody (status : string) (timestamp : datetime).

(** The bearer credentials of a request to a route that depends on
    [get_current_user]. *)
Definition credentials_of (r : request) : option token :=
  match r with
  | POST_therapist_register credentials _
  | POST_therapist_availability credentials _
  | POST_sessions_create credentials _
  | GET_sessions credentials
  | POST_ai_chat credentials _
  | GET_chat_history credentials _
  | GET_payments_history credentials => Some credentials
  | POST_auth_register _ | POST_auth_login _ | GET_therapists | GET_health => None
  end.

Definition respond {A} (body : A -> response) (r : Route A) : Route response :=
  fun st =>
    match r st with
    | (Return a, st') => (Return (body a), st')
    | (Raise e, st') => (Raise e, st')
    end.

(** [Depends(get_current_user)]: the handler runs on the user the
    credentials resolve to, and not at all when they resolve to none. *)
Definition with_current_user {A} (credentials : token)
    (h : UserResponse -> Route A) : Route A := fun st =>
  match on_world (get_current_user credentials) st with
  | (Return current_user, st') => h current_user st'
  | (Raise e, st') => (Raise e, st')
  end.

Section Routes.

Variable hash_password : string -> string.
Variable verify_password : string -> string -> bool.
Variable uuid_pool : nat -> string.
Variable llm_send_message : string -> string -> string + string.

Definition serve (r : request) : Route response :=
  match r with
  | POST_auth_register user =>
      respond TokenBody (on_world (register hash_password uuid_pool user))
  | POST_auth_login user_login =>
      respond TokenBody (on_world (login verify_password user_login))
  | POST_therapist_register credentials therapist_data =>
      respond ProfileBody
        (with_current_user credentials (fun current_user =>
           on_world (register_therapist uuid_pool therapist_data current_user)))
  | GET_therapists => respond ProfilesBody (on_world get_therapists)
  | POST_therapist_availability credentials availability =>
      respond MessageBody
        (with_current_user credentials (set_availability availability))
  | POST_sessions_create credentials session_data =>
      respond SessionBody
        (with_current_user credentials (fun current_user =>
           on_world (create_session uuid_pool session_data current_user)))
  | GET_sessions credentials =>
      respond SessionsBody
        (with_current_user credentials (fun current_user =>
           on_world (get_user_sessions current_user)))
  | POST_ai_chat credentials chat_message =>
      respond ChatBody
        (with_current_user credentials (fun current_user =>
           on_world (ai_chat uuid_pool llm_send_message chat_message current_user)))
  | GET_chat_history credentials session_id =>
      respond HistoryBody
        (with_current_user credentials (fun current_user =>
           on_world (get_chat_history session_id current_user)))
  | GET_payments_history credentials =>
      respond PaymentsBody
        (with_current_user credentials (fun current_user =>
           on_world (get_payment_history current_user)))
  | GET_health =>
      respond (fun body => HealthBody body.1 body.2) (on_world health_check)
  end.

(** The store after a sequence of requests served in turn, each to its
    end before the next begins.  Requests that are in flight together are
    the subject of [interleave] below. *)
Definition serve_all (rs : list request) (st : Store) : Store :=
  foldl (fun st r => (serve r st).2) st rs.

End Routes.

(** ** Requests in flight *)

(** A handler in flight: finished with its outcome, or suspended at an
    [await], where the server serves other requests until the handler is
    resumed; resumed in the world [w] of that moment it leaves the world
    [effect w] and goes on as [next w]. *)
Inductive coroutine (A : Type) : Type :=
  | Finished (o : outcome A)
  | Suspended (next : World -> coroutine A) (effect : World -> World).
Arguments Finished {A} o.
Arguments Suspended {A} next effect.

(** The stretch [h] of a handler, which ends with an awaited operation of
    the store, and the rest [k] of the handler, which runs when the
    operation has returned. *)
Definition await {A B} (h : Handler A) (k : A -> coroutine B) : coroutine B :=
  Suspended
    (fun w =>
       match (h w).1 with
       | Return a => k a
       | Raise e => Finished (Raise e)
       end)
    (fun w => (h w).2).

(** Resuming a handler runs it to its next [await], or to its end. *)
Definition resume_task {A} (c : coroutine A) (w : World)
    : coroutine A * World :=
  match c with
  | Finished o => (Finished o, w)
  | Suspended next effect => (next w, effect w)
  end.

(** The event loop: the handlers in flight are resumed in the order of the
    schedule, one stretch at a time. *)
Fixpoint interleave {A} (schedule : list nat) (tasks : list (coroutine A))
    (w : World) : list (coroutine A) * World :=
  match schedule with
  | [] => (tasks, w)
  | i :: schedule' =>
      match tasks !! i with
      | Some c =>
          let (c', w') := resume_task c w in
          interleave schedule' (<[i := c']> tasks) w'
      | None => interleave schedule' tasks w
      end
  end.

Section InFlight.

Variable hash_password : string -> string.
Variable uuid_pool : nat -> string.

(** [register] up to the await of [db.users.find_one]. *)
Definition register_check (user : UserCreate) : Handler unit :=
  let* db_users := read users in
  let existing_user := find_one (fun u => user_email u = uc_email user) db_users in
  match existing_user with
  | Some _ => raise (HTTPException 400 "Email already registered")
  | None => ret tt
  end.

(** [register] from there on, with the await of [db.users.insert_one]. *)
Definition register_store (user : UserCreate) : Handler TokenResponse :=
  let* user_id := uuid4 uuid_pool in
  let hashed_password := hash_password (uc_password user) in
  let* created_at := datetime_now in
  let user_doc :=
    {| user_id_ := user_id; user_email := uc_email user;
       user_full_name := uc_full_name user; user_role := uc_role user;
       user_password_hash := hashed_password;
       user_created_at := created_at |} in
  insert_user user_doc ;;
  let* access_token := create_access_token {[ "sub" := ClaimStr user_id ]} in
  let user_response :=
    {| ur_id := user_id; ur_email := uc_email user;
       ur_full_name := uc_full_name user; ur_role := uc_role user;
       ur_created_at := user_created_at user_doc |} in
  ret {| tk_access_token := access_token; tk_token_type := "bearer";
         tk_user := user_response |}.

Definition register_in_flight (user : UserCreate) : coroutine TokenResponse :=
  await (register_check user) (fun _ =>
  await (register_store user) (fun response => Finished (Return response))).

(** [register_therapist] up to the await of [db.therapists.find_one]. *)
Definition register_therapist_check (current_user : UserResponse)
    : Handler unit :=
  if decide (ur_role current_user <> "therapist") then
    raise (HTTPException 403 "Only therapists can register as therapists")
  else
    let* db_therapists := read therapists in
    let existing_therapist :=
      find_one (fun t => th_user_id t = ur_id current_user) db_therapists in
    match existing_therapist with
    | Some _ => raise (HTTPException 400 "Therapist profile already exists")
    | None => ret tt
    end.

(** [register_therapist] from there on, with the await of
    [db.therapists.insert_one]. *)
Definition register_therapist_store (therapist_data : TherapistRegistration)
    (current_user : UserResponse) : Handler TherapistProfile :=
  let* therapist_id := uuid4 uuid_pool in
  let* created_at := datetime_now in
  let therapist_doc :=
    {| th_id := therapist_id; th_user_id := ur_id current_user;
       th_license_number := tr_license_number therapist_data;
       th_specialization := tr_specialization therapist_data;
       th_hourly_rate := tr_hourly_rate therapist_data;
       th_bio := tr_bio therapist_data;
       th_years_experience := tr_years_experience therapist_data;
       th_is_available := true;
       th_created_at := created_at |} in
  insert_therapist therapist_doc ;;
  ret therapist_doc.

Definition register_therapist_in_flight (therapist_data : TherapistRegistration)
    (current_user : UserResponse) : coroutine TherapistProfile :=
  await (register_therapist_check current_user) (fun _ =>
  await (register_therapist_store therapist_data current_user)
    (fun profile => Finished (Return profile))).

(** [create_session] up to the await of [db.sessions.insert_one].  The
    look-up of the therapist, an await of its own, is not cut here: every
    schedule of these two stretches is one of the program. *)
Definition create_session_store (session_data : SessionCreate)
    (current_user : UserResponse) : Handler SessionDoc :=
  let* session_id := uuid4 uuid_pool in
  let* cost := session_cost session_data in
  let* created_at := datetime_now in
  let session_doc :=
    {| se_id := session_id; se_user_id := ur_id current_user;
       se_therapist_id := sc_therapist_id session_data;
       se_session_type := sc_session_type session_data;
       se_scheduled_date := sc_scheduled_date session_data;
       se_duration_minutes := sc_duration_minutes session_data;
       se_cost := cost; se_status := "scheduled";
       se_created_at := created_at |} in
  insert_session session_doc ;;
  ret session_doc.

(** [create_session] from there on, with the await of
    [db.payments.insert_one]. *)
Definition create_session_pay (session_data : SessionCreate)
    (current_user : UserResponse) (session_doc : SessionDoc)
    : Handler SessionDoc :=
  let session_id := se_id session_doc in
  let cost := se_cost session_doc in
  let* payment_id := uuid4 uuid_pool in
  let* payment_created_at := datetime_now in
  let is_therapist := bool_decide (sc_session_type session_data = "therapist") in
  let payment_doc :=
    {| pay_id := payment_id; pay_user_id := ur_id current_user;
       pay_session_id := session_id; pay_amount := cost;
       pay_payment_type := sc_session_type session_data +:+ "_session";
       pay_status := "completed"; pay_created_at := payment_created_at;
       pay_platform_fee :=
         if is_therapist then Some (B64.mul cost lit_0_30) else None;
       pay_therapist_earnings :=
         if is_therapist then Some (B64.mul cost lit_0_70) else None |} in
  insert_payment payment_doc ;;
  ret session_doc.

Definition create_session_in_flight (session_data : SessionCreate)
    (current_user : UserResponse) : coroutine SessionDoc :=
  await (create_session_store session_data current_user) (fun session_doc =>
  await (create_session_pay session_data current_user session_doc)
    (fun response => Finished (Return response))).

End InFlight.

(** ** Invariants of the store *)

(** No two user records share an email. *)
Definition emails_unique (w : World) : Prop := NoDup (user_email <$> users w).

(** Every profile is listed as available and belongs to a user record with
    the role "therapist"; no user has two profiles. *)
Definition profiles_sound (w : World) : Prop :=
  NoDup (th_user_id <$> therapists w)
  /\ forall t, t ∈ therapists w ->
       th_is_available t = true
       /\ exists u, u ∈ users w /\ user_id_ u = th_user_id t
                    /\ user_role u = "therapist".

(** The payment [p] settles the session [s]: it is determined by the
    session up to its own id and timestamp. *)
Definition settles (s : SessionDoc) (p : PaymentDoc) : Prop :=
  pay_session_id p = se_id s /\ pay_user_id p = se_user_id s
  /\ pay_amount p = se_cost s
  /\ pay_payment_type p = se_session_type s +:+ "_session"
  /\ pay_status p = "completed"
  /\ pay_platform_fee p
     = (if bool_decide (se_session_type s = "therapist")
        then Some (B64.mul (se_cost s) lit_0_30) else None)
  /\ pay_therapist_earnings p
     = (if bool_decide (se_session_type s = "therapist")
        then Some (B64.mul (se_cost s) lit_0_70) else None).

(** Sessions and payments run in step: the n-th payment settles the n-th
    session. *)
Definition ledger_paired (w : World) : Prop :=
  Forall2 settles (sessions w) (payments w).

(** The cost the price list of the world gives a request: 5.0 an hour for
    an ai session, the hourly rate of the first profile under the therapist
    id for a therapist session, for a duration whose quotient by 60 is a
    finite float. *)
Definition cost_by_price_list (w : World) (session_type : string)
    (therapist_id : option string) (minutes : Z) (cost : B64.float) : Prop :=
  B64.is_finite (B64.nearest_quot minutes 60) = true
  /\ ((session_type = "ai"
       /\ cost = B64.mul lit_5_0 (B64.nearest_quot minutes 60))
      \/ (session_type = "therapist"
          /\ exists tid t,
               therapist_id = Some tid /\ tid <> ""
               /\ find_one (fun t => th_id t = tid) (therapists w) = Some t
               /\ cost = B64.mul (th_hourly_rate t) (B64.nearest_quot minutes 60))).

(** A stored session is scheduled and costs what the price list says. *)
Definition priced (w : World) (s : SessionDoc) : Prop :=
  se_status s = "scheduled"
  /\ cost_by_price_list w (se_session_type s) (se_therapist_id s)
       (se_duration_minutes s) (se_cost s).

Definition sessions_priced (w : World) : Prop :=
  forall s, s ∈ sessions w -> priced w s.

(** Every entry of the chat history was written by the owner of an ai
    session with the id of the entry. *)
Definition chat_owned (w : World) : Prop :=
  forall c, c ∈ chat_history w ->
    exists s, s ∈ sessions w /\ se_id s = ch_session_id c
              /\ se_user_id s = ch_user_id c /\ se_session_type s = "ai".

(** Sessions, payments and chat entries belong to user records. *)
Definition owners_registered (w : World) : Prop :=
  (forall s, s ∈ sessions w -> exists u, u ∈ users w /\ user_id_ u = se_user_id s)
  /\ (forall p, p ∈ payments w ->
        exists u, u ∈ users w /\ user_id_ u = pay_user_id p)
  /\ (forall c, c ∈ chat_history w ->
        exists u, u ∈ users w /\ user_id_ u = ch_user_id c).

(** At most one availability document per therapist id, each for the id
    of a profile. *)
Definition availability_sound (st : Store) : Prop :=
  NoDup (av_therapist_id <$> therapist_availability st)
  /\ forall d, d ∈ therapist_availability st ->
       exists t, t ∈ therapists (store_world st) /\ th_id t = av_therapist_id d.

(** The collections of the world only grow, at their ends. *)
Definition extends (w w' : World) : Prop :=
  users w `prefix_of` users w' /\ therapists w `prefix_of` therapists w'
  /\ sessions w `prefix_of` sessions w' /\ payments w `prefix_of` payments w'
  /\ chat_history w `prefix_of` chat_history w'.

(** The five ways in which a request changes the world: not at all, or by
    one user record with a new email, by one profile of a user with the
    role "therapist" who had none, by a priced session with its payment,
    or by a chat entry of the owner of an ai session. *)
Inductive world_step (w w' : World) : Prop :=
  | step_none : same_store w w' -> world_step w w'
  | step_user u :
      users w' = users w ++ [u] -> therapists w' = therapists w ->
      sessions w' = sessions w -> payments w' = payments w ->
      chat_history w' = chat_history w ->
      (forall v, v ∈ users w -> user_email v <> user_email u) ->
      world_step w w'
  | step_profile t u :
      users w' = users w -> therapists w' = therapists w ++ [t] ->
      sessions w' = sessions w -> payments w' = payments w ->
      chat_history w' = chat_history w ->
      th_is_available t = true ->
      u ∈ users w -> user_id_ u = th_user_id t -> user_role u = "therapist" ->
      (forall t0, t0 ∈ therapists w -> th_user_id t0 <> th_user_id t) ->
      world_step w w'
  | step_session s p u :
      users w' = users w -> therapists w' = therapists w ->
      sessions w' = sessions w ++ [s] -> payments w' = payments w ++ [p] ->
      chat_history w' = chat_history w ->
      settles s p -> priced w s ->
      u ∈ users w -> user_id_ u = se_user_id s ->
      world_step w w'
  | step_chat c s u :
      users w' = users w -> therapists w' = therapists w ->
      sessions w' = sessions w -> payments w' = payments w ->
      chat_history w' = chat_history w ++ [c] ->
      s ∈ sessions w -> se_id s = ch_session_id c ->
      se_user_id s = ch_user_id c -> se_session_type s = "ai" ->
      u ∈ users w -> user_id_ u = ch_user_id c ->
      world_step w w'.

(** The two ways in which [login] refuses credentials. *)
Inductive login_refused (verify_password : string -> string -> bool)
    (user_login : UserLogin) (w : World) : Prop :=
  | UnknownEmail :
      (forall u, u ∈ users w -> user_email u <> ul_email user_login) ->
      login_refused verify_password user_login w
  | WrongPassword user :
      find_one (fun u => user_email u = ul_email user_login) (users w) = Some user ->
      verify_password (ul_password user_login) (user_password_hash user) = false ->
      login_refused verify_password user_login w.

(** ** A concrete store *)

Definition bob_doc : UserDoc :=
  {| user_id_ := "u-bob"; user_email := "bob@example.org";
     user_full_name := "Bob"; user_role := "therapist";
     user_password_hash := demo_hash "tr0ub4dor";
     user_created_at := 1700000000 |}.

Definition alice_session : SessionDoc :=
  {| se_id := "s-alice"; se_user_id := "u-alice"; se_therapist_id := None;
     se_session_type := "ai"; se_scheduled_date := None;
     se_duration_minutes := 60; se_cost := B64.mul lit_5_0 (B64.nearest_quot 60 60);
     se_status := "scheduled"; se_created_at := 1700000300 |}.

Definition alice_payment : PaymentDoc :=
  {| pay_id := "p-alice"; pay_user_id := "u-alice"; pay_session_id := "s-alice";
     pay_amount := B64.mul lit_5_0 (B64.nearest_quot 60 60);
     pay_payment_type := "ai_session"; pay_status := "completed";
     pay_created_at := 1700000300; pay_platform_fee := None;
     pay_therapist_earnings := None |}.

Definition alice_chat : ChatDoc :=
  {| ch_id := "c-1"; ch_session_id := "s-alice"; ch_user_id := "u-alice";
     ch_user_message := "hello"; ch_ai_response := "I hear you.";
     ch_timestamp := 1700000400 |}.

Definition clinic_world : World :=
  {| users := [alice_doc; bob_doc]; therapists := [bob_profile];
     sessions := [alice_session]; payments := [alice_payment];
     chat_history := [alice_chat]; clock := 1700001000; uuid_drawn := 0 |}.

Definition bob_hours : AvailabilityDoc :=
  {| av_therapist_id := "t-bob";
     av_availability :=
       [ {| sl_day_of_week := 0; sl_start_time := "09:00";
            sl_end_time := "17:00" |} ];
     av_updated_at := 1700000500 |}.

Definition clinic : Store :=
  {| store_world := clinic_world; therapist_availability := [bob_hours] |}.

(** A day at the clinic: Carol registers, Mallory tries Alice's email,
    Alice logs in, books an hour with Bob and an ai session and writes to
    the ai session she has; Bob replaces his hours; Alice reads her
    listings. *)
Definition clinic_day : list request :=
  let alice_token :=
    Signed (<["exp" := ClaimInt 1700604800]> {[ "sub" := ClaimStr "u-alice" ]})
      JWT_SECRET JWT_ALGORITHM in
  let bob_token :=
    Signed (<["exp" := ClaimInt 1700604800]> {[ "sub" := ClaimStr "u-bob" ]})
      JWT_SECRET JWT_ALGORITHM in
  [ POST_auth_register
      {| uc_email := "carol@example.org"; uc_full_name := "Carol";
         uc_role := "therapist"; uc_password := "s3cret" |};
    POST_auth_register
      {| uc_email := "alice@example.org"; uc_full_name := "Mallory";
         uc_role := "admin"; uc_password := "guess" |};
    POST_auth_login
      {| ul_email := "alice@example.org"; ul_password := "correct horse" |};
    POST_sessions_create alice_token (demo_request "therapist" 60 (Some "t-bob") lit_5_0);
    POST_sessions_create alice_token (demo_request "ai" 30 None lit_5_0);
    POST_ai_chat alice_token {| cm_session_id := "s-alice"; cm_message := "hi" |};
    POST_therapist_availability bob_token
      {| ta_therapist_id := "t-other";
         ta_availability :=
           [ {| sl_day_of_week := 2; sl_start_time := "10:00";
                sl_end_time := "12:00" |} ] |};
    GET_sessions alice_token;
    GET_payments_history alice_token;
    GET_chat_history alice_token "s-alice";
    GET_therapists;
    GET_health ].

Definition day_after : Store :=
  serve_all demo_hash demo_verify demo_pool demo_llm clinic_day clinic.

(** The token [create_access_token] issues for the user id [user_id] at
    the time [issued]. *)
Definition token_of (user_id : string) (issued : datetime) : token :=
  Signed (<["exp" := ClaimInt (issued + 7 * 24 * 60 * 60)]>
            {[ "sub" := ClaimStr user_id ]}) JWT_SECRET JWT_ALGORITHM.

(** * Properties *)

(** ** Rounding to nearest in binary64 *)

Module B64Facts.

Import Round.
Local Open Scope Z_scope.

Lemma digits2_pos_size (p : positive) : digits2_pos p = Pos.size p.
Proof. induction p as [p IH|p IH|]; simpl; congruence. Qed.

Lemma Zdigits2_log2 (m : Z) : 0 < m -> Zdigits2 m = Z.log2 m + 1.
Proof.
  destruct m as [|p|p]; try lia. intros _. simpl.
  destruct p as [p|p|]; simpl; rewrite ?digits2_pos_size; lia.
Qed.

Lemma Zdigits2_bounds (m : Z) :
  0 < m -> 2 ^ (Zdigits2 m - 1) <= m < 2 ^ Zdigits2 m.
Proof.
  intros Hm. rewrite Zdigits2_log2 by done.
  replace (Z.log2 m + 1 - 1) with (Z.log2 m) by lia.
  apply Z.log2_spec. done.
Qed.

Lemma Zdigits2_unique (m k : Z) :
  2 ^ (k - 1) <= m < 2 ^ k -> 0 < k -> Zdigits2 m = k.
Proof.
  intros Hm Hk.
  assert (0 < m) by (pose proof (Z.pow_pos_nonneg 2 (k - 1)); lia).
  rewrite Zdigits2_log2 by done.
  rewrite (Z.log2_unique m (k - 1)); [lia | lia |].
  replace (Z.succ (k - 1)) with k by lia. done.
Qed.

Lemma Zdigits2_pos (m : Z) : 0 < m -> 0 < Zdigits2 m.
Proof. intros Hm. rewrite Zdigits2_log2 by done. pose proof (Z.log2_nonneg m). lia. Qed.

Lemma Zdigits2_mono (a b : Z) : 0 < a <= b -> Zdigits2 a <= Zdigits2 b.
Proof.
  intros Hab. rewrite !Zdigits2_log2 by lia.
  pose proof (Z.log2_le_mono a b). lia.
Qed.

Lemma Zdigits2_div_pow2 (m n : Z) :
  0 < m -> 0 <= n < Zdigits2 m -> Zdigits2 (m / 2 ^ n) = Zdigits2 m - n.
Proof.
  intros Hm Hn. pose proof (Zdigits2_bounds m Hm) as [Hlo Hhi].
  apply Zdigits2_unique; [|lia].
  assert (Hpow : 0 < 2 ^ n) by (apply Z.pow_pos_nonneg; lia).
  split.
  - apply Z.div_le_lower_bound; [done|].
    rewrite <- Z.pow_add_r by lia.
    replace (n + (Zdigits2 m - n - 1)) with (Zdigits2 m - 1) by lia. done.
  - apply Z.div_lt_upper_bound; [done|].
    rewrite <- Z.pow_add_r by lia.
    replace (n + (Zdigits2 m - n)) with (Zdigits2 m) by lia. done.
Qed.

(** One halving of a shift record. *)
Lemma shr_1_spec (m : Z) (r s : bool) :
  0 <= m ->
  shr_1 (Build_shr_record m r s) = Build_shr_record (m / 2) (Z.odd m) (r || s).
Proof.
  intros Hm. rewrite <- Z.div2_div.
  destruct m as [|p|p]; [done| |lia]. by destruct p.
Qed.

Lemma iter_pos_nat {A} (f : A -> A) (p : positive) (x : A) :
  SpecFloat.iter_pos f p x = Nat.iter (Pos.to_nat p) f x.
Proof.
  revert x. induction p as [p IH|p IH|]; intros x; cbn [SpecFloat.iter_pos].
  - rewrite !IH, Pos2Nat.inj_xI, Nat.iter_succ_r.
    replace (2 * Pos.to_nat p)%nat with (Pos.to_nat p + Pos.to_nat p)%nat by lia.
    by rewrite Nat.iter_add.
  - rewrite !IH, Pos2Nat.inj_xO.
    replace (2 * Pos.to_nat p)%nat with (Pos.to_nat p + Pos.to_nat p)%nat by lia.
    by rewrite Nat.iter_add.
  - done.
Qed.

Lemma iter_shr_1_m (k : nat) (m : Z) (r s : bool) :
  0 <= m ->
  shr_m (Nat.iter k shr_1 (Build_shr_record m r s)) = m / 2 ^ Z.of_nat k.
Proof.
  intros Hm. induction k as [|k IH].
  - cbn. by rewrite Z.div_1_r.
  - rewrite Nat.iter_succ. destruct (Nat.iter k shr_1 _) as [m' r' s'] eqn:E.
    cbn [shr_m] in IH. subst m'.
    rewrite shr_1_spec by (apply Z.div_pos; [done|apply Z.pow_pos_nonneg; lia]).
    cbn [shr_m]. rewrite Z.div_div by (try apply Z.pow_pos_nonneg; lia).
    f_equal. rewrite Nat2Z.inj_succ, Z.pow_succ_r by lia. lia.
Qed.

Lemma fexp64_eq (e : Z) : fexp64 e = Z.max (e - 53) (-1074).
Proof. reflexivity. Qed.

Lemma fexp64_mono (a b : Z) : a <= b -> fexp64 a <= fexp64 b.
Proof. unfold fexp, emin. lia. Qed.

Lemma fexp64_ge_emin (a : Z) : -1074 <= fexp64 a.
Proof. unfold fexp, emin. lia. Qed.

Lemma round_nearest_even_range (q : Z) (l : location) :
  q <= round_nearest_even q l <= q + 1.
Proof. destruct l as [|[]]; cbn; try destruct (Z.even q); lia. Qed.

Lemma shr_spec (mrs : shr_record) (e n : Z) :
  shr mrs e n = (Nat.iter (Z.to_nat n) shr_1 mrs, e + Z.max 0 n).
Proof.
  destruct n as [|p|p]; cbn [shr Z.to_nat].
  - cbn. by rewrite Z.add_0_r.
  - by rewrite iter_pos_nat.
  - cbn. by rewrite Z.add_0_r.
Qed.

Lemma loc_of_shr_record_of_loc (m : Z) (l : location) :
  loc_of_shr_record (shr_record_of_loc m l) = l.
Proof. by destruct l as [|[]]. Qed.

Lemma Zdigits2_succ (q : Z) :
  0 <= q ->
  Zdigits2 (q + 1) = Zdigits2 q
  \/ (q + 1 = 2 ^ Zdigits2 q /\ Zdigits2 (q + 1) = Zdigits2 q + 1).
Proof.
  intros Hq. destruct (Z.eq_dec q 0) as [->|Hne]; [right; done|].
  pose proof (Zdigits2_bounds q ltac:(lia)) as [Hlo Hhi].
  pose proof (Zdigits2_pos q ltac:(lia)) as Hd.
  destruct (Z.eq_dec (q + 1) (2 ^ Zdigits2 q)) as [Heq|Hlt].
  - right. split; [done|]. apply Zdigits2_unique; [|lia].
    replace (Zdigits2 q + 1 - 1) with (Zdigits2 q) by lia.
    rewrite Z.pow_add_r, Z.pow_1_r by lia. lia.
  - left. apply Zdigits2_unique; lia.
Qed.

(** The second, renormalising shift of [binary_round_aux]. *)
Lemma renormalise (q e1 m2 : Z) :
  0 <= q -> q <= m2 <= q + 1 -> 0 < m2 ->
  fexp64 (Zdigits2 q + e1) = e1 ->
  let n2 := fexp64 (Zdigits2 m2 + e1) - e1 in
  0 <= n2 <= 1
  /\ m2 / 2 ^ n2 * 2 ^ n2 = m2
  /\ fexp64 (Zdigits2 (m2 / 2 ^ n2) + (e1 + n2)) = e1 + n2.
Proof.
  intros Hq Hm2 Hpos Hcanon n2.
  assert (Hcases : m2 = q \/ m2 = q + 1) by lia.
  assert (Hsame : Zdigits2 m2 = Zdigits2 q -> 0 <= n2 <= 1
    /\ m2 / 2 ^ n2 * 2 ^ n2 = m2
    /\ fexp64 (Zdigits2 (m2 / 2 ^ n2) + (e1 + n2)) = e1 + n2).
  { intros Hd. assert (Hn2 : n2 = 0) by (unfold n2; rewrite Hd; lia).
    rewrite Hn2, Z.pow_0_r, Z.div_1_r, Z.add_0_r, Hd. lia. }
  destruct Hcases as [->| ->]; [by apply Hsame|].
  destruct (Zdigits2_succ q Hq) as [Hd|[Hpow Hd]]; [by apply Hsame|].
  assert (Hn2 : n2 = 0 \/ (n2 = 1 /\ 0 < Zdigits2 q)).
  { unfold n2. rewrite Hd. unfold fexp, emin in *.
    destruct (Z.eq_dec q 0) as [->|Hne].
    - cbn [Zdigits2] in *. lia.
    - pose proof (Zdigits2_pos q ltac:(lia)). lia. }
  destruct Hn2 as [Hn2|[Hn2 Hdq]]; rewrite Hn2.
  - rewrite Z.pow_0_r, Z.div_1_r, Z.add_0_r.
    split; [lia|]. split; [lia|]. fold n2 in Hn2. unfold n2 in Hn2. lia.
  - rewrite Z.pow_1_r. rewrite Hpow.
    assert (Hhalf : 2 ^ Zdigits2 q / 2 = 2 ^ (Zdigits2 q - 1)).
    { replace (Zdigits2 q) with (Zdigits2 q - 1 + 1) at 1 by lia.
      rewrite Z.pow_add_r, Z.pow_1_r by lia. apply Z.div_mul. lia. }
    rewrite Hhalf. split; [lia|]. split.
    + replace (Zdigits2 q) with (Zdigits2 q - 1 + 1) at 2 by lia.
      rewrite Z.pow_add_r, Z.pow_1_r by lia. lia.
    + rewrite (Zdigits2_unique (2 ^ (Zdigits2 q - 1)) (Zdigits2 q)).
      * unfold n2 in Hn2. rewrite Hd in Hn2.
        replace (Zdigits2 q + (e1 + 1)) with (Zdigits2 q + 1 + e1) by lia. lia.
      * split; [lia|]. apply Z.pow_lt_mono_r; lia.
      * done.
Qed.

Lemma shr_record_of_loc_m (m : Z) (l : location) :
  exists r s, shr_record_of_loc m l = Build_shr_record m r s.
Proof. destruct l as [|[]]; cbn; eauto. Qed.

Lemma first_shift_canonical (m e : Z) :
  0 <= m -> e <= fexp64 (Zdigits2 m + e) ->
  let n := fexp64 (Zdigits2 m + e) - e in
  fexp64 (Zdigits2 (m / 2 ^ n) + (e + n)) = e + n.
Proof.
  intros Hm Henough n.
  assert (Hn : 0 <= n) by (unfold n; lia).
  assert (Hpow : 0 < 2 ^ n) by (apply Z.pow_pos_nonneg; lia).
  destruct (Z.eq_dec m 0) as [->|Hne].
  { rewrite Z.div_0_l by lia. cbn [Zdigits2] in *. unfold n.
    unfold fexp, emin in *. lia. }
  pose proof (Zdigits2_bounds m ltac:(lia)) as [Hlo Hhi].
  pose proof (Zdigits2_pos m ltac:(lia)) as Hd.
  destruct (Z_lt_le_dec n (Zdigits2 m)) as [Hlt|Hge].
  - rewrite Zdigits2_div_pow2 by lia. unfold n.
    replace (Zdigits2 m - (fexp64 (Zdigits2 m + e) - e)
             + (e + (fexp64 (Zdigits2 m + e) - e)))
      with (Zdigits2 m + e) by lia. lia.
  - assert (Hsmall : m < 2 ^ n).
    { eapply Z.lt_le_trans; [exact Hhi|]. apply Z.pow_le_mono_r; lia. }
    rewrite Z.div_small by lia. cbn [Zdigits2]. unfold n in *.
    unfold fexp, emin in *. lia.
Qed.

Lemma binary_round_aux_spec (s : bool) (m e : Z) (l : location) :
  0 <= m -> e <= fexp64 (Zdigits2 m + e) ->
  let n := fexp64 (Zdigits2 m + e) - e in
  let m2 := rounded_significand m n l in
  m / 2 ^ n <= m2 <= m / 2 ^ n + 1
  /\ rounds_to s m2 (e + n) (binary_round_aux 53 1024 s m e l).
Proof.
  intros Hm Henough n m2.
  assert (Hn : 0 <= n) by (unfold n; lia).
  unfold binary_round_aux, shr_fexp. fold n. rewrite shr_spec.
  rewrite (Z.max_r 0 n) by done.
  unfold m2, rounded_significand.
  set (rec1 := Nat.iter (Z.to_nat n) shr_1 (shr_record_of_loc m l)).
  set (r2 := round_nearest_even (shr_m rec1) (loc_of_shr_record rec1)).
  assert (Hq : shr_m rec1 = m / 2 ^ n).
  { unfold rec1. destruct (shr_record_of_loc_m m l) as (r & st & ->).
    rewrite iter_shr_1_m by done. by rewrite Z2Nat.id. }
  assert (Hrange : m / 2 ^ n <= r2 <= m / 2 ^ n + 1).
  { unfold r2. rewrite <- Hq. apply round_nearest_even_range. }
  assert (Hq0 : 0 <= m / 2 ^ n)
    by (apply Z.div_pos; [done|apply Z.pow_pos_nonneg; lia]).
  split; [done|].
  rewrite shr_spec. cbn [shr_record_of_loc].
  rewrite iter_shr_1_m by lia.
  destruct (Z.eq_dec r2 0) as [Hz|Hnz].
  { left. split; [done|]. rewrite Hz. rewrite Z.div_0_l; [done|].
    apply Z.pow_nonzero; lia. }
  right.
  pose proof (renormalise (m / 2 ^ n) (e + n) r2 Hq0 Hrange ltac:(lia)
                (first_shift_canonical m e Hm Henough)) as (Hn2 & Hexact & Hcanon).
  set (n2 := fexp64 (Zdigits2 r2 + (e + n)) - (e + n)) in *.
  rewrite Z2Nat.id by lia. rewrite (Z.max_r 0 n2) by lia.
  assert (Hm3 : 0 < r2 / 2 ^ n2).
  { assert (0 < 2 ^ n2) by (apply Z.pow_pos_nonneg; lia).
    destruct (Z.eq_dec (r2 / 2 ^ n2) 0) as [H0|H0]; [rewrite H0 in Hexact; lia|].
    pose proof (Z.div_pos r2 (2 ^ n2)). lia. }
  destruct (r2 / 2 ^ n2) as [|m3|m3] eqn:E3; [lia| |lia].
  exists m3, (e + n + n2). split; [lia|]. split.
  { replace (e + n + n2 - (e + n)) with n2 by lia. done. }
  split; [lia|]. split; [done|]. reflexivity.
Qed.

Lemma binary_round_aux_valid (s : bool) (m e : Z) (l : location) :
  0 <= m -> e <= fexp64 (Zdigits2 m + e) ->
  valid_binary 53 1024 (binary_round_aux 53 1024 s m e l) = true.
Proof.
  intros Hm Henough.
  destruct (binary_round_aux_spec s m e l Hm Henough) as [_ Hres].
  destruct Hres as [[_ ->]|(m3 & e3 & _ & _ & _ & Hcanon & ->)]; [done|].
  destruct (Z.leb_spec e3 971) as [Hle|Hgt]; [|done].
  cbn [valid_binary]. unfold SpecFloat.bounded, canonical_mantissa.
  apply andb_true_intro. split.
  - apply Z.eqb_eq. exact Hcanon.
  - apply Z.leb_le. exact Hle.
Qed.

Lemma bounded_canonical (m : positive) (e : Z) :
  SpecFloat.bounded 53 1024 m e = true ->
  fexp64 (Zdigits2 (Zpos m) + e) = e /\ e <= 971.
Proof.
  unfold SpecFloat.bounded, canonical_mantissa. intros H.
  apply andb_prop in H as [Hc He].
  apply Z.eqb_eq in Hc. apply Z.leb_le in He. done.
Qed.

Lemma Zdigits2_mul (a b : Z) :
  0 < a -> 0 < b ->
  Zdigits2 a + Zdigits2 b - 1 <= Zdigits2 (a * b) <= Zdigits2 a + Zdigits2 b.
Proof.
  intros Ha Hb. rewrite !Zdigits2_log2 by lia.
  pose proof (Z.log2_mul_below a b Ha Hb).
  pose proof (Z.log2_mul_above a b ltac:(lia) ltac:(lia)). lia.
Qed.

Lemma mul_enough_digits (mx my : positive) (ex ey : Z) :
  SpecFloat.bounded 53 1024 mx ex = true -> SpecFloat.bounded 53 1024 my ey = true ->
  ex + ey <= fexp64 (Zdigits2 (Zpos (mx * my)) + (ex + ey)).
Proof.
  intros Hx Hy.
  apply bounded_canonical in Hx as [Hx _]. apply bounded_canonical in Hy as [Hy _].
  pose proof (Zdigits2_mul (Zpos mx) (Zpos my) ltac:(lia) ltac:(lia)) as Hd.
  pose proof (Zdigits2_pos (Zpos mx) ltac:(lia)).
  pose proof (Zdigits2_pos (Zpos my) ltac:(lia)).
  rewrite Pos2Z.inj_mul. unfold fexp, emin in *. lia.
Qed.

Lemma SFmul_valid (x y : spec_float) :
  valid_binary 53 1024 x = true -> valid_binary 53 1024 y = true ->
  valid_binary 53 1024 (SFmul 53 1024 x y) = true.
Proof.
  intros Hx Hy. destruct x as [sx|sx| |sx mx ex], y as [sy|sy| |sy my ey]; try done.
  cbn [SFmul]. apply binary_round_aux_valid; [lia|].
  by apply mul_enough_digits.
Qed.

(** Alignment to a smaller exponent multiplies the significand by a power
    of two. *)
Lemma iter_xO_pow2 (d m : positive) :
  Zpos (Pos.iter xO m d) = Zpos m * 2 ^ Zpos d.
Proof.
  induction d as [|d IH] using Pos.peano_ind.
  - cbn. lia.
  - rewrite Pos.iter_succ, Pos2Z.inj_xO, IH, Pos2Z.inj_succ, Z.pow_succ_r by lia.
    lia.
Qed.

Lemma shl_align_spec (mx : positive) (ex ex' : Z) :
  let '(m', e') := shl_align mx ex ex' in
  e' = Z.min ex ex' /\ Zpos m' = Zpos mx * 2 ^ (ex - e').
Proof.
  unfold shl_align. destruct (ex' - ex) as [|d|d] eqn:E.
  - rewrite Z.min_l by lia. rewrite Z.sub_diag. cbn. lia.
  - rewrite Z.min_l by lia. rewrite Z.sub_diag. cbn. lia.
  - rewrite Z.min_r by lia. split; [done|].
    rewrite iter_xO_pow2. f_equal. f_equal. lia.
Qed.

Lemma Zdigits2_mul_pow2 (m k : Z) :
  0 < m -> 0 <= k -> Zdigits2 (m * 2 ^ k) = Zdigits2 m + k.
Proof.
  intros Hm Hk.
  assert (0 < 2 ^ k) by (apply Z.pow_pos_nonneg; lia).
  rewrite !Zdigits2_log2 by lia. rewrite Z.log2_mul_pow2 by lia. lia.
Qed.

(** [binary_round] always hands a significand with enough digits to
    [binary_round_aux], and does not change the value. *)
Lemma binary_round_spec (s : bool) (m : positive) (e : Z) :
  exists m' e',
    binary_round 53 1024 s m e = binary_round_aux 53 1024 s (Zpos m') e' loc_Exact
    /\ e' <= e /\ Zpos m' = Zpos m * 2 ^ (e - e')
    /\ e' <= fexp64 (Zdigits2 (Zpos m') + e').
Proof.
  unfold binary_round.
  pose proof (shl_align_spec m e (fexp64 (Zpos (digits2_pos m) + e))) as Hal.
  destruct (shl_align m e _) as [m' e']. destruct Hal as [He' Hm'].
  exists m', e'. split; [done|]. split; [lia|]. split; [done|].
  rewrite Hm'. rewrite Zdigits2_mul_pow2 by lia.
  change (Zdigits2 (Z.pos m)) with (Zpos (digits2_pos m)).
  replace (Z.pos (digits2_pos m) + (e - e') + e')
    with (Zpos (digits2_pos m) + e) by lia.
  lia.
Qed.

Lemma div_core_spec (m1 e1 m2 e2 : Z) :
  0 < m1 -> 0 < m2 ->
  let '(q, e', _) := SFdiv_core_binary 53 1024 m1 e1 m2 e2 in
  0 <= q /\ e' <= fexp64 (Zdigits2 q + e')
  /\ fexp64 (Zdigits2 q + e') <= fexp64 (Zdigits2 m1 + e1 - e2).
Proof.
  intros H1 H2. unfold SFdiv_core_binary.
  set (t := Zdigits2 m1 + e1 - (Zdigits2 m2 + e2)).
  set (e' := Z.min (fexp64 t) (e1 - e2)).
  set (sh := e1 - e2 - e').
  assert (Hsh : 0 <= sh) by (unfold sh, e'; lia).
  set (m' := match sh with Z.pos _ => Z.shiftl m1 sh | 0 => m1 | Z.neg _ => 0 end).
  assert (Hm' : m' = m1 * 2 ^ sh).
  { unfold m'. destruct sh as [|p|p]; [cbn; lia| |lia].
    by rewrite Z.shiftl_mul_pow2. }
  clearbody m'.
  assert (Hpow : 0 < 2 ^ sh) by (apply Z.pow_pos_nonneg; lia).
  assert (Hq : fst (Z.div_eucl m' m2) = m' / m2) by reflexivity.
  destruct (Z.div_eucl m' m2) as [q r]. cbn [fst] in Hq. subst q.
  pose proof (Zdigits2_bounds m1 H1) as [Hlo1 Hhi1].
  pose proof (Zdigits2_bounds m2 H2) as [Hlo2 Hhi2].
  pose proof (Zdigits2_pos m1 H1) as Hd1. pose proof (Zdigits2_pos m2 H2) as Hd2.
  assert (Hq0 : 0 <= m' / m2) by (apply Z.div_pos; lia).
  split; [done|].
  assert (Hup : Zdigits2 (m' / m2) <= Zdigits2 m1 + sh).
  { destruct (Z.eq_dec (m' / m2) 0) as [->|Hne]; [cbn; lia|].
    rewrite <- Zdigits2_mul_pow2, <- Hm' by lia.
    apply Zdigits2_mono. split; [lia|].
    apply Z.div_le_upper_bound; [lia|]. nia. }
  assert (He' : e' <= fexp64 t /\ e' <= e1 - e2) by (unfold e'; lia).
  split.
  - destruct (Z_le_gt_dec (t - 53) (-1074)) as [Hsub|Hnorm].
    + pose proof (fexp64_ge_emin (Zdigits2 (m' / m2) + e')) as Hge.
      assert (Ht : fexp64 t = -1074) by (unfold fexp, emin; lia).
      lia.
    + assert (Ht : fexp64 t = t - 53) by (unfold fexp, emin; lia).
      assert (Hbig : 53 <= Zdigits2 m1 + sh - Zdigits2 m2)
        by (unfold sh, t in *; lia).
      assert (Hlow : 2 ^ (Zdigits2 m1 + sh - 1 - Zdigits2 m2) <= m' / m2).
      { apply Z.div_le_lower_bound; [lia|].
        transitivity (2 ^ Zdigits2 m2 * 2 ^ (Zdigits2 m1 + sh - 1 - Zdigits2 m2)).
        - apply Z.mul_le_mono_nonneg_r; [apply Z.pow_nonneg|]; lia.
        - rewrite <- Z.pow_add_r by lia.
          replace (Zdigits2 m2 + (Zdigits2 m1 + sh - 1 - Zdigits2 m2))
            with (Zdigits2 m1 - 1 + sh) by lia.
          rewrite Z.pow_add_r, Hm' by lia.
          apply Z.mul_le_mono_nonneg_r; lia. }
      assert (Hpos : 0 < m' / m2).
      { eapply Z.lt_le_trans; [|exact Hlow]. apply Z.pow_pos_nonneg; lia. }
      assert (Hdq : Zdigits2 m1 + sh - Zdigits2 m2 <= Zdigits2 (m' / m2)).
      { rewrite (Zdigits2_log2 (m' / m2)) by done.
        apply Z.log2_le_pow2 in Hlow; lia. }
      transitivity (fexp64 t); [lia|]. apply fexp64_mono. unfold sh, t in *. lia.
  - apply fexp64_mono. unfold sh in *. lia.
Qed.

Lemma SFdiv_valid (x y : spec_float) :
  valid_binary 53 1024 (SFdiv 53 1024 x y) = true.
Proof.
  destruct x as [sx|sx| |sx mx ex], y as [sy|sy| |sy my ey]; try done.
  cbn [SFdiv].
  pose proof (div_core_spec (Zpos mx) ex (Zpos my) ey ltac:(lia) ltac:(lia)) as Hcore.
  destruct (SFdiv_core_binary 53 1024 (Zpos mx) ex (Zpos my) ey) as [[q e'] l].
  destruct Hcore as (Hq & Henough & _).
  by apply binary_round_aux_valid.
Qed.

Lemma binary_round_aux_finite (s : bool) (m e : Z) (l : location) :
  0 <= m -> e <= fexp64 (Zdigits2 m + e) -> fexp64 (Zdigits2 m + e) <= 970 ->
  match binary_round_aux 53 1024 s m e l with
  | S754_zero _ | S754_finite _ _ _ => True
  | _ => False
  end.
Proof.
  intros Hm Henough Hsmall.
  destruct (binary_round_aux_spec s m e l Hm Henough) as [_ Hres].
  destruct Hres as [[_ ->]|(m3 & e3 & _ & _ & He3 & _ & ->)]; [done|].
  rewrite (proj2 (Z.leb_le e3 971)); [done|lia].
Qed.

Lemma bpow_pos (e : Z) : (0 < B64.bpow e)%R.
Proof. apply powerRZ_lt. lra. Qed.

Lemma bpow_add (a b : Z) : B64.bpow (a + b) = (B64.bpow a * B64.bpow b)%R.
Proof. apply powerRZ_add. lra. Qed.

Lemma IZR_pow2 (k : Z) : 0 <= k -> IZR (2 ^ k) = B64.bpow k.
Proof.
  intros Hk. unfold B64.bpow. rewrite <- (Z2Nat.id k) by done.
  rewrite <- pow_powerRZ, <- pow_IZR. done.
Qed.

Lemma bpow_ge_1 (k : Z) : 0 <= k -> (1 <= B64.bpow k)%R.
Proof.
  intros Hk. rewrite <- IZR_pow2 by done. apply IZR_le.
  pose proof (Z.pow_pos_nonneg 2 k). lia.
Qed.

Lemma bpow_le (a b : Z) : a <= b -> (B64.bpow a <= B64.bpow b)%R.
Proof.
  intros Hab. replace b with (a + (b - a)) by lia. rewrite bpow_add.
  pose proof (bpow_pos a). pose proof (bpow_ge_1 (b - a) ltac:(lia)). nra.
Qed.

Lemma bpow_pred (e : Z) : B64.bpow (e - 1) = (B64.bpow e / 2)%R.
Proof.
  replace e with ((e - 1) + 1) at 2 by lia. rewrite bpow_add.
  change (B64.bpow 1) with (powerRZ 2 1). rewrite powerRZ_1. lra.
Qed.

Lemma bpow_0 : B64.bpow 0 = 1%R.
Proof. reflexivity. Qed.

Lemma Rabs_le_inv (a b : R) : (Rabs a <= b -> - b <= a <= b)%R.
Proof.
  intros Hab. pose proof (Rle_abs a) as H1. pose proof (Rle_abs (- a)) as H2.
  rewrite Rabs_Ropp in H2. lra.
Qed.

(** *** Locations *)

Lemma inbetween_bounds (m : Z) (l : location) (x : R) :
  inbetween m l x -> (IZR m <= x < IZR m + 1)%R.
Proof. destruct l as [|[]]; cbn [inbetween]; lra. Qed.

Lemma shr_1_inbetween (m : Z) (r s : bool) (x : R) :
  0 <= m ->
  inbetween m (loc_of_shr_record (Build_shr_record m r s)) x ->
  inbetween (shr_m (shr_1 (Build_shr_record m r s)))
    (loc_of_shr_record (shr_1 (Build_shr_record m r s))) (x / 2).
Proof.
  intros Hm Hin. rewrite shr_1_spec by done. cbn [shr_m].
  pose proof (Z.div2_odd m) as Hsplit. rewrite Z.div2_div in Hsplit.
  apply (f_equal IZR) in Hsplit. rewrite plus_IZR, mult_IZR in Hsplit.
  destruct (Z.odd m), r, s;
    cbn [loc_of_shr_record inbetween orb Z.b2z] in *; lra.
Qed.

Lemma iter_shr_1_inbetween (k : nat) (mrs : shr_record) (x : R) :
  0 <= shr_m mrs ->
  inbetween (shr_m mrs) (loc_of_shr_record mrs) x ->
  0 <= shr_m (Nat.iter k shr_1 mrs)
  /\ inbetween (shr_m (Nat.iter k shr_1 mrs))
       (loc_of_shr_record (Nat.iter k shr_1 mrs))
       (x * B64.bpow (- Z.of_nat k)).
Proof.
  intros Hm Hin. induction k as [|k [IHm IHin]].
  - change (- Z.of_nat 0) with 0. rewrite bpow_0, Rmult_1_r. done.
  - rewrite Nat.iter_succ. destruct (Nat.iter k shr_1 mrs) as [m' r' s'].
    cbn [shr_m] in IHm. split.
    + rewrite shr_1_spec by done. cbn [shr_m]. apply Z.div_pos; lia.
    + replace (- Z.of_nat (S k)) with (- Z.of_nat k - 1) by lia.
      rewrite bpow_pred.
      replace (x * (B64.bpow (- Z.of_nat k) / 2))%R
        with (x * B64.bpow (- Z.of_nat k) / 2)%R by lra.
      by apply shr_1_inbetween.
Qed.

Lemma round_inbetween (q : Z) (l : location) (y : R) :
  inbetween q l y -> (Rabs (IZR (round_nearest_even q l) - y) <= / 2)%R.
Proof.
  destruct l as [|[]]; cbn [inbetween round_nearest_even]; intros Hin;
    try destruct (Z.even q); rewrite ?plus_IZR; apply Rabs_le; lra.
Qed.

Lemma rounded_significand_half (m n : Z) (l : location) (x : R) :
  0 <= m -> 0 <= n -> inbetween m l x ->
  (Rabs (IZR (rounded_significand m n l) - x * B64.bpow (- n)) <= / 2)%R.
Proof.
  intros Hm Hn Hin. unfold rounded_significand.
  destruct (iter_shr_1_inbetween (Z.to_nat n) (shr_record_of_loc m l) x)
    as [_ Hiter].
  - destruct (shr_record_of_loc_m m l) as (r & s & ->). done.
  - destruct (shr_record_of_loc_m m l) as (r & s & Hrec).
    rewrite <- (loc_of_shr_record_of_loc m l) in Hin. by rewrite Hrec in *.
  - rewrite Z2Nat.id in Hiter by done. by apply round_inbetween.
Qed.

(** *** The standard model of rounding *)

(** Read off [binary_round_aux]: a significand [m] with location [l] that
    stands for [x] at exponent [e] is rounded to a float whose value is the
    real [x * 2^e] up to the errors of [rounded_from]. *)
Lemma round_model (s : bool) (m e : Z) (l : location) (x : R) :
  0 <= m -> inbetween m l x -> e <= fexp64 (Zdigits2 m + e) ->
  rounded_from s (x * B64.bpow e) (binary_round_aux 53 1024 s m e l).
Proof.
  intros Hm Hin Henough.
  destruct (binary_round_aux_spec s m e l Hm Henough) as [Hrange Hres].
  set (D := Zdigits2 m) in *.
  set (n := fexp64 (D + e) - e) in *.
  set (m2 := rounded_significand m n l) in *.
  assert (Hn : 0 <= n) by (unfold n; lia).
  pose proof (rounded_significand_half m n l x Hm Hn Hin) as Hhalf. fold m2 in Hhalf.
  pose proof (inbetween_bounds m l x Hin) as [Hxm _].
  assert (He1 : e + n = Z.max (D + e - 53) (-1074)) by (unfold n, fexp, emin; lia).
  assert (Hm0 : m = 0 -> e + n = -1074).
  { intros ->. unfold n, D, fexp, emin in *. cbn [Zdigits2] in *. lia. }
  pose proof (bpow_pos e) as Hbe. pose proof (bpow_pos (e + n)) as Hbn.
  set (X := (x * B64.bpow e)%R).
  assert (HX : (0 <= X)%R).
  { unfold X. apply Rmult_le_pos; [|lra].
    apply Rle_trans with (IZR m); [by apply IZR_le|done]. }
  assert (HE : (Rabs (IZR m2 * B64.bpow (e + n) - X) <= B64.bpow (e + n - 1))%R).
  { replace (IZR m2 * B64.bpow (e + n) - X)%R
      with ((IZR m2 - x * B64.bpow (- n)) * B64.bpow (e + n))%R.
    2:{ unfold X. replace e with (- n + (e + n)) at 3 by lia.
        rewrite (bpow_add (- n) (e + n)). ring. }
    rewrite Rabs_mult, (Rabs_right (B64.bpow (e + n))) by lra.
    rewrite bpow_pred. nra. }
  assert (Hxlo : 0 < m -> (B64.bpow (D - 1 + e) <= X)%R).
  { intros Hpos. pose proof (Zdigits2_bounds m Hpos) as [Hlo _].
    pose proof (Zdigits2_pos m Hpos). fold D in Hlo.
    unfold X. rewrite bpow_add, <- IZR_pow2 by lia.
    apply Rmult_le_compat_r; [lra|].
    apply Rle_trans with (IZR m); [by apply IZR_le|done]. }
  assert (HH : (B64.bpow (e + n - 1) <= B64.bpow (-53) * X + B64.bpow (-1075))%R).
  { pose proof (bpow_pos (-53)). pose proof (bpow_pos (-1075)).
    destruct (Z_le_gt_dec (D + e - 53) (-1074)) as [Hsub|Hnorm].
    - replace (e + n - 1) with (-1075) by lia. nra.
    - assert (Hpos : 0 < m)
        by (destruct (Z.eq_dec m 0) as [Hzero|]; [apply Hm0 in Hzero|]; lia).
      specialize (Hxlo Hpos).
      replace (e + n - 1) with (-53 + (D - 1 + e)) by lia.
      rewrite bpow_add. nra. }
  destruct Hres as [[Hz ->]|(m3 & e3 & Hpos & Hm3 & He3 & Hcanon & ->)].
  - split; [done|]. fold X.
    assert (He1' : e + n = -1074).
    { destruct (Z.eq_dec m 0) as [Hzero|Hne]; [by apply Hm0|].
      pose proof (Zdigits2_bounds m ltac:(lia)) as [Hlo Hhi]. fold D in Hlo, Hhi.
      assert (Hsmall : m < 2 ^ n).
      { destruct (Z_lt_le_dec m (2 ^ n)) as [|Hge]; [done|].
        assert (1 <= m / 2 ^ n); [|lia].
        apply Z.div_le_lower_bound; [apply Z.pow_pos_nonneg|]; lia. }
      assert (D - 1 < n) by (apply (Z.pow_lt_mono_r_iff 2); lia).
      lia. }
    rewrite He1', Hz in HE. rewrite Rmult_0_l, Rminus_0_l, Rabs_Ropp in HE.
    rewrite Rabs_right in HE by lra. exact HE.
  - assert (Hval : (IZR (Zpos m3) * B64.bpow e3 = IZR m2 * B64.bpow (e + n))%R).
    { rewrite <- Hm3, mult_IZR, IZR_pow2 by lia.
      replace e3 with ((e3 - (e + n)) + (e + n)) at 1 by lia.
      rewrite bpow_add. ring. }
    destruct (Z.leb_spec e3 971) as [Hle|Hgt].
    + split; [done|]. split.
      * unfold SpecFloat.bounded, canonical_mantissa.
        apply andb_true_intro. split; [by apply Z.eqb_eq|by apply Z.leb_le].
      * fold X. rewrite Hval. lra.
    + split; [done|]. fold X.
      assert (Hnormal : e + n = D + e - 53) by lia.
      assert (Hmpos : 0 < m)
        by (destruct (Z.eq_dec m 0) as [Hzero|]; [apply Hm0 in Hzero|]; lia).
      specialize (Hxlo Hmpos).
      destruct (Z_le_gt_dec 972 (e + n)) as [Hbig|Hedge].
      * pose proof (bpow_le 1024 (D - 1 + e) ltac:(lia)).
        pose proof (bpow_pos 970). lra.
      * assert (He971 : e + n = 971) by lia.
        assert (He3' : e3 = 972) by lia.
        assert (Hd3 : Zdigits2 (Zpos m3) = 53) by (unfold fexp, emin in Hcanon; lia).
        pose proof (Zdigits2_bounds (Zpos m3) ltac:(lia)) as [Hlo3 _].
        rewrite Hd3 in Hlo3.
        assert (Hv : (B64.bpow 1024 <= IZR m2 * B64.bpow (e + n))%R).
        { rewrite <- Hval, He3'. replace 1024 with (52 + 972) by lia.
          rewrite bpow_add, <- IZR_pow2 by lia.
          apply Rmult_le_compat_r; [left; apply bpow_pos|]. by apply IZR_le. }
        rewrite He971 in HE, Hv. replace (971 - 1) with 970 in HE by lia.
        apply Rabs_le_inv in HE. lra.
Qed.

Lemma round_exact_rounded (s : bool) (m : positive) (e : Z) :
  e <= fexp64 (Zdigits2 (Zpos m) + e) ->
  rounded_from s (IZR (Zpos m) * B64.bpow e)
    (binary_round_aux 53 1024 s (Zpos m) e loc_Exact).
Proof. intros Henough. apply round_model; [lia|reflexivity|done]. Qed.

Lemma SFmul_model (s : bool) (mx my : positive) (ex ey : Z) :
  SpecFloat.bounded 53 1024 mx ex = true ->
  SpecFloat.bounded 53 1024 my ey = true ->
  rounded_from s ((IZR (Zpos mx) * B64.bpow ex) * (IZR (Zpos my) * B64.bpow ey))
    (SFmul 53 1024 (S754_finite s mx ex) (S754_finite false my ey)).
Proof.
  intros Hx Hy. cbn [SFmul]. rewrite xorb_false_r.
  replace (IZR (Zpos mx) * B64.bpow ex * (IZR (Zpos my) * B64.bpow ey))%R
    with (IZR (Zpos (mx * my)) * B64.bpow (ex + ey))%R
    by (rewrite Pos2Z.inj_mul, mult_IZR, bpow_add; ring).
  apply round_exact_rounded. by apply mul_enough_digits.
Qed.

Lemma SFadd_model (s : bool) (mx my : positive) (ex ey : Z) :
  rounded_from s (IZR (Zpos mx) * B64.bpow ex + IZR (Zpos my) * B64.bpow ey)
    (SFadd 53 1024 (S754_finite s mx ex) (S754_finite s my ey)).
Proof.
  cbn [SFadd].
  pose proof (shl_align_spec mx ex (Z.min ex ey)) as Hx.
  pose proof (shl_align_spec my ey (Z.min ex ey)) as Hy.
  destruct (shl_align mx ex (Z.min ex ey)) as [mx' ex'].
  destruct (shl_align my ey (Z.min ex ey)) as [my' ey'].
  destruct Hx as [Hex' Hmx'], Hy as [Hey' Hmy']. cbn [fst].
  set (ez := Z.min ex ey) in *.
  assert (Hsum : binary_normalize 53 1024
                   (cond_Zopp s (Zpos mx') + cond_Zopp s (Zpos my')) ez false
                 = binary_round 53 1024 s (mx' + my') ez) by (by destruct s).
  rewrite Hsum.
  destruct (binary_round_spec s (mx' + my') ez) as (m' & e' & -> & He' & Hm' & Henough).
  replace (IZR (Zpos mx) * B64.bpow ex + IZR (Zpos my) * B64.bpow ey)%R
    with (IZR (Zpos m') * B64.bpow e')%R; [by apply round_exact_rounded|].
  rewrite Hm', Pos2Z.inj_add, Hmx', Hmy'.
  rewrite mult_IZR, plus_IZR, !mult_IZR, !IZR_pow2 by lia.
  replace ex with ((ex - ex') + (ez - e') + e') at 2 by lia.
  replace ey with ((ey - ey') + (ez - e') + e') at 2 by lia.
  rewrite !bpow_add. ring.
Qed.

Lemma bpow_scale (k e : Z) :
  0 <= k -> B64.bpow (k + e) = (IZR (2 ^ k) * B64.bpow e)%R.
Proof. intros Hk. by rewrite bpow_add, IZR_pow2. Qed.

Lemma bpow_opp (k : Z) : B64.bpow (- k) = (/ B64.bpow k)%R.
Proof.
  pose proof (bpow_pos k). apply Rmult_eq_reg_r with (B64.bpow k); [|lra].
  rewrite <- bpow_add, Rinv_l by lra. replace (- k + k) with 0 by lia. done.
Qed.

Lemma bpow_m53 : B64.bpow (-53) = (/ 9007199254740992)%R.
Proof.
  change (-53) with (Z.opp 53). rewrite (bpow_opp 53), <- IZR_pow2 by lia. done.
Qed.

Lemma bpow_m54 : B64.bpow (-54) = (/ 18014398509481984)%R.
Proof.
  change (-54) with (Z.opp 54). rewrite (bpow_opp 54), <- IZR_pow2 by lia. done.
Qed.

Lemma bpow_m50 : B64.bpow (-50) = (/ 1125899906842624)%R.
Proof.
  change (-50) with (Z.opp 50). rewrite (bpow_opp 50), <- IZR_pow2 by lia. done.
Qed.

Lemma bpow_1023 : B64.bpow 1023 = (9007199254740992 * B64.bpow 970)%R.
Proof. exact (bpow_scale 53 970 ltac:(lia)). Qed.

Lemma bpow_m51 : B64.bpow (-51) = (4 * B64.bpow (-53))%R.
Proof. exact (bpow_scale 2 (-53) ltac:(lia)). Qed.

Lemma bpow_m1073 : B64.bpow (-1073) = (4 * B64.bpow (-1075))%R.
Proof. exact (bpow_scale 2 (-1075) ltac:(lia)). Qed.

Lemma bpow_1024 : B64.bpow 1024 = (18014398509481984 * B64.bpow 970)%R.
Proof. exact (bpow_scale 54 970 ltac:(lia)). Qed.

Lemma bpow_971 : B64.bpow 971 = (2 * B64.bpow 970)%R.
Proof. exact (bpow_scale 1 970 ltac:(lia)). Qed.

Lemma bpow_970 : B64.bpow 970 = (36028797018963968 * B64.bpow 915)%R.
Proof. exact (bpow_scale 55 915 ltac:(lia)). Qed.

(** The magnitude of a valid finite float is at most the largest float. *)
Lemma bounded_magnitude (m : positive) (e : Z) :
  SpecFloat.bounded 53 1024 m e = true ->
  (0 < IZR (Zpos m) * B64.bpow e <= 9007199254740991 * B64.bpow 971)%R.
Proof.
  intros Hb. apply bounded_canonical in Hb as [Hcanon He].
  pose proof (Zdigits2_bounds (Zpos m) ltac:(lia)) as [_ Hhi].
  assert (Hd : Zdigits2 (Zpos m) <= 53) by (unfold fexp, emin in Hcanon; lia).
  assert (Hm : Zpos m <= 9007199254740991).
  { assert (Zpos m < 2 ^ 53); [|lia].
    eapply Z.lt_le_trans; [exact Hhi|]. apply Z.pow_le_mono_r; lia. }
  pose proof (bpow_pos e). pose proof (bpow_le e 971 He).
  apply IZR_le in Hm. assert (0 < IZR (Zpos m))%R by (apply IZR_lt; lia).
  split; [nra|]. 
  apply Rmult_le_compat; lra.
Qed.

Lemma close_to_finite (s : bool) (m1 m2 : positive) (e1 e2 : Z) :
  (Rabs (IZR (Zpos m1) * B64.bpow e1 - IZR (Zpos m2) * B64.bpow e2)
   <= B64.bpow (-51) * (IZR (Zpos m2) * B64.bpow e2) + B64.bpow (-1073))%R ->
  B64.close_to (S754_finite s m1 e1) (S754_finite s m2 e2).
Proof.
  intros H. cbn [B64.close_to B64.B2R].
  assert (Hpos : (0 < IZR (Zpos m2) * B64.bpow e2)%R).
  { apply Rmult_lt_0_compat; [apply IZR_lt; lia|apply bpow_pos]. }
  apply Rabs_le_inv in H. destruct s.
  - rewrite (Rabs_left (-1 * _)) by lra. apply Rabs_le. lra.
  - rewrite (Rabs_right (1 * _)) by lra. apply Rabs_le. lra.
Qed.

Lemma close_to_zero_finite (s s' : bool) (m : positive) (e : Z) :
  (IZR (Zpos m) * B64.bpow e <= B64.bpow (-1073))%R ->
  B64.close_to (S754_zero s') (S754_finite s m e).
Proof.
  intros H. cbn [B64.close_to B64.B2R].
  assert (Hpos : (0 < IZR (Zpos m) * B64.bpow e)%R).
  { apply Rmult_lt_0_compat; [apply IZR_lt; lia|apply bpow_pos]. }
  pose proof (bpow_pos (-51)). destruct s.
  - rewrite (Rabs_left (-1 * _)) by lra. apply Rabs_le. nra.
  - rewrite (Rabs_right (1 * _)) by lra. apply Rabs_le. nra.
Qed.

Ltac bpow_numerals :=
  repeat first
    [ rewrite bpow_m51 in * | rewrite bpow_m1073 in * | rewrite bpow_m50 in *
    | rewrite bpow_m53 in * | rewrite bpow_m54 in * | rewrite bpow_1024 in *
    | rewrite bpow_1023 in * | rewrite bpow_971 in * | rewrite bpow_970 in * ].

(** The two shares of a cost add up to the cost, to floating-point
    precision. *)
Lemma lit_0_30_eq : lit_0_30 = S754_finite false 5404319552844595 (-54).
Proof. vm_compute. reflexivity. Qed.

Lemma lit_0_70_eq : lit_0_70 = S754_finite false 6305039478318694 (-53).
Proof. vm_compute. reflexivity. Qed.

Lemma split_close (cost : B64.float) :
  B64.valid cost = true ->
  B64.close_to (B64.add (B64.mul cost lit_0_30) (B64.mul cost lit_0_70)) cost.
Proof.
  unfold B64.valid, B64.add, B64.mul, B64.prec, B64.emax.
  rewrite lit_0_30_eq, lit_0_70_eq.
  set (a30 := S754_finite false 5404319552844595 (-54)).
  set (a70 := S754_finite false 6305039478318694 (-53)).
  intros Hvalid. destruct cost as [s|s| |s mc ec].
  - destruct s; cbn; rewrite Rminus_diag, Rabs_R0, Rmult_0_r, Rplus_0_l;
      left; apply bpow_pos.
  - by destruct s.
  - done.
  - cbn [valid_binary] in Hvalid.
    pose proof (SFmul_model s mc 5404319552844595 ec (-54) Hvalid eq_refl) as Hfee.
    pose proof (SFmul_model s mc 6305039478318694 ec (-53) Hvalid eq_refl) as Hearn.
    pose proof (bounded_magnitude mc ec Hvalid) as Hc.
    fold a30 in Hfee. fold a70 in Hearn.
    set (c := (IZR (Zpos mc) * B64.bpow ec)%R) in *.
    pose proof (bpow_pos (-1075)) as HL. pose proof (bpow_pos 915) as HW.
    pose proof (bpow_le (-1075) 915 ltac:(lia)) as HLW.
    destruct (SFmul 53 1024 (S754_finite s mc ec) a30) as [sf|sf| |sf mf ef];
      destruct (SFmul 53 1024 (S754_finite s mc ec) a70) as [se|se| |se me ee];
      cbn [rounded_from] in Hfee, Hearn; try done;
      try (exfalso; bpow_numerals; lra).
    + destruct Hfee as [-> Hfee], Hearn as [-> Hearn].
      replace (SFadd 53 1024 (S754_zero s) (S754_zero s)) with (S754_zero s)
        by (by destruct s).
      apply close_to_zero_finite. fold c. bpow_numerals. lra.
    + destruct Hfee as [-> Hfee], Hearn as (-> & _ & Hearn).
      cbn [SFadd]. apply close_to_finite. fold c.
      apply Rabs_le_inv in Hearn. apply Rabs_le. bpow_numerals. lra.
    + destruct Hfee as (-> & _ & Hfee), Hearn as [-> Hearn].
      cbn [SFadd]. apply close_to_finite. fold c.
      apply Rabs_le_inv in Hfee. apply Rabs_le. bpow_numerals. lra.
    + destruct Hfee as (-> & _ & Hfee), Hearn as (-> & _ & Hearn).
      pose proof (SFadd_model s mf me ef ee) as Hsum.
      apply Rabs_le_inv in Hfee, Hearn.
      destruct (SFadd 53 1024 (S754_finite s mf ef) (S754_finite s me ee))
        as [ss|ss| |ss ms es]; cbn [rounded_from] in Hsum.
      * destruct Hsum as [_ Hsum]. apply close_to_zero_finite. fold c.
        bpow_numerals. lra.
      * exfalso. bpow_numerals. lra.
      * done.
      * destruct Hsum as (-> & _ & Hsum). apply close_to_finite. fold c.
        apply Rabs_le_inv in Hsum. apply Rabs_le. bpow_numerals. lra.
Qed.

(** ** Quotients of integers and products of floats *)

Lemma mul_valid (x y : B64.float) :
  B64.valid x = true -> B64.valid y = true -> B64.valid (B64.mul x y) = true.
Proof. apply SFmul_valid. Qed.

Lemma nearest_quot_valid (n d : Z) : B64.valid (B64.nearest_quot n d) = true.
Proof. apply SFdiv_valid. Qed.

Lemma Zdigits2_lt_pow2 (p : positive) (k : Z) :
  Zpos p < 2 ^ k -> Zdigits2 (Zpos p) <= k.
Proof.
  intros Hp. rewrite Zdigits2_log2 by lia.
  pose proof (proj1 (Z.log2_lt_pow2 (Zpos p) k ltac:(lia)) Hp). lia.
Qed.

Lemma nearest_quot_finite (n d : Z) :
  d <> 0 -> Z.abs n < 2 ^ 1023 ->
  B64.is_finite (B64.nearest_quot n d) = true.
Proof.
  intros Hd Hn. unfold B64.nearest_quot, B64.div, B64.prec, B64.emax.
  assert (Hfin : forall s s' (p q : positive),
    Zpos p < 2 ^ 1023 ->
    B64.is_finite (SFdiv 53 1024 (S754_finite s p 0) (S754_finite s' q 0)) = true).
  { intros s s' p q Hp. cbn [SFdiv].
    pose proof (div_core_spec (Zpos p) 0 (Zpos q) 0 ltac:(lia) ltac:(lia)) as Hcore.
    destruct (SFdiv_core_binary 53 1024 (Zpos p) 0 (Zpos q) 0) as [[m e] l].
    destruct Hcore as (Hm & Henough & Hup).
    pose proof (Zdigits2_lt_pow2 p 1023 Hp) as Hdig.
    assert (Hsmall : fexp64 (Zdigits2 m + e) <= 970).
    { etransitivity; [exact Hup|]. unfold fexp, emin. lia. }
    pose proof (binary_round_aux_finite (xorb s s') m e l Hm Henough Hsmall) as Hres.
    by destruct (binary_round_aux 53 1024 (xorb s s') m e l). }
  destruct n as [|p|p], d as [|q|q]; try done; apply Hfin; lia.
Qed.

Lemma int_truediv_Return (a b : Z) :
  b <> 0 -> Z.abs a < 2 ^ 1023 ->
  int_truediv a b = Return (B64.nearest_quot a b).
Proof.
  intros Hb Ha. unfold int_truediv. rewrite decide_False by done.
  by rewrite nearest_quot_finite.
Qed.

(** *** Division *)

Lemma new_location_inbetween (d r q : Z) :
  0 < d -> 0 <= r < d ->
  inbetween q (new_location d r) (IZR q + IZR r / IZR d).
Proof.
  intros Hd Hr.
  assert (HD : (0 < IZR d)%R) by (apply IZR_lt; lia).
  set (t := (IZR r / IZR d)%R).
  assert (Ht : (t * IZR d = IZR r)%R) by (unfold t; field; lra).
  assert (Hcmp : forall c, (2 * r ?= d) = c ->
                 inbetween q (if r =? 0 then loc_Exact else loc_Inexact c)
                   (IZR q + t)).
  { intros c Hc. destruct (Z.eqb_spec r 0) as [->|Hne].
    - cbn [inbetween]. unfold t. rewrite Rdiv_0_l. lra.
    - assert (Hrpos : (0 < IZR r)%R) by (apply IZR_lt; lia).
      destruct (Z.compare_spec (2 * r) d) as [Heq|Hlt|Hgt]; subst c;
        cbn [inbetween].
      + apply (f_equal IZR) in Heq. rewrite mult_IZR in Heq. nra.
      + apply IZR_lt in Hlt. rewrite mult_IZR in Hlt. nra.
      + apply IZR_lt in Hgt. rewrite mult_IZR in Hgt.
        assert (IZR r < IZR d)%R by (apply IZR_lt; lia). nra. }
  unfold new_location. destruct (Z.even d) eqn:Heven.
  - unfold new_location_even. by apply Hcmp.
  - unfold new_location_odd.
    assert (Hodd : 2 * r <> d).
    { intros <-. by rewrite Z.even_mul in Heven. }
    destruct (Z.compare_spec (2 * r + 1) d) as [Heq|Hlt|Hgt];
      apply Hcmp; apply Z.compare_lt_iff || apply Z.compare_gt_iff; lia.
Qed.

Lemma div_core_inbetween (m1 e1 m2 e2 : Z) :
  0 < m1 -> 0 < m2 ->
  let '(q, e', l) := SFdiv_core_binary 53 1024 m1 e1 m2 e2 in
  inbetween q l
    (IZR m1 * B64.bpow e1 / (IZR m2 * B64.bpow e2) * B64.bpow (- e')).
Proof.
  intros H1 H2. unfold SFdiv_core_binary.
  set (e' := Z.min (fexp64 (Zdigits2 m1 + e1 - (Zdigits2 m2 + e2))) (e1 - e2)).
  set (sh := e1 - e2 - e').
  assert (Hsh : 0 <= sh) by (unfold sh, e'; lia).
  set (m' := match sh with Z.pos _ => Z.shiftl m1 sh | 0 => m1 | Z.neg _ => 0 end).
  assert (Hm' : m' = m1 * 2 ^ sh).
  { unfold m'. destruct sh as [|p|p]; [cbn; lia| |lia].
    by rewrite Z.shiftl_mul_pow2. }
  clearbody m'.
  pose proof (Z_div_mod m' m2 ltac:(lia)) as Hdm.
  destruct (Z.div_eucl m' m2) as [q r]. destruct Hdm as [Hdm Hr].
  replace (IZR m1 * B64.bpow e1 / (IZR m2 * B64.bpow e2) * B64.bpow (- e'))%R
    with (IZR q + IZR r / IZR m2)%R; [by apply new_location_inbetween|].
  assert (HD : (0 < IZR m2)%R) by (apply IZR_lt; lia).
  pose proof (bpow_pos e2). pose proof (bpow_pos e').
  assert (Hm1 : (IZR m1 * B64.bpow sh = IZR m2 * IZR q + IZR r)%R).
  { rewrite <- IZR_pow2, <- mult_IZR, <- Hm', Hdm, plus_IZR, mult_IZR by done.
    reflexivity. }
  replace e1 with (sh + e2 + e') by (unfold sh; lia).
  rewrite bpow_opp, !bpow_add. field_simplify; [|lra|lra].
  rewrite Hm1. field. lra.
Qed.

Example nearest_quot_third :
  B64.nearest_quot 1 3 = S754_finite false 6004799503160661 (-54).
Proof. vm_compute. reflexivity. Qed.

Example nearest_quot_ties_to_even :
  B64.nearest_quot (2 ^ 53 + 1) 1 = S754_finite false 4503599627370496 1
  /\ B64.nearest_quot (2 ^ 53 + 3) 1 = S754_finite false 4503599627370498 1.
Proof. vm_compute. split; reflexivity. Qed.

(** The quotient of two positive integers is rounded once. *)
Lemma nearest_quot_rounded (a b : positive) :
  rounded_from false (IZR (Zpos a) / IZR (Zpos b))
    (B64.nearest_quot (Zpos a) (Zpos b)).
Proof.
  unfold B64.nearest_quot, B64.div, B64.prec, B64.emax.
  cbn [B64.of_int_raw SFdiv xorb].
  pose proof (div_core_spec (Zpos a) 0 (Zpos b) 0 ltac:(lia) ltac:(lia)) as Hcore.
  pose proof (div_core_inbetween (Zpos a) 0 (Zpos b) 0 ltac:(lia) ltac:(lia)) as Hin.
  destruct (SFdiv_core_binary 53 1024 (Zpos a) 0 (Zpos b) 0) as [[q e'] l].
  destruct Hcore as (Hq & Henough & _).
  pose proof (round_model false q e' l _ Hq Hin Henough) as Hround.
  replace (IZR (Zpos a) / IZR (Zpos b))%R
    with (IZR (Z.pos a) * B64.bpow 0 / (IZR (Z.pos b) * B64.bpow 0)
          * B64.bpow (- e') * B64.bpow e')%R; [done|].
  assert (HD : (0 < IZR (Zpos b))%R) by (apply IZR_lt; lia).
  pose proof (bpow_pos e'). rewrite bpow_opp, bpow_0. field. lra.
Qed.

(** *** Accuracy of the cost of an ai session *)

Lemma lit_5_0_eq : lit_5_0 = S754_finite false 5629499534213120 (-50).
Proof. vm_compute. reflexivity. Qed.

Lemma bpow_m1075_small : (B64.bpow (-1075) <= / 1180591620717411303424)%R.
Proof.
  pose proof (bpow_le (-1075) (-70) ltac:(lia)) as Hle.
  change (-70) with (Z.opp 70) in Hle.
  rewrite (bpow_opp 70), <- (IZR_pow2 70) in Hle by lia. exact Hle.
Qed.

(** For a positive duration the float cost [5.0 * (d / 60)] of an ai session
    is the rational [5 d / 60] up to a relative error of [2^-51]. *)
Lemma ai_cost_accuracy (d : positive) :
  Zpos d < 2 ^ 1023 ->
  (Rabs (B64.B2R (B64.mul lit_5_0 (B64.nearest_quot (Zpos d) 60))
         - 5 * IZR (Zpos d) / 60)
   <= B64.bpow (-51) * (5 * IZR (Zpos d) / 60))%R.
Proof.
  intros Hd. pose proof (nearest_quot_rounded d 60) as Hhours.
  assert (Hd1 : (1 <= IZR (Zpos d))%R) by (apply IZR_le; lia).
  assert (Hd2 : (IZR (Zpos d) <= B64.bpow 1023)%R).
  { rewrite <- IZR_pow2 by lia. apply IZR_le. lia. }
  pose proof (bpow_pos (-1075)) as HL. pose proof bpow_m1075_small as HLs.
  pose proof (bpow_pos 970) as HU.
  set (D := IZR (Zpos d)) in *.
  rewrite lit_5_0_eq. unfold B64.mul, B64.prec, B64.emax.
  destruct (B64.nearest_quot (Zpos d) 60) as [sh|sh| |sh mh eh];
    cbn [rounded_from] in Hhours; try done;
    try (exfalso; bpow_numerals; lra).
  destruct Hhours as (-> & Hbounded & Hhours). apply Rabs_le_inv in Hhours.
  pose proof (SFmul_model false 5629499534213120 mh (-50) eh eq_refl Hbounded)
    as Hcost.
  set (h := (IZR (Zpos mh) * B64.bpow eh)%R) in *.
  destruct (SFmul 53 1024 (S754_finite false 5629499534213120 (-50))
              (S754_finite false mh eh)) as [sc|sc| |sc mc ec];
    cbn [rounded_from] in Hcost; try done;
    try (exfalso; bpow_numerals; lra).
  destruct Hcost as (-> & _ & Hcost). apply Rabs_le_inv in Hcost.
  cbn [B64.B2R]. apply Rabs_le.
  bpow_numerals. lra.
Qed.

(** The real value of a float with a negative exponent. *)
Lemma B2R_fraction (s : bool) (m : positive) (k : Z) :
  0 <= k ->
  B64.B2R (S754_finite s m (- k))
  = ((if s then -1 else 1) * (IZR (Zpos m) / IZR (2 ^ k)))%R.
Proof.
  intros Hk. cbn [B64.B2R]. rewrite bpow_opp, IZR_pow2 by done. reflexivity.
Qed.

End B64Facts.

(** ** Lookups in a collection *)

Section FindOne.
Context {A : Type} (P : A -> Prop) `{!forall x, Decision (P x)}.

Lemma find_one_None (c : list A) :
  find_one P c = None <-> forall x, x ∈ c -> ~ P x.
Proof.
  unfold find_one. rewrite head_None. split.
  - intros Hnil x Hx HP. eapply filter_nil_not_elem_of; eauto.
  - intros Hall. destruct (filter P c) as [|y l] eqn:E; [done|].
    assert (Hy : y ∈ filter P c) by (rewrite E; left).
    apply list_elem_of_filter in Hy as [HP Hy]. by destruct (Hall y Hy).
Qed.

Lemma find_one_Some (c : list A) (x : A) :
  find_one P c = Some x -> x ∈ c /\ P x.
Proof.
  unfold find_one. intros Hhd. apply head_Some_elem_of in Hhd.
  apply list_elem_of_filter in Hhd. tauto.
Qed.

Lemma find_one_is_Some (c : list A) (x : A) :
  x ∈ c -> P x -> exists y, find_one P c = Some y /\ y ∈ c /\ P y.
Proof.
  intros Hx HP. destruct (find_one P c) as [y|] eqn:E.
  - exists y. split; [done|]. by apply find_one_Some.
  - pose proof (proj1 (find_one_None c) E) as Hall. by destruct (Hall x Hx).
Qed.

End FindOne.

(** ** Running a handler *)

Ltac run_handler :=
  unfold bind, ret, raise, lift_outcome, datetime_now, read, uuid4,
    insert_user, insert_therapist, insert_session, insert_payment,
    insert_chat; cbn beta iota.

Lemma truthy_Some_nonempty (tid : string) : tid <> "" -> truthy (Some tid) = true.
Proof. intros Hne. unfold truthy. by rewrite decide_False. Qed.

(** ** Session creation: rejected requests *)

Lemma session_cost_fault session_data w e :
  creation_fault session_data w e ->
  forall w1, therapists w1 = therapists w ->
  session_cost session_data w1 = (Raise e, w1).
Proof.
  intros [Hty Hid | tid Hty Hid Hne Hnone | Hai Hth] w1 Hsame; unfold session_cost.
  - rewrite decide_False by (rewrite Hty; discriminate).
    rewrite decide_True by done. by rewrite Hid.
  - rewrite decide_False by (rewrite Hty; discriminate).
    rewrite decide_True by done. run_handler.
    assert (Hfind : find_one (fun t => Some (th_id t) = sc_therapist_id session_data)
                      (therapists w1) = None).
    { apply find_one_None. intros t Ht. rewrite Hid. intros [= Heq].
      rewrite Hsame in Ht. by apply (Hnone t Ht). }
    assert (Htruthy : truthy (sc_therapist_id session_data) = true)
      by (rewrite Hid; by apply truthy_Some_nonempty).
    rewrite Htruthy. cbn. by rewrite Hfind.
  - by rewrite !decide_False by done.
Qed.

(** C3. A therapist request without a therapist id raises HTTP 400, a
    therapist id that resolves to no profile raises HTTP 404, and a session
    type other than "ai" and "therapist" raises HTTP 400; in each case the
    collections of the store, sessions and payments among them, are left as
    they were. *)
Theorem create_session_rejects uuid_pool session_data current_user w e :
  creation_fault session_data w e ->
  exists w', create_session uuid_pool session_data current_user w = (Raise e, w')
             /\ same_store w w'.
Proof.
  intros Hfault. unfold create_session. run_handler.
  rewrite (session_cost_fault _ _ _ Hfault) by reflexivity.
  eexists. split; [reflexivity|]. by repeat split.
Qed.

(** Whatever the exception, a failing creation writes nothing. *)
Lemma create_session_Raise_same_store uuid_pool session_data current_user w e w' :
  create_session uuid_pool session_data current_user w = (Raise e, w') ->
  same_store w w'.
Proof.
  unfold create_session. run_handler.
  destruct (session_cost session_data _) as [[cost|e'] w1] eqn:Hcost.
  - assert (w1 = {| users := users w; therapists := therapists w;
                    sessions := sessions w; payments := payments w;
                    chat_history := chat_history w; clock := clock w;
                    uuid_drawn := S (uuid_drawn w) |}) as ->.
    { revert Hcost. unfold session_cost. run_handler.
      repeat (case_decide || case_match); cbn; by intros [= _ <-]. }
    cbn. destruct (bson_int (sc_duration_minutes session_data)); [done|].
    intros [= _ <-]. by repeat split.
  - intros [= _ <-]. revert Hcost. unfold session_cost. run_handler.
    repeat (case_decide || case_match); cbn; try (intros [= <-]);
      subst; by repeat split.
Qed.

(** ** The ai chat: denied lookups *)

Lemma ai_chat_denied uuid_pool llm_send_message chat_message current_user w :
  chat_denied (cm_session_id chat_message) current_user w ->
  ai_chat uuid_pool llm_send_message chat_message current_user w
  = (Raise (HTTPException 404 "AI session not found"), w).
Proof.
  intros Hdenied. unfold ai_chat. run_handler.
  assert (Hfind :
    find_one (fun s => se_id s = cm_session_id chat_message
                       /\ se_user_id s = ur_id current_user
                       /\ se_session_type s = "ai") (sessions w) = None).
  { apply find_one_None. intros s Hs (Hid & Hown & Hty).
    destruct Hdenied as [Hnone | s0 _ _ Hforeign | s0 _ _ _ Hkind].
    - by apply (Hnone s Hs).
    - by apply (Hforeign s Hs Hid).
    - by apply (Hkind s Hs Hid Hown). }
  by rewrite Hfind.
Qed.

(** C5. A chat message for a session id that does not exist, for one that
    belongs to another user, and for one of the caller that is not an ai
    session all get the same answer, HTTP 404 with the detail "AI session
    not found", and leave the world as it was: two denied calls cannot be
    told apart by their responses. *)
Theorem ai_chat_denials_indistinguishable uuid_pool llm_send_message
    msg1 caller1 w1 msg2 caller2 w2 :
  chat_denied (cm_session_id msg1) caller1 w1 ->
  chat_denied (cm_session_id msg2) caller2 w2 ->
  ai_chat uuid_pool llm_send_message msg1 caller1 w1
  = (Raise (HTTPException 404 "AI session not found"), w1)
  /\ ai_chat uuid_pool llm_send_message msg2 caller2 w2
     = (Raise (HTTPException 404 "AI session not found"), w2)
  /\ fst (ai_chat uuid_pool llm_send_message msg1 caller1 w1)
     = fst (ai_chat uuid_pool llm_send_message msg2 caller2 w2).
Proof.
  intros H1 H2.
  rewrite (ai_chat_denied _ _ _ _ _ H1), (ai_chat_denied _ _ _ _ _ H2).
  done.
Qed.

(** ** Registration *)

(** C6. Registering with the email of an existing user record raises
    HTTP 400 "Email already registered", whatever the name, password and
    role of the request, and the world, the user collection in particular,
    is unchanged. *)
Theorem register_duplicate_email hash_password uuid_pool user w u :
  u ∈ users w -> user_email u = uc_email user ->
  register hash_password uuid_pool user w
  = (Raise (HTTPException 400 "Email already registered"), w).
Proof.
  intros Hu Hemail. unfold register. run_handler.
  destruct (find_one_is_Some (fun u => user_email u = uc_email user)
              (users w) u Hu Hemail) as (y & Hfind & _).
  by rewrite Hfind.
Qed.


(** C8. The listing returns profiles of the store that have
    is_available = true, never one with is_available = false, and at most
    100 of them. *)
Theorem get_therapists_available w :
  exists l, get_therapists w = (Return l, w)
    /\ (forall t, t ∈ l -> th_is_available t = true /\ t ∈ therapists w)
    /\ (forall t, th_is_available t = false -> t ∉ l)
    /\ (length l <= 100)%nat.
Proof.
  unfold get_therapists, find_to_list. run_handler. eexists. split; [reflexivity|].
  assert (Hin : forall t,
    t ∈ take 100 (filter (fun t => th_is_available t = true) (therapists w)) ->
    th_is_available t = true /\ t ∈ therapists w).
  { intros t Ht. apply subseteq_take in Ht.
    by apply list_elem_of_filter in Ht. }
  split; [exact Hin|]. split.
  - intros t Hfalse Ht. apply Hin in Ht as [Htrue _]. congruence.
  - rewrite length_take. lia.
Qed.

(** ** The cost supplied by the client *)

(** C10. Two creation requests that differ in the supplied cost only have
    the same outcome: the same response or exception and the same world
    afterwards, hence the same stored session cost and payment amount. *)
Theorem create_session_ignores_cost uuid_pool r1 r2 current_user w :
  same_but_cost r1 r2 ->
  create_session uuid_pool r1 current_user w
  = create_session uuid_pool r2 current_user w.
Proof.
  intros (Hty & Hdate & Hdur & Htid).
  unfold create_session, session_cost. by rewrite Hty, Hdate, Hdur, Htid.
Qed.

(** ** Access tokens *)

Lemma create_access_token_run (uid : string) w :
  create_access_token {[ "sub" := ClaimStr uid ]} w
  = (Return (Signed (<["exp" := ClaimInt (clock w + 7 * 24 * 60 * 60)]>
                       {[ "sub" := ClaimStr uid ]})
               JWT_SECRET JWT_ALGORITHM), w).
Proof. reflexivity. Qed.

Lemma issued_payload_sub (uid : string) (exp : Z) :
  (<["exp" := ClaimInt exp]> ({[ "sub" := ClaimStr uid ]} : gmap string claim))
    !! "sub" = Some (ClaimStr uid).
Proof. rewrite lookup_insert_ne by done. apply lookup_singleton_eq. Qed.

Lemma issued_payload_exp (uid : string) (exp : Z) :
  (<["exp" := ClaimInt exp]> ({[ "sub" := ClaimStr uid ]} : gmap string claim))
    !! "exp" = Some (ClaimInt exp).
Proof. apply lookup_insert_eq. Qed.

Lemma jwt_decode_issued (uid : string) (exp now : Z) :
  jwt_decode (Signed (<["exp" := ClaimInt exp]> {[ "sub" := ClaimStr uid ]})
                JWT_SECRET JWT_ALGORITHM) JWT_SECRET [JWT_ALGORITHM] now
  = if decide (exp <= now) then inl ExpiredSignatureError
    else inr (<["exp" := ClaimInt exp]> {[ "sub" := ClaimStr uid ]}).
Proof.
  unfold jwt_decode.
  rewrite decide_True by (apply list_elem_of_singleton; reflexivity).
  rewrite decide_True by reflexivity. by rewrite issued_payload_exp.
Qed.

(** C4. A login with the email of a user record and a password that
    verifies returns a token; presented before seven days have passed, to a
    store that still holds the users, the token resolves to a user with the
    id of the login, and from seven days on it is answered with HTTP 401
    "Invalid token". *)
Theorem token_round_trip verify_password user_login w user :
  find_one (fun u => user_email u = ul_email user_login) (users w) = Some user ->
  verify_password (ul_password user_login) (user_password_hash user) = true ->
  exists tr,
    login verify_password user_login w = (Return tr, w)
    /\ ur_id (tk_user tr) = user_id_ user
    /\ forall w2,
         (forall u, u ∈ users w -> u ∈ users w2) ->
         (clock w2 < clock w + 7 * 24 * 60 * 60 ->
          exists u, get_current_user (tk_access_token tr) w2 = (Return u, w2)
                    /\ ur_id u = user_id_ user)
         /\ (clock w + 7 * 24 * 60 * 60 <= clock w2 ->
             get_current_user (tk_access_token tr) w2
             = (Raise (HTTPException 401 "Invalid token"), w2)).
Proof.
  intros Hfind Hpw. unfold login. run_handler. rewrite Hfind, Hpw.
  rewrite create_access_token_run. eexists. split; [reflexivity|].
  split; [reflexivity|]. cbn [tk_access_token].
  intros w2 Hkept. unfold get_current_user. run_handler.
  rewrite jwt_decode_issued. split.
  - intros Hfresh. rewrite decide_False by lia. rewrite issued_payload_sub.
    apply find_one_Some in Hfind as [Hin _].
    destruct (find_one_is_Some
                (fun u => ClaimStr (user_id_ u) = ClaimStr (user_id_ user))
                (users w2) user (Hkept _ Hin) eq_refl) as (y & Hy & _ & [= Hid]).
    rewrite Hy. by exists (UserResponse_of_doc y).
  - intros Hstale. by rewrite decide_True by lia.
Qed.

(** ** Session creation: accepted requests *)

Lemma session_cost_pure session_data w o w' :
  session_cost session_data w = (o, w') -> w' = w.
Proof.
  unfold session_cost. run_handler.
  repeat (case_decide || case_match); cbn; by intros [= _ <-].
Qed.

Lemma bson_int_range (z : Z) : bson_int z = true <-> - 2 ^ 63 <= z < 2 ^ 63.
Proof. unfold bson_int. rewrite andb_true_iff, Z.leb_le, Z.ltb_lt. done. Qed.

Lemma bson_int_out_of_range (z : Z) :
  bson_int z = false <-> ~ - 2 ^ 63 <= z < 2 ^ 63.
Proof. rewrite <- bson_int_range. by destruct (bson_int z). Qed.

Lemma bson_int_small (z : Z) : - 2 ^ 63 <= z < 2 ^ 63 -> Z.abs z < 2 ^ 1023.
Proof.
  intros Hz. assert (2 ^ 63 < 2 ^ 1023) by (apply Z.pow_lt_mono_r; lia). lia.
Qed.

Lemma create_session_Return uuid_pool session_data current_user w cost :
  (forall w1, therapists w1 = therapists w ->
              session_cost session_data w1 = (Return cost, w1)) ->
  - 2 ^ 63 <= sc_duration_minutes session_data < 2 ^ 63 ->
  exists s p w',
    create_session uuid_pool session_data current_user w = (Return s, w')
    /\ created session_data current_user cost w s p w'
    /\ pay_platform_fee p
       = (if bool_decide (sc_session_type session_data = "therapist")
          then Some (B64.mul cost lit_0_30) else None)
    /\ pay_therapist_earnings p
       = (if bool_decide (sc_session_type session_data = "therapist")
          then Some (B64.mul cost lit_0_70) else None).
Proof.
  intros Hcost Hrange. apply bson_int_range in Hrange.
  unfold create_session. run_handler.
  rewrite Hcost by reflexivity. cbn. rewrite Hrange.
  do 3 eexists. split; [reflexivity|]. unfold created. cbn.
  by repeat split.
Qed.

(** A request whose cost is computed, for a duration that is no 8-byte
    integer, fails at the insertion of the session. *)
Lemma create_session_beyond_bson uuid_pool session_data current_user w cost :
  (forall w1, therapists w1 = therapists w ->
              session_cost session_data w1 = (Return cost, w1)) ->
  ~ - 2 ^ 63 <= sc_duration_minutes session_data < 2 ^ 63 ->
  exists w',
    create_session uuid_pool session_data current_user w
    = (Raise (OverflowError "MongoDB can only handle up to 8-byte ints"), w')
    /\ same_store w w'.
Proof.
  intros Hcost Hrange. apply bson_int_out_of_range in Hrange.
  unfold create_session. run_handler.
  rewrite Hcost by reflexivity. cbn. rewrite Hrange.
  eexists. split; [reflexivity|]. by repeat split.
Qed.

Lemma session_cost_ai session_data w hours :
  sc_session_type session_data = "ai" ->
  int_truediv (sc_duration_minutes session_data) 60 = Return hours ->
  session_cost session_data w = (Return (B64.mul lit_5_0 hours), w).
Proof.
  intros Hty Hdiv. unfold session_cost. rewrite decide_True by done.
  run_handler. by rewrite Hdiv.
Qed.

Lemma session_cost_therapist session_data w tid therapist hours :
  sc_session_type session_data = "therapist" ->
  sc_therapist_id session_data = Some tid -> tid <> "" ->
  find_one (fun t => th_id t = tid) (therapists w) = Some therapist ->
  int_truediv (sc_duration_minutes session_data) 60 = Return hours ->
  session_cost session_data w
  = (Return (B64.mul (th_hourly_rate therapist) hours), w).
Proof.
  intros Hty Hid Hne Hfind Hdiv. unfold session_cost.
  rewrite decide_False by (rewrite Hty; discriminate).
  rewrite decide_True by done. run_handler.
  assert (Htruthy : truthy (sc_therapist_id session_data) = true)
    by (rewrite Hid; by apply truthy_Some_nonempty).
  rewrite Htruthy. cbn.
  assert (Hfind' :
    find_one (fun t => Some (th_id t) = sc_therapist_id session_data) (therapists w)
    = Some therapist).
  { revert Hfind. unfold find_one. rewrite Hid.
    rewrite (list_filter_iff (fun t => Some (th_id t) = Some tid)
               (fun t => th_id t = tid)); [done|].
    intros t. split; [by intros [= ->] | by intros ->]. }
  by rewrite Hfind', Hdiv.
Qed.

(** ** Durations are not validated *)

(** C9, as stated, fails: a request for minus thirty minutes is accepted
    and stored. *)
Lemma negative_duration_accepted : ~ stored_durations_positive.
Proof.
  intros Hpos.
  pose proof (Hpos demo_pool (demo_request "ai" (-30) None lit_5_0) alice demo_world)
    as Hrun.
  vm_compute in Hrun. specialize (Hrun _ _ eq_refl). destruct Hrun as [Hlt _].
  discriminate Hlt.
Qed.

(** C9, amended. Session creation does not look at the sign of the
    duration: an accepted request is stored with its duration unchanged,
    and an ai request for no minutes or for a negative number of minutes,
    down to the least 8-byte integer, is accepted and stored as it is. *)
Theorem create_session_keeps_duration uuid_pool session_data current_user w :
  (forall s w',
     create_session uuid_pool session_data current_user w = (Return s, w') ->
     se_duration_minutes s = sc_duration_minutes session_data
     /\ exists p cost, created session_data current_user cost w s p w')
  /\ (sc_session_type session_data = "ai" ->
      - 2 ^ 63 <= sc_duration_minutes session_data <= 0 ->
      exists s p w',
        create_session uuid_pool session_data current_user w = (Return s, w')
        /\ se_duration_minutes s = sc_duration_minutes session_data
        /\ created session_data current_user
             (B64.mul lit_5_0 (B64.nearest_quot (sc_duration_minutes session_data) 60))
             w s p w').
Proof.
  split.
  - intros s w'. unfold create_session. run_handler.
    destruct (session_cost session_data _) as [[cost|e] w1] eqn:Hcost; [|done].
    apply session_cost_pure in Hcost as Hw1. subst w1. cbn.
    destruct (bson_int (sc_duration_minutes session_data)); [|done].
    intros [= <- <-]. split; [reflexivity|]. do 2 eexists. unfold created. cbn.
    by repeat split.
  - intros Hty Hrange.
    assert (Hbson : - 2 ^ 63 <= sc_duration_minutes session_data < 2 ^ 63) by lia.
    set (hours := B64.nearest_quot (sc_duration_minutes session_data) 60).
    destruct (create_session_Return uuid_pool session_data current_user w
                (B64.mul lit_5_0 hours)) as (s & p & w' & Hrun & Hcreated & _);
      [|done|].
    { intros w1 _. apply session_cost_ai; [done|].
      apply B64Facts.int_truediv_Return; [done|]. by apply bson_int_small. }
    exists s, p, w'. split; [done|]. split; [|done].
    by destruct Hcreated as (_ & _ & _ & _ & _ & _ & _ & _ & _ & Hd & _).
Qed.

Lemma create_session_keeps_duration_witness :
  exists s p w',
    create_session demo_pool (demo_request "ai" (-30) None lit_5_0) alice demo_world
    = (Return s, w')
    /\ se_duration_minutes s = -30
    /\ created (demo_request "ai" (-30) None lit_5_0) alice
         (B64.mul lit_5_0 (B64.nearest_quot (-30) 60)) demo_world s p w'.
Proof.
  apply (proj2 (create_session_keeps_duration demo_pool
                  (demo_request "ai" (-30) None lit_5_0) alice demo_world)).
  - reflexivity.
  - cbn [sc_duration_minutes demo_request]. lia.
Defined.

(** ** The cost of a session *)

Lemma create_session_Raise uuid_pool session_data current_user w e :
  (forall w1, therapists w1 = therapists w ->
              session_cost session_data w1 = (Raise e, w1)) ->
  exists w', create_session uuid_pool session_data current_user w = (Raise e, w')
             /\ same_store w w'.
Proof.
  intros Hcost. unfold create_session. run_handler.
  rewrite Hcost by reflexivity. eexists. split; [reflexivity|]. by repeat split.
Qed.

Lemma session_cost_ai_Raise session_data w e :
  sc_session_type session_data = "ai" ->
  int_truediv (sc_duration_minutes session_data) 60 = Raise e ->
  session_cost session_data w = (Raise e, w).
Proof.
  intros Hty Hdiv. unfold session_cost. rewrite decide_True by done.
  run_handler. by rewrite Hdiv.
Qed.

Lemma cost_30_minutes :
  B64.mul lit_5_0 (B64.nearest_quot 30 60) = S754_finite false 5629499534213120 (-51).
Proof. vm_compute. reflexivity. Qed.

Lemma cost_120_minutes :
  B64.mul lit_5_0 (B64.nearest_quot 120 60) = S754_finite false 5629499534213120 (-49).
Proof. vm_compute. reflexivity. Qed.

(** C1, as stated, fails: an ai request for 2^63 minutes is given a cost
    but is not stored, the insertion of the session being refused. *)
Lemma ai_duration_beyond_bson_refused : ~ ai_cost_stored_for_every_duration.
Proof.
  intros Hall.
  destruct (Hall demo_pool (demo_request "ai" (2 ^ 63) None lit_5_0) alice
              demo_world eq_refl) as (s & p & w' & Hrun & _).
  vm_compute in Hrun. discriminate Hrun.
Qed.

Lemma duration_overflow_cases (minutes : Z) :
  ~ - 2 ^ 63 <= minutes < 2 ^ 63 ->
  match int_truediv minutes 60 with
  | Return hours =>
      hours = B64.nearest_quot minutes 60
      /\ duration_overflow minutes
         = OverflowError "MongoDB can only handle up to 8-byte ints"
  | Raise e => duration_overflow minutes = e
  end.
Proof.
  intros _. unfold int_truediv, duration_overflow.
  rewrite decide_False by done.
  by destruct (B64.is_finite (B64.nearest_quot minutes 60)).
Qed.

(** C1, amended. For an ai request whose duration is an 8-byte integer
    the cost is 5.0 times the float quotient of the duration by 60: the
    request is accepted with this cost, which is the cost of the stored
    session and the amount of the stored payment.  For any other duration
    the request ends with an OverflowError, of the division or of the
    insertion of the session, and neither a session nor a payment is
    stored.  Thirty minutes cost exactly 2.5 and two hours exactly 10. *)
Theorem ai_session_cost uuid_pool session_data current_user w :
  sc_session_type session_data = "ai" ->
  (- 2 ^ 63 <= sc_duration_minutes session_data < 2 ^ 63 ->
   exists s p w',
     create_session uuid_pool session_data current_user w = (Return s, w')
     /\ created session_data current_user
          (B64.mul lit_5_0
             (B64.nearest_quot (sc_duration_minutes session_data) 60))
          w s p w')
  /\ (~ - 2 ^ 63 <= sc_duration_minutes session_data < 2 ^ 63 ->
      exists w',
        create_session uuid_pool session_data current_user w
        = (Raise (duration_overflow (sc_duration_minutes session_data)), w')
        /\ same_store w w')
  /\ B64.B2R (B64.mul lit_5_0 (B64.nearest_quot 30 60)) = 2.5%R
  /\ B64.mul lit_5_0 (B64.nearest_quot 30 60) = B64.literal 25 1
  /\ B64.B2R (B64.mul lit_5_0 (B64.nearest_quot 120 60)) = 10%R
  /\ B64.mul lit_5_0 (B64.nearest_quot 120 60) = B64.literal 100 1.
Proof.
  intros Hty. split; [|split; [|split; [|split; [|split]]]].
  - intros Hrange.
    destruct (create_session_Return uuid_pool session_data current_user w
                (B64.mul lit_5_0
                   (B64.nearest_quot (sc_duration_minutes session_data) 60)))
      as (s & p & w' & Hrun & Hcreated & _); [|done|].
    { intros w1 _. apply session_cost_ai; [done|].
      apply B64Facts.int_truediv_Return; [done|]. by apply bson_int_small. }
    by exists s, p, w'.
  - intros Hrange.
    pose proof (duration_overflow_cases _ Hrange) as Hcases.
    destruct (int_truediv (sc_duration_minutes session_data) 60) as [hours|e]
      eqn:Hdiv.
    + destruct Hcases as [-> ->].
      apply (create_session_beyond_bson _ _ _ _
               (B64.mul lit_5_0
                  (B64.nearest_quot (sc_duration_minutes session_data) 60)));
        [|done].
      intros w1 _. by apply session_cost_ai.
    + rewrite Hcases. apply create_session_Raise. intros w1 _.
      by apply session_cost_ai_Raise.
  - rewrite cost_30_minutes. change (-51) with (Z.opp 51).
    rewrite B64Facts.B2R_fraction by lia.
    change (2 ^ 51) with 2251799813685248. lra.
  - rewrite cost_30_minutes. vm_compute. reflexivity.
  - rewrite cost_120_minutes. change (-49) with (Z.opp 49).
    rewrite B64Facts.B2R_fraction by lia.
    change (2 ^ 49) with 562949953421312. lra.
  - rewrite cost_120_minutes. vm_compute. reflexivity.
Qed.

Lemma ai_session_cost_witness :
  exists s p w',
    create_session demo_pool (demo_request "ai" 30 None lit_5_0) alice demo_world
    = (Return s, w')
    /\ created (demo_request "ai" 30 None lit_5_0) alice
         (B64.mul lit_5_0 (B64.nearest_quot 30 60)) demo_world s p w'.
Proof.
  apply (proj1 (ai_session_cost demo_pool (demo_request "ai" 30 None lit_5_0)
                  alice demo_world eq_refl)).
  cbn [sc_duration_minutes demo_request]. lia.
Defined.

(** ** The split of a therapist payment *)

Lemma session_cost_therapist_Raise session_data w tid therapist e :
  sc_session_type session_data = "therapist" ->
  sc_therapist_id session_data = Some tid -> tid <> "" ->
  find_one (fun t => th_id t = tid) (therapists w) = Some therapist ->
  int_truediv (sc_duration_minutes session_data) 60 = Raise e ->
  session_cost session_data w = (Raise e, w).
Proof.
  intros Hty Hid Hne Hfind Hdiv. unfold session_cost.
  rewrite decide_False by (rewrite Hty; discriminate).
  rewrite decide_True by done. run_handler.
  assert (Htruthy : truthy (sc_therapist_id session_data) = true)
    by (rewrite Hid; by apply truthy_Some_nonempty).
  rewrite Htruthy. cbn.
  assert (Hfind' :
    find_one (fun t => Some (th_id t) = sc_therapist_id session_data) (therapists w)
    = Some therapist).
  { revert Hfind. unfold find_one. rewrite Hid.
    rewrite (list_filter_iff (fun t => Some (th_id t) = Some tid)
               (fun t => th_id t = tid)); [done|].
    intros t. split; [by intros [= ->] | by intros ->]. }
  by rewrite Hfind', Hdiv.
Qed.

Lemma cost_80_by_90_minutes :
  B64.mul (B64.of_int 80) (B64.nearest_quot 90 60)
  = S754_finite false 8444249301319680 (-46).
Proof. vm_compute. reflexivity. Qed.

Lemma fee_of_120 :
  B64.mul (S754_finite false 8444249301319680 (-46)) lit_0_30
  = S754_finite false 5066549580791808 (-47).
Proof. vm_compute. reflexivity. Qed.

Lemma earnings_of_120 :
  B64.mul (S754_finite false 8444249301319680 (-46)) lit_0_70
  = S754_finite false 5910974510923776 (-46).
Proof. vm_compute. reflexivity. Qed.

(** C2. For a therapist request whose therapist resolves, with an hourly
    rate r that is a binary64 number, every accepted creation has the cost
    r times the float quotient of the duration by 60, in the stored session
    and as the amount of the stored payment, which carries cost x 0.30 as
    platform fee and cost x 0.70 as therapist earnings.  The request is
    accepted exactly when the duration is an 8-byte integer; otherwise it
    ends with an OverflowError and nothing is stored.  Fee plus earnings
    equals the cost to floating-point precision.  For r = 80 and 90
    minutes the cost is 120, the fee 36 and the earnings 84, and fee plus
    earnings is the cost exactly. *)
Theorem therapist_session_split uuid_pool session_data current_user w tid therapist :
  sc_session_type session_data = "therapist" ->
  sc_therapist_id session_data = Some tid -> tid <> "" ->
  find_one (fun t => th_id t = tid) (therapists w) = Some therapist ->
  B64.valid (th_hourly_rate therapist) = true ->
  (let cost :=
     B64.mul (th_hourly_rate therapist)
       (B64.nearest_quot (sc_duration_minutes session_data) 60) in
   let platform_fee := B64.mul cost lit_0_30 in
   let therapist_earnings := B64.mul cost lit_0_70 in
   (forall s w',
      create_session uuid_pool session_data current_user w = (Return s, w') ->
      - 2 ^ 63 <= sc_duration_minutes session_data < 2 ^ 63
      /\ exists p,
           created session_data current_user cost w s p w'
           /\ pay_platform_fee p = Some platform_fee
           /\ pay_therapist_earnings p = Some therapist_earnings)
   /\ (- 2 ^ 63 <= sc_duration_minutes session_data < 2 ^ 63 ->
       exists s p w',
         create_session uuid_pool session_data current_user w = (Return s, w')
         /\ created session_data current_user cost w s p w'
         /\ pay_platform_fee p = Some platform_fee
         /\ pay_therapist_earnings p = Some therapist_earnings)
   /\ (~ - 2 ^ 63 <= sc_duration_minutes session_data < 2 ^ 63 ->
       exists w',
         create_session uuid_pool session_data current_user w
         = (Raise (duration_overflow (sc_duration_minutes session_data)), w')
         /\ same_store w w')
   /\ B64.close_to (B64.add platform_fee therapist_earnings) cost)
  /\ (let cost := B64.mul (B64.of_int 80) (B64.nearest_quot 90 60) in
      let platform_fee := B64.mul cost lit_0_30 in
      let therapist_earnings := B64.mul cost lit_0_70 in
      B64.B2R cost = 120%R /\ B64.B2R platform_fee = 36%R
      /\ B64.B2R therapist_earnings = 84%R
      /\ B64.add platform_fee therapist_earnings = cost).
Proof.
  intros Hty Hid Hne Hfind Hvalid. split.
  - cbn zeta.
    set (cost := B64.mul (th_hourly_rate therapist)
                   (B64.nearest_quot (sc_duration_minutes session_data) 60)).
    assert (Haccept :
      - 2 ^ 63 <= sc_duration_minutes session_data < 2 ^ 63 ->
      exists s p w',
        create_session uuid_pool session_data current_user w = (Return s, w')
        /\ created session_data current_user cost w s p w'
        /\ pay_platform_fee p = Some (B64.mul cost lit_0_30)
        /\ pay_therapist_earnings p = Some (B64.mul cost lit_0_70)).
    { intros Hrange.
      destruct (create_session_Return uuid_pool session_data current_user w cost)
        as (s & p & w' & Hrun & Hcreated & Hfee & Hearn); [|done|].
      { intros w1 Hsame. apply (session_cost_therapist _ _ tid); try done.
        - by rewrite Hsame.
        - apply B64Facts.int_truediv_Return; [done|]. by apply bson_int_small. }
      rewrite bool_decide_eq_true_2 in Hfee, Hearn by done.
      by exists s, p, w'. }
    assert (Hrefuse :
      ~ - 2 ^ 63 <= sc_duration_minutes session_data < 2 ^ 63 ->
      exists w',
        create_session uuid_pool session_data current_user w
        = (Raise (duration_overflow (sc_duration_minutes session_data)), w')
        /\ same_store w w').
    { intros Hrange.
      pose proof (duration_overflow_cases _ Hrange) as Hcases.
      destruct (int_truediv (sc_duration_minutes session_data) 60) as [hours|e]
        eqn:Hdiv.
      - destruct Hcases as [-> ->].
        apply (create_session_beyond_bson _ _ _ _ cost); [|done].
        intros w1 Hsame. apply (session_cost_therapist _ _ tid); try done.
        by rewrite Hsame.
      - rewrite Hcases. apply create_session_Raise. intros w1 Hsame.
        apply (session_cost_therapist_Raise _ _ tid therapist); try done.
        by rewrite Hsame. }
    split; [|split; [done|split; [done|]]].
    + intros s w' Hrun.
      destruct (decide (- 2 ^ 63 <= sc_duration_minutes session_data < 2 ^ 63))
        as [Hrange|Hrange].
      * split; [done|].
        destruct (Haccept Hrange) as (s0 & p & w0 & Hrun0 & Hrest).
        rewrite Hrun in Hrun0. injection Hrun0 as <- <-. by exists p.
      * destruct (Hrefuse Hrange) as (w0 & Hrun0 & _).
        rewrite Hrun in Hrun0. discriminate Hrun0.
    + apply B64Facts.split_close. apply B64Facts.mul_valid; [done|].
      apply B64Facts.nearest_quot_valid.
  - cbn zeta. rewrite cost_80_by_90_minutes, fee_of_120, earnings_of_120.
    change (-46) with (Z.opp 46). change (-47) with (Z.opp 47).
    rewrite !B64Facts.B2R_fraction by lia.
    change (2 ^ 46) with 70368744177664. change (2 ^ 47) with 140737488355328.
    split; [lra|]. split; [lra|]. split; [lra|]. vm_compute. reflexivity.
Qed.

Lemma therapist_session_split_witness :
  (exists s p w',
     create_session demo_pool (demo_request "therapist" 90 (Some "t-bob") lit_5_0)
       alice demo_world = (Return s, w')
     /\ created (demo_request "therapist" 90 (Some "t-bob") lit_5_0) alice
          (B64.mul (B64.of_int 80) (B64.nearest_quot 90 60)) demo_world s p w'
     /\ pay_platform_fee p
        = Some (B64.mul (B64.mul (B64.of_int 80) (B64.nearest_quot 90 60)) lit_0_30)
     /\ pay_therapist_earnings p
        = Some (B64.mul (B64.mul (B64.of_int 80) (B64.nearest_quot 90 60)) lit_0_70))
  /\ B64.close_to
       (B64.add (B64.mul (B64.mul (B64.of_int 80) (B64.nearest_quot 90 60)) lit_0_30)
                (B64.mul (B64.mul (B64.of_int 80) (B64.nearest_quot 90 60)) lit_0_70))
       (B64.mul (B64.of_int 80) (B64.nearest_quot 90 60)).
Proof.
  destruct (proj1 (therapist_session_split demo_pool
                     (demo_request "therapist" 90 (Some "t-bob") lit_5_0)
                     alice demo_world "t-bob" bob_profile
                     eq_refl eq_refl ltac:(discriminate) eq_refl eq_refl))
    as (_ & Haccept & _ & Hclose).
  split; [|exact Hclose]. apply Haccept.
  cbn [sc_duration_minutes demo_request]. lia.
Defined.

(** Bit for bit the sum of the two shares can miss the cost by one unit in
    the last place: for a rate of 80 and 50 minutes the cost is
    66.66666666666667 and the shares add up to 66.66666666666666. *)
Remark split_not_bitwise_exact :
  let cost := B64.mul (B64.of_int 80) (B64.nearest_quot 50 60) in
  cost = S754_finite false 4691249611844267 (-46)
  /\ B64.add (B64.mul cost lit_0_30) (B64.mul cost lit_0_70)
     = S754_finite false 4691249611844266 (-46).
Proof. vm_compute. split; reflexivity. Qed.

(** ** Instances on a concrete world *)

Lemma create_session_rejects_witness :
  exists w',
    create_session demo_pool (demo_request "therapist" 60 None lit_5_0)
      alice demo_world
    = (Raise (HTTPException 400 "Therapist ID required for therapist sessions"), w')
    /\ same_store demo_world w'.
Proof.
  apply create_session_rejects. apply MissingTherapistId; reflexivity.
Defined.

Lemma token_round_trip_witness :
  exists tr,
    login demo_verify
      {| ul_email := "alice@example.org"; ul_password := "correct horse" |}
      demo_world = (Return tr, demo_world)
    /\ ur_id (tk_user tr) = "u-alice"
    /\ forall w2,
         (forall u, u ∈ users demo_world -> u ∈ users w2) ->
         (clock w2 < clock demo_world + 7 * 24 * 60 * 60 ->
          exists u, get_current_user (tk_access_token tr) w2 = (Return u, w2)
                    /\ ur_id u = "u-alice")
         /\ (clock demo_world + 7 * 24 * 60 * 60 <= clock w2 ->
             get_current_user (tk_access_token tr) w2
             = (Raise (HTTPException 401 "Invalid token"), w2)).
Proof.
  apply (token_round_trip demo_verify
           {| ul_email := "alice@example.org"; ul_password := "correct horse" |}
           demo_world alice_doc).
  - reflexivity.
  - reflexivity.
Defined.

Lemma ai_chat_denials_indistinguishable_witness :
  ai_chat demo_pool demo_llm
    {| cm_session_id := "s-none"; cm_message := "hello" |} alice demo_world
  = (Raise (HTTPException 404 "AI session not found"), demo_world)
  /\ ai_chat demo_pool demo_llm
       {| cm_session_id := "s-bob"; cm_message := "hello" |} alice demo_world
     = (Raise (HTTPException 404 "AI session not found"), demo_world)
  /\ fst (ai_chat demo_pool demo_llm
            {| cm_session_id := "s-none"; cm_message := "hello" |} alice demo_world)
     = fst (ai_chat demo_pool demo_llm
              {| cm_session_id := "s-bob"; cm_message := "hello" |} alice demo_world).
Proof.
  apply ai_chat_denials_indistinguishable.
  - apply NoSuchSession. intros s Hs. apply list_elem_of_singleton in Hs.
    subst s. discriminate.
  - apply (ForeignSession _ _ _ bob_session).
    + left.
    + reflexivity.
    + intros s Hs _. apply list_elem_of_singleton in Hs. subst s. discriminate.
Defined.

Lemma register_duplicate_email_witness :
  register demo_hash demo_pool
    {| uc_email := "alice@example.org"; uc_full_name := "Mallory";
       uc_role := "admin"; uc_password := "guess" |} demo_world
  = (Raise (HTTPException 400 "Email already registered"), demo_world).
Proof.
  apply (register_duplicate_email demo_hash demo_pool _ demo_world alice_doc).
  - left.
  - reflexivity.
Defined.


Lemma create_session_ignores_cost_witness :
  create_session demo_pool (demo_request "ai" 30 None (B64.of_int 0)) alice demo_world
  = create_session demo_pool (demo_request "ai" 30 None (B64.of_int 1000)) alice
      demo_world.
Proof.
  apply create_session_ignores_cost. repeat split.
Defined.

(** * Further properties of the handlers *)

(** ** Listings *)

Section FindToList.
Context {A : Type} (P : A -> Prop) `{!forall x, Decision (P x)}.

Lemma find_to_list_elem (n : nat) (c : list A) (x : A) :
  x ∈ find_to_list P n c -> x ∈ c /\ P x.
Proof.
  unfold find_to_list. intros Hx. apply subseteq_take in Hx.
  apply list_elem_of_filter in Hx. tauto.
Qed.

Lemma find_to_list_length (n : nat) (c : list A) :
  (length (find_to_list P n c) <= n)%nat.
Proof. unfold find_to_list. rewrite length_take. lia. Qed.

Lemma find_to_list_short (n : nat) (c : list A) :
  (length (find_to_list P n c) < n)%nat <-> (length (filter P c) < n)%nat.
Proof. unfold find_to_list. rewrite length_take. lia. Qed.

Lemma find_to_list_snoc (n : nat) (c : list A) (x : A) :
  find_to_list P n (c ++ [x])
  = if decide (P x /\ (length (find_to_list P n c) < n)%nat)
    then find_to_list P n c ++ [x] else find_to_list P n c.
Proof.
  unfold find_to_list. rewrite filter_app, length_take.
  destruct (decide (P x)) as [HP|HP].
  - rewrite (filter_cons_True P x []) by done. rewrite filter_nil.
    destruct (decide (length (filter P c) < n)%nat) as [Hlt|Hge].
    + rewrite decide_True by (split; [done|lia]).
      rewrite take_app_ge by lia. rewrite (take_ge (filter P c)) by lia.
      f_equal. apply take_ge. cbn. lia.
    + rewrite decide_False by lia. by rewrite take_app_le by lia.
  - rewrite (filter_cons_False P x []) by done. rewrite filter_nil, app_nil_r.
    by rewrite decide_False by tauto.
Qed.

Lemma find_one_app_Some (c c' : list A) (x : A) :
  find_one P c = Some x -> find_one P (c ++ c') = Some x.
Proof.
  unfold find_one. rewrite filter_app.
  destruct (filter P c); [done|]. done.
Qed.

Lemma find_one_snoc_None (c : list A) (x : A) :
  find_one P c = None -> P x -> find_one P (c ++ [x]) = Some x.
Proof.
  unfold find_one. rewrite filter_app. intros Hnone HP.
  apply head_None in Hnone. rewrite Hnone.
  by rewrite (filter_cons_True P x []) by done.
Qed.

End FindToList.

(** Two filters that agree along a pairing select paired documents. *)
Lemma Forall2_filter {A B} (R : A -> B -> Prop) (P : A -> Prop) (Q : B -> Prop)
    `{!forall x, Decision (P x)} `{!forall y, Decision (Q y)} (l : list A) (k : list B) :
  (forall x y, R x y -> (P x <-> Q y)) ->
  Forall2 R l k -> Forall2 R (filter P l) (filter Q k).
Proof.
  intros Hagree Hall. induction Hall as [|x y l k Hxy Hall IH]; [constructor|].
  destruct (decide (P x)) as [HP|HP].
  - rewrite filter_cons_True by done.
    rewrite filter_cons_True by (by apply (Hagree x y Hxy)).
    by constructor.
  - rewrite filter_cons_False by done.
    rewrite filter_cons_False by (by rewrite <- (Hagree x y Hxy)).
    done.
Qed.

(** ** Authentication *)

Lemma get_current_user_world credentials w o w' :
  get_current_user credentials w = (o, w') -> w' = w.
Proof.
  unfold get_current_user. run_handler.
  repeat case_match; by intros [= _ <-].
Qed.

Lemma find_one_by_id (uid : string) (c : list UserDoc) :
  find_one (fun u => ClaimStr (user_id_ u) = ClaimStr uid) c
  = find_one (fun u => user_id_ u = uid) c.
Proof.
  unfold find_one. f_equal. apply list_filter_iff.
  intros u. split; [by intros [= ->] | by intros ->].
Qed.

Lemma get_current_user_Return credentials w u w' :
  get_current_user credentials w = (Return u, w') ->
  exists payload doc,
    credentials = Signed payload JWT_SECRET JWT_ALGORITHM
    /\ payload !! "sub" = Some (ClaimStr (ur_id u))
    /\ (forall exp, payload !! "exp" = Some (ClaimInt exp) -> clock w < exp)
    /\ find_one (fun d => user_id_ d = ur_id u) (users w) = Some doc
    /\ u = UserResponse_of_doc doc.
Proof.
  unfold get_current_user. run_handler.
  destruct credentials as [payload key alg|raw]; [|done]. unfold jwt_decode.
  destruct (decide (alg ∈ [JWT_ALGORITHM])) as [Halg|]; [|done].
  apply list_elem_of_singleton in Halg. subst alg.
  destruct (decide (key = JWT_SECRET)) as [->|]; [|done].
  assert (Htail : forall user_id doc,
    payload !! "sub" = Some user_id ->
    find_one (fun d => ClaimStr (user_id_ d) = user_id) (users w) = Some doc ->
    payload !! "sub" = Some (ClaimStr (ur_id (UserResponse_of_doc doc)))
    /\ find_one (fun d => user_id_ d = ur_id (UserResponse_of_doc doc)) (users w)
       = Some doc).
  { intros user_id doc Hs Hfind. apply find_one_Some in Hfind as Hdoc.
    destruct Hdoc as [_ <-]. rewrite find_one_by_id in Hfind. done. }
  destruct (payload !! "exp") as [[s|exp]|] eqn:Hexp; [done| |].
  - destruct (decide (exp <= clock w)) as [|Hlive]; [done|].
    destruct (payload !! "sub") as [user_id|] eqn:Hs; [|done].
    destruct (find_one _ (users w)) as [doc|] eqn:Hfind; [|done].
    intros [= <- <-]. destruct (Htail _ _ eq_refl Hfind) as [H1 H2].
    exists payload, doc. split; [done|]. split; [by rewrite Hs|].
    split; [|by split]. intros exp' Hexp'. simplify_eq. lia.
  - destruct (payload !! "sub") as [user_id|] eqn:Hs; [|done].
    destruct (find_one _ (users w)) as [doc|] eqn:Hfind; [|done].
    intros [= <- <-]. destruct (Htail _ _ eq_refl Hfind) as [H1 H2].
    exists payload, doc. split; [done|]. split; [by rewrite Hs|].
    split; [|by split]. intros exp' Hexp'. simplify_eq.
Qed.

Lemma get_current_user_Raise credentials w e w' :
  get_current_user credentials w = (Raise e, w') ->
  e = HTTPException 401 "Invalid token" \/ e = HTTPException 401 "User not found".
Proof.
  unfold get_current_user. run_handler.
  repeat case_match; intros [= <- _]; tauto.
Qed.

Lemma get_current_user_token_of (uid : string) (issued : Z) w doc :
  find_one (fun u => user_id_ u = uid) (users w) = Some doc ->
  clock w < issued + 7 * 24 * 60 * 60 ->
  get_current_user (token_of uid issued) w = (Return (UserResponse_of_doc doc), w).
Proof.
  intros Hfind Hlive. unfold get_current_user, token_of. run_handler.
  rewrite jwt_decode_issued. rewrite decide_False by lia.
  rewrite issued_payload_sub. by rewrite find_one_by_id, Hfind.
Qed.

Lemma register_fresh hash_password uuid_pool user w :
  (forall u, u ∈ users w -> user_email u <> uc_email user) ->
  let user_id := uuid_pool (uuid_drawn w) in
  let user_doc :=
    {| user_id_ := user_id; user_email := uc_email user;
       user_full_name := uc_full_name user; user_role := uc_role user;
       user_password_hash := hash_password (uc_password user);
       user_created_at := clock w |} in
  register hash_password uuid_pool user w
  = (Return {| tk_access_token := token_of user_id (clock w);
               tk_token_type := "bearer";
               tk_user := UserResponse_of_doc user_doc |},
     {| users := users w ++ [user_doc]; therapists := therapists w;
        sessions := sessions w; payments := payments w;
        chat_history := chat_history w; clock := clock w;
        uuid_drawn := S (uuid_drawn w) |}).
Proof.
  intros Hfresh. unfold register. run_handler.
  assert (Hfind : find_one (fun u => user_email u = uc_email user) (users w) = None).
  { apply find_one_None. exact Hfresh. }
  rewrite Hfind. reflexivity.
Qed.

Lemma register_taken hash_password uuid_pool user w :
  (exists u, u ∈ users w /\ user_email u = uc_email user) ->
  register hash_password uuid_pool user w
  = (Raise (HTTPException 400 "Email already registered"), w).
Proof.
  intros (u & Hu & Hemail). unfold register. run_handler.
  destruct (find_one_is_Some (fun u => user_email u = uc_email user)
              (users w) u Hu Hemail) as (y & Hfind & _).
  by rewrite Hfind.
Qed.

Lemma email_taken_dec (email : string) (c : list UserDoc) :
  (exists u, u ∈ c /\ user_email u = email)
  \/ (forall u, u ∈ c -> user_email u <> email).
Proof.
  destruct (find_one (fun u => user_email u = email) c) as [u|] eqn:Hfind.
  - left. exists u. by apply find_one_Some in Hfind.
  - right. exact (proj1 (find_one_None _ _) Hfind).
Qed.

Lemma login_Return verify_password user_login w user :
  find_one (fun u => user_email u = ul_email user_login) (users w) = Some user ->
  verify_password (ul_password user_login) (user_password_hash user) = true ->
  login verify_password user_login w
  = (Return {| tk_access_token := token_of (user_id_ user) (clock w);
               tk_token_type := "bearer";
               tk_user := UserResponse_of_doc user |}, w).
Proof.
  intros Hfind Hpw. unfold login. run_handler. by rewrite Hfind, Hpw.
Qed.

Lemma login_world verify_password user_login w o w' :
  login verify_password user_login w = (o, w') -> w' = w.
Proof.
  unfold login, create_access_token. run_handler.
  repeat case_match; cbn; by intros [= _ <-].
Qed.

(** X1. Whatever the credentials, [get_current_user] leaves the world as
    it is; it returns a user only for a token signed with the secret and
    the algorithm of the server, not yet expired, whose subject is the id
    of a stored user, of which it returns the public fields; every other
    token is answered with HTTP 401, "Invalid token" or "User not found". *)
Theorem get_current_user_sound credentials w :
  match get_current_user credentials w with
  | (Return u, w') =>
      w' = w
      /\ exists payload doc,
           credentials = Signed payload JWT_SECRET JWT_ALGORITHM
           /\ payload !! "sub" = Some (ClaimStr (ur_id u))
           /\ (forall exp, payload !! "exp" = Some (ClaimInt exp) -> clock w < exp)
           /\ doc ∈ users w /\ user_id_ doc = ur_id u
           /\ u = UserResponse_of_doc doc
  | (Raise e, w') =>
      w' = w
      /\ (e = HTTPException 401 "Invalid token"
          \/ e = HTTPException 401 "User not found")
  end.
Proof.
  destruct (get_current_user credentials w) as [[u|e] w'] eqn:Hrun.
  - split; [by apply get_current_user_world in Hrun|].
    apply get_current_user_Return in Hrun
      as (payload & doc & Htok & Hsub & Hexp & Hfind & Hu).
    apply find_one_Some in Hfind as [Hin Hid].
    by exists payload, doc.
  - split; [by apply get_current_user_world in Hrun|].
    by apply get_current_user_Raise in Hrun.
Qed.

(** X2. A registration with a new email appends one user record, with the
    hash of the password and the role of the request, whatever it is, and
    returns a bearer token; when the drawn id is not the id of an earlier
    user, the token resolves in the new world to the very user of the
    response. *)
Theorem register_then_authenticate hash_password uuid_pool user w :
  (forall u, u ∈ users w -> user_email u <> uc_email user) ->
  (forall u, u ∈ users w -> user_id_ u <> uuid_pool (uuid_drawn w)) ->
  exists tr doc w',
    register hash_password uuid_pool user w = (Return tr, w')
    /\ users w' = users w ++ [doc]
    /\ user_email doc = uc_email user /\ user_role doc = uc_role user
    /\ user_password_hash doc = hash_password (uc_password user)
    /\ tk_token_type tr = "bearer"
    /\ tk_user tr = UserResponse_of_doc doc
    /\ get_current_user (tk_access_token tr) w' = (Return (tk_user tr), w').
Proof.
  intros Hemail Hid. rewrite register_fresh by done.
  do 3 eexists. split; [reflexivity|].
  cbn [users tk_token_type tk_user tk_access_token].
  repeat (split; [reflexivity|]).
  apply get_current_user_token_of; cbn [users clock]; [|lia].
  apply find_one_snoc_None; [|done].
  apply find_one_None. exact Hid.
Qed.

Lemma register_then_authenticate_witness :
  exists tr doc w',
    register demo_hash demo_pool
      {| uc_email := "carol@example.org"; uc_full_name := "Carol";
         uc_role := "admin"; uc_password := "s3cret" |} clinic_world
    = (Return tr, w')
    /\ users w' = users clinic_world ++ [doc]
    /\ user_email doc = "carol@example.org" /\ user_role doc = "admin"
    /\ user_password_hash doc = demo_hash "s3cret"
    /\ tk_token_type tr = "bearer"
    /\ tk_user tr = UserResponse_of_doc doc
    /\ get_current_user (tk_access_token tr) w' = (Return (tk_user tr), w').
Proof.
  apply (register_then_authenticate demo_hash demo_pool
           {| uc_email := "carol@example.org"; uc_full_name := "Carol";
              uc_role := "admin"; uc_password := "s3cret" |} clinic_world).
  - intros u Hu. apply list_elem_of_In in Hu.
    destruct Hu as [<-|[<-|[]]]; discriminate.
  - intros u Hu. apply list_elem_of_In in Hu.
    destruct Hu as [<-|[<-|[]]]; discriminate.
Defined.

(** X3. Registration followed by a login with the same email and password
    returns the same user and the same token, as long as the password
    context verifies a password against its own hash. *)
Theorem register_then_login hash_password verify_password uuid_pool user w :
  (forall u, u ∈ users w -> user_email u <> uc_email user) ->
  verify_password (uc_password user) (hash_password (uc_password user)) = true ->
  exists tr w',
    register hash_password uuid_pool user w = (Return tr, w')
    /\ login verify_password
         {| ul_email := uc_email user; ul_password := uc_password user |} w'
       = (Return tr, w').
Proof.
  intros Hemail Hpw. rewrite register_fresh by done.
  do 2 eexists. split; [reflexivity|].
  match goal with
  | |- login _ _ ?w' = (Return {| tk_user := UserResponse_of_doc ?d |}, _) =>
      apply (login_Return verify_password _ w' d); [|exact Hpw]
  end.
  cbn [users ul_email]. apply find_one_snoc_None; [|done]. by apply find_one_None.
Qed.

Lemma register_then_login_witness :
  exists tr w',
    register demo_hash demo_pool
      {| uc_email := "carol@example.org"; uc_full_name := "Carol";
         uc_role := "client"; uc_password := "s3cret" |} clinic_world
    = (Return tr, w')
    /\ login demo_verify
         {| ul_email := "carol@example.org"; ul_password := "s3cret" |} w'
       = (Return tr, w').
Proof.
  apply (register_then_login demo_hash demo_verify demo_pool
           {| uc_email := "carol@example.org"; uc_full_name := "Carol";
              uc_role := "client"; uc_password := "s3cret" |} clinic_world).
  - intros u Hu. apply list_elem_of_In in Hu.
    destruct Hu as [<-|[<-|[]]]; discriminate.
  - reflexivity.
Defined.

(** X4. A login is refused exactly when the email is unknown or the
    password does not verify against the first record with the email; the
    two refusals are the same HTTP 401 "Invalid credentials", and a refused
    login leaves the world as it is. *)
Theorem login_refusal verify_password user_login w :
  (login_refused verify_password user_login w ->
   login verify_password user_login w
   = (Raise (HTTPException 401 "Invalid credentials"), w))
  /\ (forall e w',
        login verify_password user_login w = (Raise e, w') ->
        e = HTTPException 401 "Invalid credentials" /\ w' = w
        /\ login_refused verify_password user_login w).
Proof.
  split.
  - intros [Hnone | user Hfind Hpw]; unfold login; run_handler.
    + pose proof (proj2 (find_one_None _ _) Hnone) as Hfind. by rewrite Hfind.
    + by rewrite Hfind, Hpw.
  - intros e w'. unfold login. run_handler.
    destruct (find_one _ (users w)) as [user|] eqn:Hfind.
    + destruct (verify_password _ _) eqn:Hpw; [done|].
      intros [= <- <-]. split; [done|]. split; [done|].
      by apply (WrongPassword _ _ _ user).
    + intros [= <- <-]. split; [done|]. split; [done|].
      apply UnknownEmail. exact (proj1 (find_one_None _ _) Hfind).
Qed.

Lemma login_refusal_witness :
  login demo_verify
    {| ul_email := "mallory@example.org"; ul_password := "guess" |} clinic_world
  = (Raise (HTTPException 401 "Invalid credentials"), clinic_world)
  /\ login demo_verify
       {| ul_email := "alice@example.org"; ul_password := "guess" |} clinic_world
     = (Raise (HTTPException 401 "Invalid credentials"), clinic_world).
Proof.
  split.
  - apply (proj1 (login_refusal demo_verify
                    {| ul_email := "mallory@example.org"; ul_password := "guess" |}
                    clinic_world)).
    apply UnknownEmail. intros u Hu. apply list_elem_of_In in Hu.
    destruct Hu as [<-|[<-|[]]]; discriminate.
  - apply (proj1 (login_refusal demo_verify
                    {| ul_email := "alice@example.org"; ul_password := "guess" |}
                    clinic_world)).
    apply (WrongPassword _ _ _ alice_doc); reflexivity.
Defined.

(** X5. The admin dependency lets a token through exactly when the user it
    resolves to has the role "admin", and answers HTTP 403 for any other
    user; the role is the one chosen at registration, so that the token of
    a registration that asked for the role "admin" passes. *)
Theorem admin_dependency_role hash_password uuid_pool user w :
  (forall u, u ∈ users w -> user_email u <> uc_email user) ->
  (forall u, u ∈ users w -> user_id_ u <> uuid_pool (uuid_drawn w)) ->
  exists tr w',
    register hash_password uuid_pool user w = (Return tr, w')
    /\ (uc_role user = "admin" ->
        admin_dependency (tk_access_token tr) w' = (Return (tk_user tr), w'))
    /\ (uc_role user <> "admin" ->
        admin_dependency (tk_access_token tr) w'
        = (Raise (HTTPException 403 "Admin access required"), w'))
    /\ (forall credentials w0 u w1,
          admin_dependency credentials w0 = (Return u, w1) ->
          ur_role u = "admin" /\ w1 = w0
          /\ get_current_user credentials w0 = (Return u, w0)).
Proof.
  intros Hemail Hid. rewrite register_fresh by done.
  do 2 eexists. split; [reflexivity|]. cbn [tk_access_token tk_user].
  match goal with |- context [users w ++ [?d]] => set (doc := d) end.
  match goal with |- context [admin_dependency _ ?w1] => set (w' := w1) end.
  assert (Hres :
    get_current_user (token_of (uuid_pool (uuid_drawn w)) (clock w)) w'
    = (Return (UserResponse_of_doc doc), w')).
  { apply (get_current_user_token_of _ _ w' doc); cbn [users clock w']; [|lia].
    apply find_one_snoc_None; [|done]. by apply find_one_None. }
  split; [|split].
  - intros Hrole. unfold admin_dependency, bind.
    rewrite Hres. unfold get_admin_user. cbn [ur_role UserResponse_of_doc doc user_role].
    by rewrite decide_False by (rewrite Hrole; intros Hne; by apply Hne).
  - intros Hrole. unfold admin_dependency, bind.
    rewrite Hres. unfold get_admin_user. cbn [ur_role UserResponse_of_doc doc user_role].
    by rewrite decide_True by done.
  - intros credentials w0 u w1. unfold admin_dependency, bind.
    destruct (get_current_user credentials w0) as [[u0|e] w2] eqn:Hrun; [|done].
    apply get_current_user_world in Hrun as Hw. subst w2.
    unfold get_admin_user.
    destruct (decide (ur_role u0 <> "admin")) as [|Hrole]; [done|].
    intros [= <- <-]. apply dec_stable in Hrole. done.
Qed.

Lemma admin_dependency_role_witness :
  exists tr w',
    register demo_hash demo_pool
      {| uc_email := "mallory@example.org"; uc_full_name := "Mallory";
         uc_role := "admin"; uc_password := "guess" |} clinic_world
    = (Return tr, w')
    /\ admin_dependency (tk_access_token tr) w' = (Return (tk_user tr), w').
Proof.
  destruct (admin_dependency_role demo_hash demo_pool
              {| uc_email := "mallory@example.org"; uc_full_name := "Mallory";
                 uc_role := "admin"; uc_password := "guess" |} clinic_world)
    as (tr & w' & Hrun & Hadmin & _).
  - intros u Hu. apply list_elem_of_In in Hu.
    destruct Hu as [<-|[<-|[]]]; discriminate.
  - intros u Hu. apply list_elem_of_In in Hu.
    destruct Hu as [<-|[<-|[]]]; discriminate.
  - exists tr, w'. split; [exact Hrun|]. apply Hadmin. reflexivity.
Defined.

(** ** What a request does to the world *)

Lemma same_store_refl w : same_store w w.
Proof. by repeat split. Qed.

Lemma register_step hash_password uuid_pool user w o w' :
  register hash_password uuid_pool user w = (o, w') -> world_step w w'.
Proof.
  destruct (email_taken_dec (uc_email user) (users w)) as [Htaken|Hfresh].
  - rewrite register_taken by done. intros [= _ <-].
    apply step_none, same_store_refl.
  - rewrite register_fresh by done. intros [= _ <-].
    eapply step_user; cbn; try reflexivity. exact Hfresh.
Qed.

Lemma login_step verify_password user_login w o w' :
  login verify_password user_login w = (o, w') -> world_step w w'.
Proof.
  intros Hrun. apply login_world in Hrun as ->. apply step_none, same_store_refl.
Qed.

Lemma register_therapist_step uuid_pool therapist_data w doc o w' :
  doc ∈ users w ->
  register_therapist uuid_pool therapist_data (UserResponse_of_doc doc) w = (o, w') ->
  world_step w w'.
Proof.
  intros Hdoc. unfold register_therapist. run_handler.
  destruct (decide (ur_role (UserResponse_of_doc doc) <> "therapist")) as [|Hrole].
  { intros [= _ <-]. apply step_none, same_store_refl. }
  apply dec_stable in Hrole.
  destruct (find_one _ (therapists w)) as [t|] eqn:Hfind.
  { intros [= _ <-]. apply step_none, same_store_refl. }
  intros [= _ <-].
  eapply (step_profile _ _ _ doc); cbn; try reflexivity; try done.
  exact (proj1 (find_one_None _ _) Hfind).
Qed.

Lemma truthy_true (o : option string) :
  truthy o = true -> exists tid, o = Some tid /\ tid <> "".
Proof.
  destruct o as [tid|]; [|done]. unfold truthy.
  destruct (decide (tid = "")); [done|]. intros _. by exists tid.
Qed.

Lemma int_truediv_Return_inv (a : Z) (hours : B64.float) :
  int_truediv a 60 = Return hours ->
  hours = B64.nearest_quot a 60 /\ B64.is_finite (B64.nearest_quot a 60) = true.
Proof.
  unfold int_truediv. rewrite decide_False by done.
  destruct (B64.is_finite (B64.nearest_quot a 60)) eqn:Hfin; [|done].
  by intros [= <-].
Qed.

Lemma find_one_therapist_id (tid : string) (c : list TherapistProfile) :
  find_one (fun t => Some (th_id t) = Some tid) c
  = find_one (fun t => th_id t = tid) c.
Proof.
  unfold find_one. f_equal. apply list_filter_iff.
  intros t. split; [by intros [= ->] | by intros ->].
Qed.


Lemma session_cost_Return_inv session_data w cost w1 :
  session_cost session_data w = (Return cost, w1) ->
  cost_by_price_list w (sc_session_type session_data)
    (sc_therapist_id session_data) (sc_duration_minutes session_data) cost.
Proof.
  unfold session_cost, cost_by_price_list. run_handler.
  destruct (decide (sc_session_type session_data = "ai")) as [Hai|Hai].
  - destruct (int_truediv _ 60) as [hours|e] eqn:Hdiv; [|done].
    apply int_truediv_Return_inv in Hdiv as [-> Hfin].
    intros [= <- _]. split; [done|]. by left.
  - destruct (decide (sc_session_type session_data = "therapist")) as [Hth|]; [|done].
    destruct (truthy (sc_therapist_id session_data)) eqn:Htruthy; [|done].
    apply truthy_true in Htruthy as (tid & Htid & Hne). cbn.
    rewrite Htid, find_one_therapist_id.
    destruct (find_one _ (therapists w)) as [t|] eqn:Hfind; [|done].
    destruct (int_truediv _ 60) as [hours|e] eqn:Hdiv; [|done].
    apply int_truediv_Return_inv in Hdiv as [-> Hfin].
    intros [= <- _]. split; [done|]. right. split; [done|]. by exists tid, t.
Qed.

Lemma create_session_Return_inv uuid_pool session_data current_user w s w' :
  create_session uuid_pool session_data current_user w = (Return s, w') ->
  exists p,
    users w' = users w /\ therapists w' = therapists w
    /\ sessions w' = sessions w ++ [s] /\ payments w' = payments w ++ [p]
    /\ chat_history w' = chat_history w
    /\ settles s p /\ priced w s
    /\ se_user_id s = ur_id current_user
    /\ se_id s = uuid_pool (uuid_drawn w)
    /\ se_session_type s = sc_session_type session_data
    /\ se_therapist_id s = sc_therapist_id session_data
    /\ se_duration_minutes s = sc_duration_minutes session_data
    /\ se_scheduled_date s = sc_scheduled_date session_data.
Proof.
  unfold create_session. run_handler.
  destruct (session_cost session_data _) as [[cost|e] w1] eqn:Hcost; [|done].
  apply session_cost_pure in Hcost as Hw1. subst w1.
  apply session_cost_Return_inv in Hcost. cbn.
  destruct (bson_int (sc_duration_minutes session_data)); [|done].
  intros [= <- <-]. eexists. cbn.
  repeat (split; [reflexivity|]).
  split; [by repeat split|]. split; [|by repeat split].
  split; [reflexivity|]. exact Hcost.
Qed.

Lemma create_session_step uuid_pool session_data w doc o w' :
  doc ∈ users w ->
  create_session uuid_pool session_data (UserResponse_of_doc doc) w = (o, w') ->
  world_step w w'.
Proof.
  intros Hdoc Hrun. destruct o as [s|e].
  - apply create_session_Return_inv in Hrun
      as (p & Hu & Ht & Hs & Hp & Hc & Hsettles & Hpriced & Hown & _).
    by apply (step_session _ _ s p doc).
  - apply step_none. by apply create_session_Raise_same_store in Hrun.
Qed.

Lemma ai_chat_Return_inv uuid_pool llm_send_message chat_message current_user
    w r w' :
  ai_chat uuid_pool llm_send_message chat_message current_user w = (Return r, w') ->
  exists s response,
    s ∈ sessions w /\ se_id s = cm_session_id chat_message
    /\ se_user_id s = ur_id current_user /\ se_session_type s = "ai"
    /\ llm_send_message (cm_session_id chat_message) (cm_message chat_message)
       = inl response
    /\ r = {| cr_response := response;
              cr_session_id := cm_session_id chat_message |}
    /\ w' = {| users := users w; therapists := therapists w;
               sessions := sessions w; payments := payments w;
               chat_history :=
                 chat_history w
                 ++ [ {| ch_id := uuid_pool (uuid_drawn w);
                         ch_session_id := cm_session_id chat_message;
                         ch_user_id := ur_id current_user;
                         ch_user_message := cm_message chat_message;
                         ch_ai_response := response;
                         ch_timestamp := clock w |} ];
               clock := clock w; uuid_drawn := S (uuid_drawn w) |}.
Proof.
  unfold ai_chat. run_handler.
  destruct (find_one _ (sessions w)) as [s|] eqn:Hfind; [|done].
  apply find_one_Some in Hfind as (Hs & Hid & Hown & Hty).
  destruct (llm_send_message _ _) as [response|e] eqn:Hllm; [|done].
  intros [= <- <-]. by exists s, response.
Qed.

Lemma ai_chat_Raise_world uuid_pool llm_send_message chat_message current_user
    w e w' :
  ai_chat uuid_pool llm_send_message chat_message current_user w = (Raise e, w') ->
  w' = w.
Proof.
  unfold ai_chat. run_handler.
  destruct (find_one _ (sessions w)) as [s|]; [|by intros [= _ <-]].
  destruct (llm_send_message _ _) as [response|e']; [done|by intros [= _ <-]].
Qed.

Lemma ai_chat_step uuid_pool llm_send_message chat_message w doc o w' :
  doc ∈ users w ->
  ai_chat uuid_pool llm_send_message chat_message (UserResponse_of_doc doc) w
  = (o, w') ->
  world_step w w'.
Proof.
  intros Hdoc Hrun. destruct o as [r|e].
  - apply ai_chat_Return_inv in Hrun
      as (s & response & Hs & Hid & Hown & Hty & _ & _ & ->).
    by eapply (step_chat _ _ _ s doc); cbn; try reflexivity.
  - apply ai_chat_Raise_world in Hrun as ->. apply step_none, same_store_refl.
Qed.

Lemma with_current_user_inv {A} credentials (h : UserResponse -> Route A)
    (st : Store) :
  (exists e, with_current_user credentials h st = (Raise e, st))
  \/ (exists doc, doc ∈ users (store_world st)
        /\ with_current_user credentials h st = h (UserResponse_of_doc doc) st).
Proof.
  unfold with_current_user, on_world.
  destruct (get_current_user credentials (store_world st)) as [[u|e] w'] eqn:Hrun.
  - apply get_current_user_world in Hrun as Hw. subst w'.
    apply get_current_user_Return in Hrun as (payload & doc & _ & _ & _ & Hfind & ->).
    apply find_one_Some in Hfind as [Hdoc _]. right. exists doc.
    split; [done|]. by destruct st.
  - apply get_current_user_world in Hrun as Hw. subst w'. left. exists e.
    by destruct st.
Qed.

Section ServeSteps.
Variable hash_password : string -> string.
Variable verify_password : string -> string -> bool.
Variable uuid_pool : nat -> string.
Variable llm_send_message : string -> string -> string + string.


Lemma respond_state {A} (body : A -> response) (r : Route A) st :
  (respond body r st).2 = (r st).2.
Proof. unfold respond. by destruct (r st) as [[a|e] st']. Qed.

Lemma on_world_state {A} (h : Handler A) st :
  store_world (on_world h st).2 = (h (store_world st)).2
  /\ therapist_availability (on_world h st).2 = therapist_availability st.
Proof. unfold on_world. by destruct (h (store_world st)). Qed.

(** What a request does to the store: the world takes one of the five
    steps while the availabilities stay, or the world stays while the
    availability of one profile is replaced or inserted. *)
Lemma serve_step (r : request) (st st' : Store) :
  (serve hash_password verify_password uuid_pool llm_send_message r st).2 = st' ->
  (world_step (store_world st) (store_world st')
   /\ therapist_availability st' = therapist_availability st)
  \/ (store_world st' = store_world st
      /\ exists t doc,
           t ∈ therapists (store_world st) /\ av_therapist_id doc = th_id t
           /\ therapist_availability st'
              = replace_one_upsert (fun d => av_therapist_id d = th_id t) doc
                  (therapist_availability st)).
Proof.
  intros <-.
  assert (Hstay : forall st' : Store, st' = st ->
    world_step (store_world st) (store_world st')
    /\ therapist_availability st' = therapist_availability st).
  { intros st' ->. split; [apply step_none, same_store_refl|done]. }
  assert (Hworld : forall {A} (h : Handler A),
    (forall o w', h (store_world st) = (o, w') -> world_step (store_world st) w') ->
    world_step (store_world st) (store_world (on_world h st).2)
    /\ therapist_availability (on_world h st).2 = therapist_availability st).
  { intros A h Hh. destruct (on_world_state h st) as [-> ->]. split; [|done].
    destruct (h (store_world st)) as [o w'] eqn:Hrun. by apply (Hh o). }
  assert (Hauth : forall {A} credentials (h : UserResponse -> Handler A),
    (forall doc o w', doc ∈ users (store_world st) ->
       h (UserResponse_of_doc doc) (store_world st) = (o, w') ->
       world_step (store_world st) w') ->
    world_step (store_world st)
      (store_world (with_current_user credentials (fun u => on_world (h u)) st).2)
    /\ therapist_availability
         (with_current_user credentials (fun u => on_world (h u)) st).2
       = therapist_availability st).
  { intros A credentials h Hh.
    destruct (with_current_user_inv credentials (fun u => on_world (h u)) st)
      as [[e ->]|(doc & Hdoc & ->)]; [by apply Hstay|].
    apply Hworld. intros o w'. by apply Hh. }
  assert (Hread : forall {A} (h : Handler A),
    (forall w, (h w).2 = w) ->
    forall o w', h (store_world st) = (o, w') -> world_step (store_world st) w').
  { intros A h Hh o w' Hrun. pose proof (Hh (store_world st)) as Hw.
    rewrite Hrun in Hw. cbn in Hw. subst w'. apply step_none, same_store_refl. }
  destruct r; cbn [serve]; rewrite respond_state.
  - left. apply Hworld. intros o w'. apply register_step.
  - left. apply Hworld. intros o w'. apply login_step.
  - left. apply Hauth. intros doc o w'. apply register_therapist_step.
  - left. apply Hworld. by apply Hread.
  - destruct (with_current_user_inv credentials (set_availability availability) st)
      as [[e ->]|(doc & Hdoc & ->)]; [left; by apply Hstay|].
    unfold set_availability.
    destruct (find_one _ (therapists (store_world st))) as [t|] eqn:Hfind;
      [|left; by apply Hstay].
    apply find_one_Some in Hfind as [Ht _]. right. cbn. split; [done|].
    exists t. eexists. split; [done|]. split; [|reflexivity]. reflexivity.
  - left. apply Hauth. intros doc o w'. apply create_session_step.
  - left. apply Hauth. intros doc o w' _. by apply Hread.
  - left. apply Hauth. intros doc o w'. apply ai_chat_step.
  - left. apply Hauth. intros doc o w' _. apply Hread. intros w.
    unfold get_chat_history. run_handler. by destruct (find_one _ (sessions w)).
  - left. apply Hauth. intros doc o w' _. by apply Hread.
  - left. apply Hworld. by apply Hread.
Qed.

(** A property of stores that every request preserves holds after every
    sequence of requests. *)
Lemma serve_all_invariant (I : Store -> Prop) :
  (forall r st,
     I st ->
     I (serve hash_password verify_password uuid_pool llm_send_message r st).2) ->
  forall rs st,
    I st ->
    I (serve_all hash_password verify_password uuid_pool llm_send_message rs st).
Proof.
  intros Hstep rs. induction rs as [|r rs IH]; intros st Hst; [done|].
  cbn. apply IH. by apply Hstep.
Qed.

End ServeSteps.

(** ** Invariants of the store *)

Lemma world_step_extends w w' : world_step w w' -> extends w w'.
Proof.
  unfold extends.
  intros [(Hu & Ht & Hs & Hp & Hc) | u Hu Ht Hs Hp Hc _
         | t u Hu Ht Hs Hp Hc _ _ _ _ _ | s p u Hu Ht Hs Hp Hc _ _ _ _
         | c s u Hu Ht Hs Hp Hc _ _ _ _ _ _];
    rewrite Hu, Ht, Hs, Hp, Hc;
    repeat split; try reflexivity; by apply prefix_app_r.
Qed.

Lemma prefix_elem_of {A} (l k : list A) (x : A) : l `prefix_of` k -> x ∈ l -> x ∈ k.
Proof. intros [k' ->] Hx. apply elem_of_app. by left. Qed.

Lemma emails_unique_step w w' : emails_unique w -> world_step w w' -> emails_unique w'.
Proof.
  unfold emails_unique.
  intros Hnodup [(Hu & _) | u Hu _ _ _ _ Hfresh
         | t u Hu _ _ _ _ _ _ _ _ _ | s p u Hu _ _ _ _ _ _ _ _
         | c s u Hu _ _ _ _ _ _ _ _ _ _]; rewrite Hu; try done.
  rewrite fmap_app. apply NoDup_app. split; [done|]. split.
  - intros email Hin Hnew. apply list_elem_of_singleton in Hnew. subst email.
    apply list_elem_of_fmap in Hin as (v & Hemail & Hv).
    by apply (Hfresh v Hv).
  - apply NoDup_singleton.
Qed.

Lemma profiles_sound_step w w' : profiles_sound w -> world_step w w' -> profiles_sound w'.
Proof.
  unfold profiles_sound. intros [Hnodup Hall] Hstep.
  pose proof (world_step_extends _ _ Hstep) as (Husers & _).
  assert (Hold : forall t, t ∈ therapists w ->
    th_is_available t = true
    /\ exists u, u ∈ users w' /\ user_id_ u = th_user_id t
                 /\ user_role u = "therapist").
  { intros t Ht. destruct (Hall t Ht) as [Havail (u & Hu & Hid & Hrole)].
    split; [done|]. exists u. split; [|done]. by apply (prefix_elem_of (users w)). }
  destruct Hstep as [(_ & Ht & _) | u _ Ht _ _ _ _
         | t u Hu Ht _ _ _ Havail Hin Hid Hrole Hnone | s p u _ Ht _ _ _ _ _ _ _
         | c s u _ Ht _ _ _ _ _ _ _ _ _]; rewrite Ht; try done.
  split.
  - rewrite fmap_app. apply NoDup_app. split; [done|]. split.
    + intros uid Hold_id Hnew. apply list_elem_of_singleton in Hnew. subst uid.
      apply list_elem_of_fmap in Hold_id as (t0 & Huid & Ht0).
      by apply (Hnone t0 Ht0).
    + apply NoDup_singleton.
  - intros t0 Ht0. apply elem_of_app in Ht0 as [Ht0|Ht0]; [by apply Hold|].
    apply list_elem_of_singleton in Ht0. subst t0. split; [done|].
    exists u. rewrite Hu. done.
Qed.

Lemma ledger_paired_step w w' : ledger_paired w -> world_step w w' -> ledger_paired w'.
Proof.
  unfold ledger_paired.
  intros Hpaired [(_ & _ & Hs & Hp & _) | u _ _ Hs Hp _ _
         | t u _ _ Hs Hp _ _ _ _ _ _ | s p u _ _ Hs Hp _ Hsettles _ _ _
         | c s u _ _ Hs Hp _ _ _ _ _ _ _]; rewrite Hs, Hp; try done.
  apply Forall2_app; [done|]. constructor; [done|constructor].
Qed.

Lemma priced_mono w w' s :
  therapists w `prefix_of` therapists w' -> priced w s -> priced w' s.
Proof.
  intros [k Hk] (Hstatus & Hfin & Hcost). split; [done|]. split; [done|].
  destruct Hcost as [Hai|(Hty & tid & t & Htid & Hne & Hfind & Hcost)]; [by left|].
  right. split; [done|]. exists tid, t. repeat split; try done.
  rewrite Hk. by apply find_one_app_Some.
Qed.

Lemma sessions_priced_step w w' :
  sessions_priced w -> world_step w w' -> sessions_priced w'.
Proof.
  unfold sessions_priced. intros Hall Hstep.
  pose proof (world_step_extends _ _ Hstep) as (_ & Hprofiles & _).
  assert (Hold : forall s, s ∈ sessions w -> priced w' s).
  { intros s Hs. apply (priced_mono w); [done|]. by apply Hall. }
  destruct Hstep as [(_ & _ & Hs & _) | u _ _ Hs _ _ _
         | t u _ _ Hs _ _ _ _ _ _ _ | s p u _ _ Hs _ _ _ Hpriced _ _
         | c s u _ _ Hs _ _ _ _ _ _ _ _]; rewrite Hs; try done.
  intros s0 Hs0. apply elem_of_app in Hs0 as [Hs0|Hs0]; [by apply Hold|].
  apply list_elem_of_singleton in Hs0. subst s0. by apply (priced_mono w).
Qed.

Lemma chat_owned_step w w' : chat_owned w -> world_step w w' -> chat_owned w'.
Proof.
  unfold chat_owned. intros Hall Hstep.
  pose proof (world_step_extends _ _ Hstep) as (_ & _ & Hsessions & _).
  assert (Hold : forall c, c ∈ chat_history w ->
    exists s, s ∈ sessions w' /\ se_id s = ch_session_id c
              /\ se_user_id s = ch_user_id c /\ se_session_type s = "ai").
  { intros c Hc. destruct (Hall c Hc) as (s & Hs & Hrest). exists s.
    split; [|done]. by apply (prefix_elem_of (sessions w)). }
  destruct Hstep as [(_ & _ & _ & _ & Hc) | u _ _ _ _ Hc _
         | t u _ _ _ _ Hc _ _ _ _ _ | s p u _ _ _ _ Hc _ _ _ _
         | c s u _ _ Hs _ Hc Hin Hid Hown Hty _ _]; rewrite Hc; try done.
  intros c0 Hc0. apply elem_of_app in Hc0 as [Hc0|Hc0]; [by apply Hold|].
  apply list_elem_of_singleton in Hc0. subst c0. exists s. rewrite Hs. done.
Qed.

Lemma owners_registered_step w w' :
  owners_registered w -> world_step w w' -> owners_registered w'.
Proof.
  unfold owners_registered. intros (Hss & Hps & Hcs) Hstep.
  pose proof (world_step_extends _ _ Hstep) as (Husers & _).
  assert (Hkeep : forall uid,
    (exists u, u ∈ users w /\ user_id_ u = uid) ->
    exists u, u ∈ users w' /\ user_id_ u = uid).
  { intros uid (u & Hu & Hid). exists u. split; [|done].
    by apply (prefix_elem_of (users w)). }
  destruct Hstep as [(_ & _ & Hs & Hp & Hc) | u _ _ Hs Hp Hc _
         | t u _ _ Hs Hp Hc _ _ _ _ _
         | s p u _ _ Hs Hp Hc (_ & Hpay & _) _ Hin Hid
         | c s u _ _ Hs Hp Hc _ _ _ _ Hin Hid]; rewrite Hs, Hp, Hc.
  1-3: by (repeat split; intros x Hx; apply Hkeep; auto).
  - split; [|split].
    + intros s0 Hs0. apply Hkeep.
      apply elem_of_app in Hs0 as [Hs0|Hs0]; [by apply Hss|].
      apply list_elem_of_singleton in Hs0. subst s0. by exists u.
    + intros p0 Hp0. apply Hkeep.
      apply elem_of_app in Hp0 as [Hp0|Hp0]; [by apply Hps|].
      apply list_elem_of_singleton in Hp0. subst p0. exists u. by rewrite Hpay.
    + intros c0 Hc0. apply Hkeep. by apply Hcs.
  - split; [|split].
    + intros s0 Hs0. apply Hkeep. by apply Hss.
    + intros p0 Hp0. apply Hkeep. by apply Hps.
    + intros c0 Hc0. apply Hkeep.
      apply elem_of_app in Hc0 as [Hc0|Hc0]; [by apply Hcs|].
      apply list_elem_of_singleton in Hc0. subst c0. by exists u.
Qed.

(** A property of worlds that the five steps preserve holds after every
    sequence of requests. *)
Lemma serve_all_world_invariant (J : World -> Prop)
    hash_password verify_password uuid_pool llm_send_message :
  (forall w w', J w -> world_step w w' -> J w') ->
  forall rs st, J (store_world st) ->
    J (store_world
         (serve_all hash_password verify_password uuid_pool llm_send_message rs st)).
Proof.
  intros Hstep. apply (serve_all_invariant _ _ _ _ (fun st => J (store_world st))).
  intros r st Hst.
  destruct (serve_step hash_password verify_password uuid_pool llm_send_message r st
              _ eq_refl)
    as [[Hw _]|[-> _]]; [by apply (Hstep (store_world st))|done].
Qed.

(** ** Replacing a document *)

Section ReplaceOne.
Context {A : Type} (P : A -> Prop) `{!forall x, Decision (P x)}.

Lemma replace_one_upsert_nil (doc : A) : replace_one_upsert P doc [] = [doc].
Proof. reflexivity. Qed.

Lemma replace_one_upsert_cons (doc x : A) (c : list A) :
  replace_one_upsert P doc (x :: c)
  = if decide (P x) then doc :: c else x :: replace_one_upsert P doc c.
Proof.
  unfold replace_one_upsert. cbn [replace_first].
  destruct (decide (P x)); [done|]. by destruct (replace_first P doc c).
Qed.

Lemma replace_one_upsert_elem (doc : A) (c : list A) (x : A) :
  x ∈ replace_one_upsert P doc c -> x = doc \/ x ∈ c.
Proof.
  induction c as [|y c IH].
  - rewrite replace_one_upsert_nil. intros Hx.
    apply list_elem_of_singleton in Hx. by left.
  - rewrite replace_one_upsert_cons. destruct (decide (P y)).
    + intros Hx. apply elem_of_cons in Hx as [->|Hx]; [by left|].
      right. by right.
    + intros Hx. apply elem_of_cons in Hx as [->|Hx]; [right; by left|].
      destruct (IH Hx) as [->|Hc]; [by left|right; by right].
Qed.

Lemma find_one_upsert (doc : A) (c : list A) :
  P doc -> find_one P (replace_one_upsert P doc c) = Some doc.
Proof.
  intros Hdoc. unfold find_one. induction c as [|y c IH].
  - rewrite replace_one_upsert_nil. by rewrite filter_cons_True.
  - rewrite replace_one_upsert_cons. destruct (decide (P y)).
    + by rewrite filter_cons_True.
    + by rewrite filter_cons_False.
Qed.

Lemma upsert_others (doc : A) (c : list A) :
  P doc ->
  filter (fun x => ~ P x) (replace_one_upsert P doc c) = filter (fun x => ~ P x) c.
Proof.
  intros Hdoc. induction c as [|y c IH].
  - rewrite replace_one_upsert_nil. by rewrite filter_cons_False by tauto.
  - rewrite replace_one_upsert_cons. destruct (decide (P y)).
    + rewrite !filter_cons_False by tauto. done.
    + rewrite !filter_cons_True by done. by rewrite IH.
Qed.

Lemma upsert_upsert (doc1 doc2 : A) (c : list A) :
  P doc1 ->
  replace_one_upsert P doc2 (replace_one_upsert P doc1 c)
  = replace_one_upsert P doc2 c.
Proof.
  intros Hdoc. induction c as [|y c IH].
  - rewrite !replace_one_upsert_nil, replace_one_upsert_cons.
    by rewrite decide_True.
  - rewrite !replace_one_upsert_cons. destruct (decide (P y)).
    + rewrite replace_one_upsert_cons. by rewrite decide_True.
    + rewrite replace_one_upsert_cons. rewrite decide_False by done.
      by rewrite IH.
Qed.

Lemma upsert_length (doc : A) (c : list A) :
  length (replace_one_upsert P doc c)
  = if decide (Exists P c) then length c else S (length c).
Proof.
  induction c as [|y c IH].
  - rewrite replace_one_upsert_nil. rewrite decide_False; [done|].
    by intros Hex%Exists_nil.
  - rewrite replace_one_upsert_cons. destruct (decide (P y)) as [Hy|Hy].
    + rewrite decide_True by (by left). done.
    + cbn [length]. rewrite IH. destruct (decide (Exists P c)) as [Hc|Hc].
      * rewrite decide_True by (by right). done.
      * rewrite decide_False; [done|]. intros Hex%Exists_cons. tauto.
Qed.

End ReplaceOne.

Lemma upsert_ids (k : string) (doc : AvailabilityDoc) (c : list AvailabilityDoc) :
  av_therapist_id doc = k ->
  av_therapist_id <$> replace_one_upsert (fun d => av_therapist_id d = k) doc c
  = if decide (k ∈ av_therapist_id <$> c) then av_therapist_id <$> c
    else (av_therapist_id <$> c) ++ [k].
Proof.
  intros Hdoc. induction c as [|y c IH].
  - rewrite replace_one_upsert_nil. cbn. rewrite decide_False; [by rewrite Hdoc|].
    apply not_elem_of_nil.
  - rewrite replace_one_upsert_cons. destruct (decide (av_therapist_id y = k)) as [Hy|Hy].
    + cbn [fmap list_fmap]. rewrite decide_True by (rewrite Hy; left).
      by rewrite Hdoc, Hy.
    + cbn [fmap list_fmap]. fold (fmap (M := list) av_therapist_id). rewrite IH.
      destruct (decide (k ∈ av_therapist_id <$> c)) as [Hc|Hc].
      * rewrite decide_True by (by right). done.
      * rewrite decide_False; [done|]. intros Hin.
        apply elem_of_cons in Hin as [Heq|Hin]; [by apply Hy|by apply Hc].
Qed.

Lemma availability_sound_serve hash_password verify_password uuid_pool
    llm_send_message (r : request) (st : Store) :
  availability_sound st ->
  availability_sound
    (serve hash_password verify_password uuid_pool llm_send_message r st).2.
Proof.
  unfold availability_sound. intros [Hnodup Hall].
  destruct (serve_step hash_password verify_password uuid_pool llm_send_message r st
              _ eq_refl)
    as [[Hstep ->]|(-> & t & doc & Ht & Hdoc & ->)].
  - split; [done|]. intros d Hd. destruct (Hall d Hd) as (t & Ht & Hid).
    exists t. split; [|done].
    apply world_step_extends in Hstep as (_ & Hprofiles & _).
    by apply (prefix_elem_of (therapists (store_world st))).
  - split.
    + rewrite upsert_ids by done.
      destruct (decide (th_id t ∈ av_therapist_id <$> therapist_availability st))
        as [Hin|Hin]; [done|].
      apply NoDup_app. split; [done|]. split; [|apply NoDup_singleton].
      intros k Hk Hnew. apply list_elem_of_singleton in Hnew. by subst k.
    + intros d Hd. apply replace_one_upsert_elem in Hd as [->|Hd]; [|by apply Hall].
      by exists t.
Qed.

(** ** Requests in flight together *)

Lemma resume_await {A B} (h : Handler A) (k : A -> coroutine B) (w : World) :
  resume_task (await h k) w
  = match h w with
    | (Return a, w') => (k a, w')
    | (Raise e, w') => (Finished (Raise e), w')
    end.
Proof. unfold await. cbn. by destruct (h w) as [[a|e] w']. Qed.

(** A handler in flight with two stretches, resumed twice in a row, is the
    two stretches run one after the other. *)
Lemma two_stretches_in_one_piece {A B} (h1 : Handler A) (h2 : A -> Handler B)
    (w : World) :
  interleave [0; 0]%nat
    [await h1 (fun a => await (h2 a) (fun b => Finished (Return b)))] w
  = ([Finished (bind h1 h2 w).1], (bind h1 h2 w).2).
Proof.
  cbn [interleave lookup list_lookup]. rewrite resume_await. unfold bind.
  destruct (h1 w) as [[a|e] w1]; cbn [insert list_insert lookup list_lookup].
  - rewrite resume_await. by destruct (h2 a w1) as [[b|e] w2].
  - done.
Qed.

Lemma register_in_pieces hash_password uuid_pool user w :
  register hash_password uuid_pool user w
  = bind (register_check user)
      (fun _ => register_store hash_password uuid_pool user) w.
Proof.
  unfold register, register_check, register_store. run_handler.
  by destruct (find_one _ (users w)).
Qed.

Lemma register_therapist_in_pieces uuid_pool therapist_data current_user w :
  register_therapist uuid_pool therapist_data current_user w
  = bind (register_therapist_check current_user)
      (fun _ => register_therapist_store uuid_pool therapist_data current_user) w.
Proof.
  unfold register_therapist, register_therapist_check, register_therapist_store.
  run_handler. destruct (decide (ur_role current_user <> "therapist")); [done|].
  by destruct (find_one _ (therapists w)).
Qed.

Lemma create_session_in_pieces uuid_pool session_data current_user w :
  create_session uuid_pool session_data current_user w
  = bind (create_session_store uuid_pool session_data current_user)
      (create_session_pay uuid_pool session_data current_user) w.
Proof.
  unfold create_session, create_session_store, create_session_pay. run_handler.
  destruct (session_cost session_data _) as [[cost|e] w1]; [|done]. cbn.
  by destruct (bson_int (sc_duration_minutes session_data)).
Qed.

Lemma register_check_fresh user w :
  (forall u, u ∈ users w -> user_email u <> uc_email user) ->
  register_check user w = (Return tt, w).
Proof.
  intros Hfresh. unfold register_check. run_handler.
  by rewrite (proj2 (find_one_None _ _) Hfresh).
Qed.

Lemma register_therapist_check_passes current_user w :
  ur_role current_user = "therapist" ->
  (forall t, t ∈ therapists w -> th_user_id t <> ur_id current_user) ->
  register_therapist_check current_user w = (Return tt, w).
Proof.
  intros Hrole Hnone. unfold register_therapist_check. run_handler.
  rewrite decide_False by (rewrite Hrole; intros Hne; by apply Hne).
  by rewrite (proj2 (find_one_None _ _) Hnone).
Qed.

Lemma register_store_run hash_password uuid_pool user w :
  let user_doc :=
    {| user_id_ := uuid_pool (uuid_drawn w); user_email := uc_email user;
       user_full_name := uc_full_name user; user_role := uc_role user;
       user_password_hash := hash_password (uc_password user);
       user_created_at := clock w |} in
  register_store hash_password uuid_pool user w
  = (Return {| tk_access_token := token_of (uuid_pool (uuid_drawn w)) (clock w);
               tk_token_type := "bearer";
               tk_user := UserResponse_of_doc user_doc |},
     {| users := users w ++ [user_doc]; therapists := therapists w;
        sessions := sessions w; payments := payments w;
        chat_history := chat_history w; clock := clock w;
        uuid_drawn := S (uuid_drawn w) |}).
Proof. reflexivity. Qed.

Lemma NoDup_twice {A} (l : list A) (x : A) : ~ NoDup (l ++ [x; x]).
Proof.
  intros Hnodup. apply NoDup_app in Hnodup as (_ & _ & Htwice).
  apply NoDup_cons in Htwice as [Hx _]. apply Hx. left.
Qed.

Lemma register_therapist_store_run uuid_pool therapist_data current_user w :
  let therapist_doc :=
    {| th_id := uuid_pool (uuid_drawn w); th_user_id := ur_id current_user;
       th_license_number := tr_license_number therapist_data;
       th_specialization := tr_specialization therapist_data;
       th_hourly_rate := tr_hourly_rate therapist_data;
       th_bio := tr_bio therapist_data;
       th_years_experience := tr_years_experience therapist_data;
       th_is_available := true; th_created_at := clock w |} in
  register_therapist_store uuid_pool therapist_data current_user w
  = (Return therapist_doc,
     {| users := users w; therapists := therapists w ++ [therapist_doc];
        sessions := sessions w; payments := payments w;
        chat_history := chat_history w; clock := clock w;
        uuid_drawn := S (uuid_drawn w) |}).
Proof. reflexivity. Qed.

Lemma create_session_store_ai uuid_pool session_data current_user w :
  sc_session_type session_data = "ai" ->
  - 2 ^ 63 <= sc_duration_minutes session_data < 2 ^ 63 ->
  let session_doc :=
    {| se_id := uuid_pool (uuid_drawn w); se_user_id := ur_id current_user;
       se_therapist_id := sc_therapist_id session_data;
       se_session_type := sc_session_type session_data;
       se_scheduled_date := sc_scheduled_date session_data;
       se_duration_minutes := sc_duration_minutes session_data;
       se_cost :=
         B64.mul lit_5_0 (B64.nearest_quot (sc_duration_minutes session_data) 60);
       se_status := "scheduled"; se_created_at := clock w |} in
  create_session_store uuid_pool session_data current_user w
  = (Return session_doc,
     {| users := users w; therapists := therapists w;
        sessions := sessions w ++ [session_doc]; payments := payments w;
        chat_history := chat_history w; clock := clock w;
        uuid_drawn := S (uuid_drawn w) |}).
Proof.
  intros Hty Hrange. cbn zeta. unfold create_session_store. run_handler.
  rewrite (session_cost_ai session_data _
             (B64.nearest_quot (sc_duration_minutes session_data) 60) Hty)
    by (apply B64Facts.int_truediv_Return; [done|by apply bson_int_small]).
  cbn. by rewrite (proj2 (bson_int_range _) Hrange).
Qed.

Lemma create_session_pay_run uuid_pool session_data current_user session_doc w :
  let payment_doc :=
    {| pay_id := uuid_pool (uuid_drawn w); pay_user_id := ur_id current_user;
       pay_session_id := se_id session_doc; pay_amount := se_cost session_doc;
       pay_payment_type := sc_session_type session_data +:+ "_session";
       pay_status := "completed"; pay_created_at := clock w;
       pay_platform_fee :=
         if bool_decide (sc_session_type session_data = "therapist")
         then Some (B64.mul (se_cost session_doc) lit_0_30) else None;
       pay_therapist_earnings :=
         if bool_decide (sc_session_type session_data = "therapist")
         then Some (B64.mul (se_cost session_doc) lit_0_70) else None |} in
  create_session_pay uuid_pool session_data current_user session_doc w
  = (Return session_doc,
     {| users := users w; therapists := therapists w;
        sessions := sessions w; payments := payments w ++ [payment_doc];
        chat_history := chat_history w; clock := clock w;
        uuid_drawn := S (uuid_drawn w) |}).
Proof. reflexivity. Qed.

(** ** The invariants, in turn and in flight *)

Lemma filter_all {A} (P : A -> Prop) `{!forall x, Decision (P x)} (l : list A) :
  (forall x, x ∈ l -> P x) -> filter P l = l.
Proof.
  induction l as [|x l IH]; intros Hall; [done|].
  rewrite filter_cons_True by (apply Hall; left).
  f_equal. apply IH. intros y Hy. apply Hall. by right.
Qed.

Ltac each_of H :=
  repeat (apply elem_of_cons in H; destruct H as [->|H]);
  try (by apply not_elem_of_nil in H).

(** X6. Served in turn, each request to its end before the next begins,
    the routes never bring two user records to share an email.  In flight
    together they do: [register] looks the email up and inserts the record
    in two awaits, its two stretches run in a row are the handler, and two
    registrations of one new email whose look-ups both come before the
    insertions are both accepted and leave two records with the email. *)
Theorem emails_unique_in_turn_only hash_password verify_password uuid_pool
    llm_send_message :
  (forall rs st,
     emails_unique (store_world st) ->
     emails_unique
       (store_world
          (serve_all hash_password verify_password uuid_pool llm_send_message
             rs st)))
  /\ (forall user w,
        interleave [0; 0]%nat [register_in_flight hash_password uuid_pool user] w
        = ([Finished (register hash_password uuid_pool user w).1],
           (register hash_password uuid_pool user w).2))
  /\ (forall user1 user2 w,
        uc_email user1 = uc_email user2 ->
        (forall u, u ∈ users w -> user_email u <> uc_email user1) ->
        exists response1 response2 w',
          interleave [0; 1; 0; 1]%nat
            [register_in_flight hash_password uuid_pool user1;
             register_in_flight hash_password uuid_pool user2] w
          = ([Finished (Return response1); Finished (Return response2)], w')
          /\ ~ emails_unique w').
Proof.
  split; [|split].
  - apply serve_all_world_invariant. exact emails_unique_step.
  - intros user w. rewrite register_in_pieces. apply two_stretches_in_one_piece.
  - intros user1 user2 w Hsame Hfresh1.
    assert (Hfresh2 : forall u, u ∈ users w -> user_email u <> uc_email user2)
      by (by rewrite <- Hsame).
    unfold register_in_flight.
    cbn [interleave lookup list_lookup insert list_insert].
    rewrite resume_await, (register_check_fresh user1 w Hfresh1).
    cbn [interleave lookup list_lookup insert list_insert].
    rewrite resume_await, (register_check_fresh user2 w Hfresh2).
    cbn [interleave lookup list_lookup insert list_insert].
    rewrite resume_await, register_store_run.
    cbn [interleave lookup list_lookup insert list_insert].
    rewrite resume_await, register_store_run.
    cbn [interleave lookup list_lookup insert list_insert].
    do 3 eexists. split; [reflexivity|].
    unfold emails_unique. cbn [users]. rewrite <- app_assoc, fmap_app.
    cbn [fmap list_fmap user_email app]. rewrite Hsame. apply NoDup_twice.
Qed.

Lemma emails_unique_in_turn_only_witness :
  exists response1 response2 w',
    interleave [0; 1; 0; 1]%nat
      [register_in_flight demo_hash demo_pool
         {| uc_email := "dave@example.org"; uc_full_name := "Dave";
            uc_role := "client"; uc_password := "one" |};
       register_in_flight demo_hash demo_pool
         {| uc_email := "dave@example.org"; uc_full_name := "David";
            uc_role := "client"; uc_password := "two" |}] clinic_world
    = ([Finished (Return response1); Finished (Return response2)], w')
    /\ ~ emails_unique w'.
Proof.
  apply (proj2 (proj2 (emails_unique_in_turn_only demo_hash demo_verify
                         demo_pool demo_llm))).
  - reflexivity.
  - intros u Hu. cbn in Hu. each_of Hu; discriminate.
Defined.

(** X7. Served in turn, the routes keep every therapist profile listed as
    available, owned by a user record with the role "therapist", and no
    user with two profiles.  In flight together they do not keep the last:
    [register_therapist] looks the profile up and inserts it in two awaits,
    its two stretches run in a row are the handler, and two requests of one
    therapist without a profile, with years of experience that are 8-byte
    integers, whose look-ups both come before the insertions are both
    accepted and leave the user with two profiles. *)
Theorem profiles_sound_in_turn_only hash_password verify_password uuid_pool
    llm_send_message :
  (forall rs st,
     profiles_sound (store_world st) ->
     profiles_sound
       (store_world
          (serve_all hash_password verify_password uuid_pool llm_send_message
             rs st)))
  /\ (forall therapist_data current_user w,
        interleave [0; 0]%nat
          [register_therapist_in_flight uuid_pool therapist_data current_user] w
        = ([Finished (register_therapist uuid_pool therapist_data current_user w).1],
           (register_therapist uuid_pool therapist_data current_user w).2))
  /\ (forall data1 data2 current_user w,
        ur_role current_user = "therapist" ->
        (forall t, t ∈ therapists w -> th_user_id t <> ur_id current_user) ->
        - 2 ^ 63 <= tr_years_experience data1 < 2 ^ 63 ->
        - 2 ^ 63 <= tr_years_experience data2 < 2 ^ 63 ->
        exists profile1 profile2 w',
          interleave [0; 1; 0; 1]%nat
            [register_therapist_in_flight uuid_pool data1 current_user;
             register_therapist_in_flight uuid_pool data2 current_user] w
          = ([Finished (Return profile1); Finished (Return profile2)], w')
          /\ therapists w' = therapists w ++ [profile1; profile2]
          /\ th_user_id profile1 = ur_id current_user
          /\ th_user_id profile2 = ur_id current_user
          /\ ~ profiles_sound w').
Proof.
  split; [|split].
  - apply serve_all_world_invariant. exact profiles_sound_step.
  - intros therapist_data current_user w. rewrite register_therapist_in_pieces.
    apply two_stretches_in_one_piece.
  - intros data1 data2 current_user w Hrole Hnone _ _.
    unfold register_therapist_in_flight.
    cbn [interleave lookup list_lookup insert list_insert].
    rewrite resume_await, (register_therapist_check_passes _ w Hrole Hnone).
    cbn [interleave lookup list_lookup insert list_insert].
    rewrite resume_await, (register_therapist_check_passes _ w Hrole Hnone).
    cbn [interleave lookup list_lookup insert list_insert].
    rewrite resume_await, register_therapist_store_run.
    cbn [interleave lookup list_lookup insert list_insert].
    rewrite resume_await, register_therapist_store_run.
    cbn [interleave lookup list_lookup insert list_insert].
    do 3 eexists. split; [reflexivity|]. cbn [therapists th_user_id].
    split; [by rewrite <- app_assoc|]. split; [done|]. split; [done|].
    unfold profiles_sound. cbn [therapists].
    intros [Hnodup _]. revert Hnodup. rewrite <- app_assoc, fmap_app.
    cbn [fmap list_fmap th_user_id app]. apply NoDup_twice.
Qed.

Lemma profiles_sound_in_turn_only_witness :
  exists profile1 profile2 w',
    interleave [0; 1; 0; 1]%nat
      [register_therapist_in_flight demo_pool
         {| tr_license_number := "LIC-9"; tr_specialization := "cbt";
            tr_hourly_rate := B64.of_int 60; tr_bio := "";
            tr_years_experience := 2 |}
         {| ur_id := "u-carol"; ur_email := "carol@example.org";
            ur_full_name := "Carol"; ur_role := "therapist";
            ur_created_at := 1700000000 |};
       register_therapist_in_flight demo_pool
         {| tr_license_number := "LIC-9"; tr_specialization := "cbt";
            tr_hourly_rate := B64.of_int 70; tr_bio := "";
            tr_years_experience := 2 |}
         {| ur_id := "u-carol"; ur_email := "carol@example.org";
            ur_full_name := "Carol"; ur_role := "therapist";
            ur_created_at := 1700000000 |}] clinic_world
    = ([Finished (Return profile1); Finished (Return profile2)], w')
    /\ therapists w' = therapists clinic_world ++ [profile1; profile2]
    /\ th_user_id profile1 = "u-carol" /\ th_user_id profile2 = "u-carol"
    /\ ~ profiles_sound w'.
Proof.
  apply (proj2 (proj2 (profiles_sound_in_turn_only demo_hash demo_verify
                         demo_pool demo_llm))).
  - reflexivity.
  - intros t Ht. cbn in Ht. each_of Ht. discriminate.
  - cbn [tr_years_experience]. lia.
  - cbn [tr_years_experience]. lia.
Defined.

(** X8. In a world whose profiles are all available, as the routes keep
    them, the listing of therapists is the first hundred profiles of the
    store: the filter on availability removes nothing. *)
Theorem get_therapists_lists_all w :
  profiles_sound w ->
  get_therapists w = (Return (take 100 (therapists w)), w).
Proof.
  intros [_ Hall]. unfold get_therapists, find_to_list. run_handler.
  do 3 f_equal. apply filter_all. intros t Ht. by apply Hall.
Qed.

Lemma get_therapists_lists_all_witness :
  get_therapists clinic_world = (Return [bob_profile], clinic_world).
Proof.
  apply (get_therapists_lists_all clinic_world). split.
  - apply (bool_decide_unpack _). vm_compute. exact I.
  - intros t Ht. cbn in Ht. each_of Ht. split; [reflexivity|].
    exists bob_doc. split; [|split; reflexivity]. cbn. right. left.
Defined.


(** X9. Served in turn, the routes keep sessions and payments in step, the
    n-th payment settling the n-th session.  In flight together they do
    not: [create_session] inserts the session and the payment in two
    awaits, its two stretches run in a row are the handler, and of two ai
    requests with different session ids, the second of which inserts its
    session and its payment between the two insertions of the first, each
    session has its payment but the payments are stored in the other
    order. *)
Theorem ledger_paired_in_turn_only hash_password verify_password uuid_pool
    llm_send_message :
  (forall rs st,
     ledger_paired (store_world st) ->
     ledger_paired
       (store_world
          (serve_all hash_password verify_password uuid_pool llm_send_message
             rs st)))
  /\ (forall session_data current_user w,
        interleave [0; 0]%nat
          [create_session_in_flight uuid_pool session_data current_user] w
        = ([Finished (create_session uuid_pool session_data current_user w).1],
           (create_session uuid_pool session_data current_user w).2))
  /\ (forall data1 user1 data2 user2 w,
        ledger_paired w ->
        sc_session_type data1 = "ai" -> sc_session_type data2 = "ai" ->
        - 2 ^ 63 <= sc_duration_minutes data1 < 2 ^ 63 ->
        - 2 ^ 63 <= sc_duration_minutes data2 < 2 ^ 63 ->
        uuid_pool (uuid_drawn w) <> uuid_pool (S (uuid_drawn w)) ->
        exists s1 s2 p1 p2 w',
          interleave [0; 1; 1; 0]%nat
            [create_session_in_flight uuid_pool data1 user1;
             create_session_in_flight uuid_pool data2 user2] w
          = ([Finished (Return s1); Finished (Return s2)], w')
          /\ sessions w' = sessions w ++ [s1; s2]
          /\ payments w' = payments w ++ [p2; p1]
          /\ settles s1 p1 /\ settles s2 p2
          /\ ~ ledger_paired w').
Proof.
  split; [|split].
  - apply serve_all_world_invariant. exact ledger_paired_step.
  - intros session_data current_user w. rewrite create_session_in_pieces.
    apply two_stretches_in_one_piece.
  - intros data1 user1 data2 user2 w Hpaired Hty1 Hty2 Hd1 Hd2 Hids.
    unfold create_session_in_flight.
    cbn [interleave lookup list_lookup insert list_insert].
    rewrite resume_await, create_session_store_ai by done.
    cbn [interleave lookup list_lookup insert list_insert].
    rewrite resume_await, create_session_store_ai by done.
    cbn [interleave lookup list_lookup insert list_insert].
    rewrite resume_await, create_session_pay_run.
    cbn [interleave lookup list_lookup insert list_insert].
    rewrite resume_await, create_session_pay_run.
    cbn [interleave lookup list_lookup insert list_insert].
    do 5 eexists. split; [reflexivity|].
    cbn [sessions payments uuid_drawn clock se_id se_cost].
    split; [by rewrite <- app_assoc|]. split; [by rewrite <- app_assoc|].
    split; [by repeat split|]. split; [by repeat split|].
    unfold ledger_paired. cbn [sessions payments]. rewrite <- !app_assoc.
    intros Hstep. apply Forall2_app_inv in Hstep as [_ Hlast].
    + apply Forall2_cons_1 in Hlast as [(Hid & _) _].
      cbn [pay_session_id se_id] in Hid. by apply Hids.
    + by apply Forall2_length in Hpaired.
Qed.

Lemma ledger_paired_in_turn_only_witness :
  exists s1 s2 p1 p2 w',
    interleave [0; 1; 1; 0]%nat
      [create_session_in_flight demo_pool (demo_request "ai" 30 None lit_5_0) alice;
       create_session_in_flight demo_pool (demo_request "ai" 60 None lit_5_0) bob]
      clinic_world
    = ([Finished (Return s1); Finished (Return s2)], w')
    /\ sessions w' = sessions clinic_world ++ [s1; s2]
    /\ payments w' = payments clinic_world ++ [p2; p1]
    /\ settles s1 p1 /\ settles s2 p2
    /\ ~ ledger_paired w'.
Proof.
  apply (proj2 (proj2 (ledger_paired_in_turn_only demo_hash demo_verify
                         demo_pool demo_llm))).
  - unfold ledger_paired. cbn. constructor; [|constructor]. repeat split.
  - reflexivity.
  - reflexivity.
  - cbn [sc_duration_minutes demo_request]. lia.
  - cbn [sc_duration_minutes demo_request]. lia.
  - discriminate.
Defined.

(** X10. In a world whose sessions and payments are in step, the payment
    history and the session listing of a user line up: both have the same
    length and the n-th listed payment settles the n-th listed session. *)
Theorem payment_history_matches_sessions current_user w :
  ledger_paired w ->
  exists ss ps,
    get_user_sessions current_user w = (Return ss, w)
    /\ get_payment_history current_user w = (Return ps, w)
    /\ Forall2 settles ss ps.
Proof.
  intros Hpaired. unfold get_user_sessions, get_payment_history, find_to_list.
  run_handler. do 2 eexists. split; [reflexivity|]. split; [reflexivity|].
  apply Forall2_take. apply (Forall2_filter settles); [|done].
  intros s p (_ & Huser & _). by rewrite Huser.
Qed.

Lemma payment_history_matches_sessions_witness :
  exists ss ps,
    get_user_sessions alice clinic_world = (Return ss, clinic_world)
    /\ get_payment_history alice clinic_world = (Return ps, clinic_world)
    /\ Forall2 settles ss ps.
Proof.
  apply (payment_history_matches_sessions alice clinic_world).
  unfold ledger_paired. cbn. constructor; [|constructor].
  repeat split.
Defined.

(** X11. Whatever requests are served, every stored session stays
    scheduled and costs what the price list gives its stored duration: 5.0
    an hour for an ai session, the hourly rate of the first profile under
    its therapist id for a therapist session.  No cost of a request body is
    ever stored, and no route reprices or reschedules a session. *)
Theorem sessions_stay_priced hash_password verify_password uuid_pool
    llm_send_message (rs : list request) (st : Store) :
  sessions_priced (store_world st) ->
  sessions_priced
    (store_world
       (serve_all hash_password verify_password uuid_pool llm_send_message rs st)).
Proof. apply serve_all_world_invariant. exact sessions_priced_step. Qed.

Lemma sessions_stay_priced_witness : sessions_priced (store_world day_after).
Proof.
  apply (sessions_stay_priced demo_hash demo_verify demo_pool demo_llm clinic_day clinic).
  intros s Hs. cbn in Hs. each_of Hs.
  split; [reflexivity|]. split; [reflexivity|]. left. split; reflexivity.
Defined.

(** X12. Whatever requests are served, every entry of the chat history
    has been written by the owner of an ai session with the id of the
    entry. *)
Theorem chat_stays_owned hash_password verify_password uuid_pool
    llm_send_message (rs : list request) (st : Store) :
  chat_owned (store_world st) ->
  chat_owned
    (store_world
       (serve_all hash_password verify_password uuid_pool llm_send_message rs st)).
Proof. apply serve_all_world_invariant. exact chat_owned_step. Qed.

Lemma chat_stays_owned_witness : chat_owned (store_world day_after).
Proof.
  apply (chat_stays_owned demo_hash demo_verify demo_pool demo_llm clinic_day clinic).
  intros c Hc. cbn in Hc. each_of Hc.
  exists alice_session. split; [left|]. repeat split.
Defined.

(** X13. Whatever requests are served, every session, payment and chat
    entry belongs to a user record: the routes that write them run for the
    user the bearer token resolves to, and no route removes a user. *)
Theorem owners_stay_registered hash_password verify_password uuid_pool
    llm_send_message (rs : list request) (st : Store) :
  owners_registered (store_world st) ->
  owners_registered
    (store_world
       (serve_all hash_password verify_password uuid_pool llm_send_message rs st)).
Proof. apply serve_all_world_invariant. exact owners_registered_step. Qed.

Lemma owners_stay_registered_witness : owners_registered (store_world day_after).
Proof.
  apply (owners_stay_registered demo_hash demo_verify demo_pool demo_llm
           clinic_day clinic).
  split; [|split].
  - intros s Hs. cbn in Hs. each_of Hs. exists alice_doc. split; [left|reflexivity].
  - intros p Hp. cbn in Hp. each_of Hp. exists alice_doc. split; [left|reflexivity].
  - intros c Hc. cbn in Hc. each_of Hc. exists alice_doc. split; [left|reflexivity].
Defined.

(** X14. Whatever requests are served, there stays at most one
    availability document per therapist id, each under the id of a
    profile: the availability route replaces the document of the caller's
    profile or inserts it. *)
Theorem availability_stays_sound hash_password verify_password uuid_pool
    llm_send_message (rs : list request) (st : Store) :
  availability_sound st ->
  availability_sound
    (serve_all hash_password verify_password uuid_pool llm_send_message rs st).
Proof.
  apply (serve_all_invariant _ _ _ _ availability_sound).
  intros r st'. apply availability_sound_serve.
Qed.

Lemma availability_stays_sound_witness : availability_sound day_after.
Proof.
  apply (availability_stays_sound demo_hash demo_verify demo_pool demo_llm
           clinic_day clinic).
  split.
  - apply (bool_decide_unpack _). vm_compute. exact I.
  - intros d Hd. cbn in Hd. each_of Hd. exists bob_profile. split; [left|reflexivity].
Defined.

(** X15. No sequence of requests removes or changes a user, a profile, a
    session, a payment or a chat entry: each of the five collections
    afterwards starts with the collection before. *)
Theorem store_only_grows hash_password verify_password uuid_pool
    llm_send_message (rs : list request) (st : Store) :
  extends (store_world st)
    (store_world
       (serve_all hash_password verify_password uuid_pool llm_send_message rs st)).
Proof.
  assert (Htrans : forall w1 w2 w3, extends w1 w2 -> extends w2 w3 -> extends w1 w3).
  { intros w1 w2 w3 (H1 & H2 & H3 & H4 & H5) (K1 & K2 & K3 & K4 & K5).
    repeat split; by etrans. }
  apply (serve_all_invariant _ _ _ _
           (fun st' => extends (store_world st) (store_world st'))).
  - intros r st' Hst'. apply (Htrans _ (store_world st')); [done|].
    destruct (serve_step hash_password verify_password uuid_pool llm_send_message
                r st' _ eq_refl) as [[Hstep _]|[-> _]].
    + by apply world_step_extends.
    + by repeat split.
  - by repeat split.
Qed.

(** ** Sessions and their listing *)

(** X16. A created session appears at the end of the caller's next
    session listing when the caller had fewer than a hundred sessions, and
    not at all otherwise: the listing stops at a hundred and has no further
    page. *)
Theorem created_session_listed uuid_pool session_data current_user w s w' :
  create_session uuid_pool session_data current_user w = (Return s, w') ->
  exists before,
    get_user_sessions current_user w = (Return before, w)
    /\ get_user_sessions current_user w'
       = (Return (if decide (length before < 100)%nat then before ++ [s]
                  else before), w').
Proof.
  intros Hrun. apply create_session_Return_inv in Hrun
    as (p & _ & _ & Hs & _ & _ & _ & _ & Hown & _).
  unfold get_user_sessions. run_handler. eexists. split; [reflexivity|].
  rewrite Hs, find_to_list_snoc. do 2 f_equal.
  set (before := find_to_list _ 100 (sessions w)).
  destruct (decide (length before < 100)%nat) as [Hlt|Hge].
  - by rewrite decide_True.
  - rewrite decide_False; [done|]. tauto.
Qed.

Lemma created_session_listed_witness :
  exists s w' before,
    create_session demo_pool (demo_request "ai" 30 None lit_5_0) alice clinic_world
    = (Return s, w')
    /\ get_user_sessions alice clinic_world = (Return before, clinic_world)
    /\ get_user_sessions alice w' = (Return (before ++ [s]), w').
Proof.
  destruct (create_session demo_pool (demo_request "ai" 30 None lit_5_0) alice
              clinic_world) as [[s|e] w'] eqn:Hrun; [|by vm_compute in Hrun].
  destruct (created_session_listed _ _ _ _ _ _ Hrun) as (before & Hbefore & Hafter).
  exists s, w', before. split; [done|]. split; [done|].
  rewrite Hafter. injection Hbefore as <-. reflexivity.
Defined.

(** ** The ai chat *)

(** X17. A chat message that is not answered leaves the world exactly as
    it was, without a chat entry and without a drawn id; the exception is
    HTTP 404 "AI session not found" when the caller has no ai session under
    the id, and otherwise HTTP 500 with the error text of the provider
    after "AI chat error: ". *)
Theorem ai_chat_failure uuid_pool llm_send_message chat_message current_user
    w e w' :
  ai_chat uuid_pool llm_send_message chat_message current_user w = (Raise e, w') ->
  w' = w
  /\ ((e = HTTPException 404 "AI session not found"
       /\ forall s, s ∈ sessions w -> se_id s = cm_session_id chat_message ->
            se_user_id s = ur_id current_user -> se_session_type s <> "ai")
      \/ (exists s err,
            s ∈ sessions w /\ se_id s = cm_session_id chat_message
            /\ se_user_id s = ur_id current_user /\ se_session_type s = "ai"
            /\ llm_send_message (cm_session_id chat_message)
                 (cm_message chat_message) = inr err
            /\ e = HTTPException 500 ("AI chat error: " +:+ err))).
Proof.
  unfold ai_chat. run_handler.
  destruct (find_one _ (sessions w)) as [s|] eqn:Hfind.
  - apply find_one_Some in Hfind as (Hs & Hid & Hown & Hty).
    destruct (llm_send_message _ _) as [response|err] eqn:Hllm; [done|].
    intros [= <- <-]. split; [done|]. right. by exists s, err.
  - intros [= <- <-]. split; [done|]. left. split; [done|].
    intros s Hs Hid Hown Hty.
    by apply (proj1 (find_one_None _ _) Hfind s Hs).
Qed.

Lemma ai_chat_failure_witness :
  clinic_world = clinic_world
  /\ ((HTTPException 500 "AI chat error: rate limit"
       = HTTPException 404 "AI session not found"
       /\ forall s, s ∈ sessions clinic_world -> se_id s = "s-alice" ->
            se_user_id s = "u-alice" -> se_session_type s <> "ai")
      \/ (exists s err,
            s ∈ sessions clinic_world /\ se_id s = "s-alice"
            /\ se_user_id s = "u-alice" /\ se_session_type s = "ai"
            /\ (inr "rate limit" : string + string) = inr err
            /\ HTTPException 500 "AI chat error: rate limit"
               = HTTPException 500 ("AI chat error: " +:+ err))).
Proof.
  apply (ai_chat_failure demo_pool (fun _ _ => inr "rate limit")
           {| cm_session_id := "s-alice"; cm_message := "hello" |}
           alice clinic_world).
  reflexivity.
Defined.

(** X18. An answered chat message is stored with the text of the caller
    and the answer of the provider, and the chat history of its session,
    read by the caller, ends with it afterwards when the session had fewer
    than a thousand entries; a longer history is returned as before. *)
Theorem ai_chat_then_history uuid_pool llm_send_message chat_message
    current_user w r w' :
  ai_chat uuid_pool llm_send_message chat_message current_user w = (Return r, w') ->
  exists before c,
    get_chat_history (cm_session_id chat_message) current_user w = (Return before, w)
    /\ chat_history w' = chat_history w ++ [c]
    /\ ch_session_id c = cm_session_id chat_message
    /\ ch_user_id c = ur_id current_user
    /\ ch_user_message c = cm_message chat_message
    /\ llm_send_message (cm_session_id chat_message) (cm_message chat_message)
       = inl (ch_ai_response c)
    /\ cr_response r = ch_ai_response c
    /\ get_chat_history (cm_session_id chat_message) current_user w'
       = (Return (if decide (length before < 1000)%nat then before ++ [c]
                  else before), w').
Proof.
  intros Hrun. apply ai_chat_Return_inv in Hrun
    as (s & response & Hs & Hid & Hown & Hty & Hllm & -> & ->).
  destruct (find_one_is_Some
              (fun s => se_id s = cm_session_id chat_message
                        /\ se_user_id s = ur_id current_user)
              (sessions w) s Hs (conj Hid Hown)) as (s0 & Hfind & _).
  unfold get_chat_history. run_handler. cbn [sessions chat_history].
  rewrite Hfind. do 2 eexists. split; [reflexivity|]. split; [reflexivity|].
  cbn [ch_session_id ch_user_id ch_user_message ch_ai_response cr_response].
  repeat (split; [done|]).
  cbn [chat_history]. rewrite find_to_list_snoc. do 2 f_equal.
  set (before := find_to_list _ 1000 (chat_history w)).
  destruct (decide (length before < 1000)%nat) as [Hlt|Hge].
  - by rewrite decide_True.
  - rewrite decide_False; [done|]. tauto.
Qed.

Lemma ai_chat_then_history_witness :
  exists r w' c,
    ai_chat demo_pool demo_llm
      {| cm_session_id := "s-alice"; cm_message := "hello again" |} alice clinic_world
    = (Return r, w')
    /\ ch_user_message c = "hello again" /\ ch_ai_response c = "I hear you."
    /\ get_chat_history "s-alice" alice w' = (Return [alice_chat; c], w').
Proof.
  destruct (ai_chat demo_pool demo_llm
              {| cm_session_id := "s-alice"; cm_message := "hello again" |}
              alice clinic_world) as [[r|e] w'] eqn:Hrun; [|by vm_compute in Hrun].
  destruct (ai_chat_then_history _ _ _ _ _ _ _ Hrun)
    as (before & c & Hbefore & Hc & _ & _ & Hmsg & Hllm & _ & Hafter).
  exists r, w', c. split; [done|]. split; [exact Hmsg|].
  injection Hllm as Hresp. split; [by symmetry|].
  cbn [cm_session_id] in Hafter, Hbefore. rewrite Hafter.
  injection Hbefore as <-. reflexivity.
Defined.

Lemma NoDup_fmap_inj_on {A B} (f : A -> B) (l : list A) (x y : A) :
  NoDup (f <$> l) -> x ∈ l -> y ∈ l -> f x = f y -> x = y.
Proof.
  induction l as [|z l IH]; intros Hnodup Hx Hy Hf.
  - by apply not_elem_of_nil in Hx.
  - rewrite fmap_cons in Hnodup. apply NoDup_cons in Hnodup as [Hz Hnodup].
    apply elem_of_cons in Hx as [->|Hx]; apply elem_of_cons in Hy as [->|Hy].
    + done.
    + destruct Hz. rewrite Hf. apply list_elem_of_fmap. by exists y.
    + destruct Hz. rewrite <- Hf. apply list_elem_of_fmap. by exists x.
    + by apply IH.
Qed.

(** X19. Reading a chat history never changes the world and is refused
    with HTTP 404 "Session not found" unless the caller owns a session with
    the id; in a world with distinct session ids whose chat entries were
    written by the owners of their sessions, as the chat route writes them,
    every returned entry is an entry of the caller for this session, and at
    most a thousand are returned. *)
Theorem chat_history_private session_id current_user w :
  chat_owned w -> NoDup (se_id <$> sessions w) ->
  match get_chat_history session_id current_user w with
  | (Return history, w') =>
      w' = w
      /\ (exists s, s ∈ sessions w /\ se_id s = session_id
                    /\ se_user_id s = ur_id current_user)
      /\ (forall c, c ∈ history ->
            c ∈ chat_history w /\ ch_session_id c = session_id
            /\ ch_user_id c = ur_id current_user)
      /\ (length history <= 1000)%nat
  | (Raise e, w') =>
      w' = w /\ e = HTTPException 404 "Session not found"
      /\ forall s, s ∈ sessions w -> se_id s = session_id ->
           se_user_id s <> ur_id current_user
  end.
Proof.
  intros Howned Hids. unfold get_chat_history. run_handler.
  destruct (find_one _ (sessions w)) as [s0|] eqn:Hfind.
  - apply find_one_Some in Hfind as (Hs0 & Hid0 & Hown0).
    split; [done|]. split; [by exists s0|]. split.
    + intros c Hc. apply find_to_list_elem in Hc as [Hc Hsid].
      split; [done|]. split; [done|].
      destruct (Howned c Hc) as (s & Hs & Hid & Hown & _).
      assert (s = s0) as ->.
      { apply (NoDup_fmap_inj_on se_id (sessions w)); try done. congruence. }
      congruence.
    + apply find_to_list_length.
  - split; [done|]. split; [done|]. intros s Hs Hid Hown.
    by apply (proj1 (find_one_None _ _) Hfind s Hs).
Qed.

Lemma chat_history_private_witness :
  get_chat_history "s-alice" alice clinic_world
  = (Return [alice_chat], clinic_world)
  /\ alice_chat ∈ chat_history clinic_world
  /\ ch_session_id alice_chat = "s-alice" /\ ch_user_id alice_chat = "u-alice".
Proof.
  split; [reflexivity|].
  assert (Howned : chat_owned clinic_world).
  { intros c Hc. cbn in Hc. each_of Hc.
    exists alice_session. split; [left|]. repeat split. }
  assert (Hids : NoDup (se_id <$> sessions clinic_world)).
  { apply (bool_decide_unpack _). vm_compute. exact I. }
  pose proof (chat_history_private "s-alice" alice clinic_world Howned Hids)
    as Hread.
  change (get_chat_history "s-alice" alice clinic_world)
    with (Return [alice_chat], clinic_world) in Hread.
  destruct Hread as (_ & _ & Hentries & _). apply Hentries. left.
Defined.

(** ** Availability *)

(** X20. Setting the availability is refused with HTTP 404 for a caller
    without a profile, and the store stays as it is; for a caller with a
    profile the world stays as it is and the availability document of that
    profile, found under its id afterwards, holds the slots of the request
    and the time of the call, while the documents of other therapists are
    untouched; the collection grows by one only when the profile had no
    document.  The request made again, at whatever time, leaves the store
    that a single request at that time leaves: the document is written
    over, with the time of the repetition.  The days of the slots are
    8-byte integers. *)
Theorem set_availability_upserts availability current_user st :
  Forall (fun slot => - 2 ^ 63 <= sl_day_of_week slot < 2 ^ 63)
    (ta_availability availability) ->
  match find_one (fun t => th_user_id t = ur_id current_user)
          (therapists (store_world st)) with
  | None =>
      set_availability availability current_user st
      = (Raise (HTTPException 404 "Therapist profile not found"), st)
  | Some t =>
      exists st',
        set_availability availability current_user st
        = (Return "Availability updated successfully", st')
        /\ store_world st' = store_world st
        /\ find_one (fun d => av_therapist_id d = th_id t)
             (therapist_availability st')
           = Some {| av_therapist_id := th_id t;
                     av_availability := ta_availability availability;
                     av_updated_at := clock (store_world st) |}
        /\ filter (fun d => av_therapist_id d <> th_id t)
             (therapist_availability st')
           = filter (fun d => av_therapist_id d <> th_id t)
               (therapist_availability st)
        /\ length (therapist_availability st')
           = (if decide (Exists (fun d => av_therapist_id d = th_id t)
                           (therapist_availability st))
              then length (therapist_availability st)
              else S (length (therapist_availability st)))
        /\ forall now,
             set_availability availability current_user (at_time now st')
             = set_availability availability current_user (at_time now st)
             /\ find_one (fun d => av_therapist_id d = th_id t)
                  (therapist_availability
                     (set_availability availability current_user
                        (at_time now st')).2)
                = Some {| av_therapist_id := th_id t;
                          av_availability := ta_availability availability;
                          av_updated_at := now |}
  end.
Proof.
  intros _. unfold set_availability.
  destruct (find_one _ (therapists (store_world st))) as [t|] eqn:Hfind; [|done].
  eexists. split; [reflexivity|]. cbn [store_world therapist_availability].
  split; [done|]. split; [by apply find_one_upsert|].
  split; [by apply (upsert_others (fun d => av_therapist_id d = th_id t))|].
  split; [apply upsert_length|].
  intros now. cbn [at_time store_world therapists therapist_availability clock].
  rewrite Hfind. cbn [snd therapist_availability].
  rewrite (upsert_upsert (fun d => av_therapist_id d = th_id t)) by done.
  split; [done|]. by apply find_one_upsert.
Qed.

Lemma set_availability_upserts_witness :
  exists st',
    set_availability
      {| ta_therapist_id := "t-bob";
         ta_availability :=
           [ {| sl_day_of_week := 4; sl_start_time := "13:00";
                sl_end_time := "18:00" |} ] |} bob clinic
    = (Return "Availability updated successfully", st')
    /\ store_world st' = clinic_world
    /\ find_one (fun d => av_therapist_id d = "t-bob") (therapist_availability st')
       = Some {| av_therapist_id := "t-bob";
                 av_availability :=
                   [ {| sl_day_of_week := 4; sl_start_time := "13:00";
                        sl_end_time := "18:00" |} ];
                 av_updated_at := 1700001000 |}
    /\ length (therapist_availability st') = 1%nat.
Proof.
  pose proof (set_availability_upserts
                {| ta_therapist_id := "t-bob";
                   ta_availability :=
                     [ {| sl_day_of_week := 4; sl_start_time := "13:00";
                          sl_end_time := "18:00" |} ] |} bob clinic) as Hset.
  change (find_one (fun t => th_user_id t = ur_id bob)
            (therapists (store_world clinic))) with (Some bob_profile) in Hset.
  destruct Hset as (st' & Hrun & Hworld & Hfind & _ & Hlength & _).
  { constructor; [cbn [sl_day_of_week]; lia|constructor]. }
  exists st'. split; [exact Hrun|]. split; [exact Hworld|].
  split; [exact Hfind|]. rewrite Hlength. reflexivity.
Defined.

(** X21. The therapist id in the body of an availability request is not
    read: two requests of the same caller with the same slots have the same
    outcome, whichever therapist ids they name, so that the document
    written is always the one of the caller's own profile. *)
Theorem set_availability_ignores_body_id a1 a2 current_user st :
  ta_availability a1 = ta_availability a2 ->
  set_availability a1 current_user st = set_availability a2 current_user st.
Proof. intros Hslots. unfold set_availability. by rewrite Hslots. Qed.

Lemma set_availability_ignores_body_id_witness :
  set_availability
    {| ta_therapist_id := "t-bob"; ta_availability := av_availability bob_hours |}
    bob clinic
  = set_availability
      {| ta_therapist_id := "t-somebody-else";
         ta_availability := av_availability bob_hours |}
      bob clinic.
Proof.
  apply set_availability_ignores_body_id. reflexivity.
Defined.

(** ** Routes that need a user *)

(** X22. A request to a route that depends on the current user, with
    credentials that resolve to no user, is answered with the HTTP 401 of
    [get_current_user], "Invalid token" or "User not found", and the
    handler of the route does not run: the store stays as it is. *)
Theorem unresolved_credentials_rejected hash_password verify_password uuid_pool
    llm_send_message (r : request) (credentials : token) (st : Store) e w' :
  credentials_of r = Some credentials ->
  get_current_user credentials (store_world st) = (Raise e, w') ->
  serve hash_password verify_password uuid_pool llm_send_message r st
  = (Raise e, st)
  /\ (e = HTTPException 401 "Invalid token"
      \/ e = HTTPException 401 "User not found").
Proof.
  intros Hcred Hrun. split; [|by apply get_current_user_Raise in Hrun].
  apply get_current_user_world in Hrun as Hw. subst w'.
  assert (Hstop : forall {A} (h : UserResponse -> Route A) (body : A -> response),
    respond body (with_current_user credentials h) st = (Raise e, st)).
  { intros A h body. unfold respond, with_current_user, on_world.
    rewrite Hrun. by destruct st. }
  destruct r; cbn in Hcred; try discriminate; injection Hcred as ->; apply Hstop.
Qed.

Lemma unresolved_credentials_rejected_witness :
  serve demo_hash demo_verify demo_pool demo_llm
    (POST_sessions_create (token_of "u-alice" 1600000000)
       (demo_request "ai" 30 None lit_5_0)) clinic
  = (Raise (HTTPException 401 "Invalid token"), clinic)
  /\ (HTTPException 401 "Invalid token" = HTTPException 401 "Invalid token"
      \/ HTTPException 401 "Invalid token" = HTTPException 401 "User not found").
Proof.
  apply (unresolved_credentials_rejected demo_hash demo_verify demo_pool demo_llm
           (POST_sessions_create (token_of "u-alice" 1600000000)
              (demo_request "ai" 30 None lit_5_0))
           (token_of "u-alice" 1600000000) clinic _ clinic_world).
  - reflexivity.
  - reflexivity.
Defined.

(** ** The arithmetic of the cost *)

Lemma nearest_quot_overflow (a : positive) :
  2 ^ 1030 <= Zpos a -> B64.is_finite (B64.nearest_quot (Zpos a) 60) = false.
Proof.
  intros Ha. pose proof (B64Facts.nearest_quot_rounded a 60) as Hr.
  assert (Hx : (B64.bpow 1030 <= IZR (Zpos a))%R).
  { rewrite <- B64Facts.IZR_pow2 by lia. by apply IZR_le. }
  pose proof (B64Facts.bpow_scale 60 970 ltac:(lia)) as Hscale.
  change (60 + 970) with 1030 in Hscale.
  change (IZR (2 ^ 60)) with 1152921504606846976%R in Hscale.
  pose proof (B64Facts.bpow_ge_1 970 ltac:(lia)) as HB.
  pose proof B64Facts.bpow_m1075_small as Hsmall.
  pose proof (B64Facts.bpow_pos (-1075)) as Hpos.
  set (X := IZR (Zpos a)) in *.
  change (IZR (Zpos 60)) with 60%R in Hr.
  destruct (B64.nearest_quot (Zpos a) 60) as [s|s| |s m e];
    cbn [Round.rounded_from B64.is_finite] in Hr |- *; try done.
  - destruct Hr as [_ Hle]. exfalso. lra.
  - destruct Hr as (_ & Hb & Habs). exfalso.
    apply B64Facts.bounded_magnitude in Hb as [_ Hmax].
    apply B64Facts.Rabs_le_inv in Habs as [Hlow _].
    rewrite B64Facts.bpow_m53 in Hlow. rewrite B64Facts.bpow_971 in Hmax.
    set (M := (IZR (Zpos m) * B64.bpow e)%R) in *.
    set (B := B64.bpow 970) in *. set (L := B64.bpow (-1075)) in *.
    rewrite Hscale in Hx. lra.
Qed.

(** X23. A duration from 2^1030 minutes on has no float for its quotient
    by 60: the division raises OverflowError, which no handler catches,
    for an ai session and for a therapist session with a profile alike, and
    neither a session nor a payment is stored. *)
Theorem create_session_overflow uuid_pool session_data current_user w :
  2 ^ 1030 <= sc_duration_minutes session_data ->
  sc_session_type session_data = "ai"
  \/ (sc_session_type session_data = "therapist"
      /\ exists tid t, sc_therapist_id session_data = Some tid /\ tid <> ""
                       /\ t ∈ therapists w /\ th_id t = tid) ->
  exists w',
    create_session uuid_pool session_data current_user w
    = (Raise (OverflowError "integer division result too large for a float"), w')
    /\ same_store w w'.
Proof.
  intros Hbig Hkind.
  assert (Hdiv : int_truediv (sc_duration_minutes session_data) 60
                 = Raise (OverflowError "integer division result too large for a float")).
  { destruct (sc_duration_minutes session_data) as [|a|a] eqn:Hd; try lia.
    unfold int_truediv. rewrite decide_False by done.
    by rewrite nearest_quot_overflow. }
  apply create_session_Raise. intros w1 Hsame.
  destruct Hkind as [Hai|(Hth & tid & t & Htid & Hne & Ht & Hid)].
  - by apply session_cost_ai_Raise.
  - rewrite <- Hsame in Ht.
    destruct (find_one_is_Some (fun t => th_id t = tid) (therapists w1) t Ht Hid)
      as (t0 & Hfind & _).
    by apply (session_cost_therapist_Raise _ _ tid t0).
Qed.

Lemma create_session_overflow_witness :
  exists w',
    create_session demo_pool (demo_request "ai" (2 ^ 1030) None lit_5_0) alice
      clinic_world
    = (Raise (OverflowError "integer division result too large for a float"), w')
    /\ same_store clinic_world w'.
Proof.
  apply (create_session_overflow demo_pool
           (demo_request "ai" (2 ^ 1030) None lit_5_0) alice clinic_world).
  - cbn [sc_duration_minutes demo_request]. lia.
  - left. reflexivity.
Defined.

(** X24. An ai request for a positive duration that is an 8-byte integer
    is accepted, and the cost it stores, in the session and as the amount
    of the payment, differs from the exact price of 5 an hour by at most
    2^-51 of that price. *)
Theorem created_ai_cost_accurate uuid_pool session_data current_user w
    (d : positive) :
  sc_session_type session_data = "ai" ->
  sc_duration_minutes session_data = Zpos d -> Zpos d < 2 ^ 63 ->
  exists s p w',
    create_session uuid_pool session_data current_user w = (Return s, w')
    /\ sessions w' = sessions w ++ [s] /\ payments w' = payments w ++ [p]
    /\ pay_amount p = se_cost s
    /\ (Rabs (B64.B2R (se_cost s) - 5 * IZR (Zpos d) / 60)
        <= B64.bpow (-51) * (5 * IZR (Zpos d) / 60))%R.
Proof.
  intros Hty Hd Hsmall.
  assert (Hrange : - 2 ^ 63 <= sc_duration_minutes session_data < 2 ^ 63)
    by (rewrite Hd; lia).
  pose proof (bson_int_small _ Hrange) as Hfloat.
  destruct (create_session_Return uuid_pool session_data current_user w
              (B64.mul lit_5_0 (B64.nearest_quot (Zpos d) 60)))
    as (s & p & w' & Hrun & Hcreated & _); [|done|].
  { intros w1 _. rewrite <- Hd. apply session_cost_ai; [done|].
    by apply B64Facts.int_truediv_Return. }
  destruct Hcreated as (Hs & Hp & _ & _ & Hcost & Hamount & _).
  exists s, p, w'. repeat (split; [done|]). split; [congruence|].
  rewrite Hcost. apply B64Facts.ai_cost_accuracy. rewrite Hd in Hfloat. lia.
Qed.

Lemma created_ai_cost_accurate_witness :
  exists s p w',
    create_session demo_pool (demo_request "ai" 50 None lit_5_0) alice clinic_world
    = (Return s, w')
    /\ sessions w' = sessions clinic_world ++ [s]
    /\ payments w' = payments clinic_world ++ [p]
    /\ pay_amount p = se_cost s
    /\ (Rabs (B64.B2R (se_cost s) - 5 * IZR 50 / 60)
        <= B64.bpow (-51) * (5 * IZR 50 / 60))%R.
Proof.
  apply (created_ai_cost_accurate demo_pool (demo_request "ai" 50 None lit_5_0)
           alice clinic_world 50).
  - reflexivity.
  - reflexivity.
  - reflexivity.
Defined.

Lemma one_hour : B64.nearest_quot 60 60 = S754_finite false 4503599627370496 (-52).
Proof. vm_compute. reflexivity. Qed.

(** Multiplying a binary64 number by the float 1.0 returns it unchanged. *)
Lemma mul_one_hour (r : B64.float) :
  B64.valid r = true -> B64.mul r (B64.nearest_quot 60 60) = r.
Proof.
  intros Hvalid. rewrite one_hour. unfold B64.mul, B64.prec, B64.emax.
  destruct r as [s|s| |s m e]; cbn [SFmul]; rewrite ?xorb_false_r; try done.
  cbn [B64.valid valid_binary] in Hvalid. unfold B64.valid, B64.prec, B64.emax in Hvalid.
  cbn [valid_binary] in Hvalid.
  apply B64Facts.bounded_canonical in Hvalid as [Hcanon He].
  change (Zpos (m * 4503599627370496)) with (Zpos m * 2 ^ 52).
  assert (Hdigits : Zdigits2 (Zpos m * 2 ^ 52) = Zdigits2 (Zpos m) + 52)
    by (apply B64Facts.Zdigits2_mul_pow2; lia).
  assert (Hfexp : Round.fexp64 (Zdigits2 (Zpos m * 2 ^ 52) + (e + -52)) = e).
  { rewrite Hdigits. replace (Zdigits2 (Zpos m) + 52 + (e + -52))
      with (Zdigits2 (Zpos m) + e) by lia. done. }
  destruct (B64Facts.binary_round_aux_spec s (Zpos m * 2 ^ 52) (e + -52) loc_Exact)
    as [_ Hres]; [lia| rewrite Hfexp; lia |].
  rewrite Hfexp in Hres. replace (e - (e + -52)) with 52 in Hres by lia.
  replace (e + -52 + 52) with e in Hres by lia.
  assert (Hm2 : Round.rounded_significand (Zpos m * 2 ^ 52) 52 loc_Exact = Zpos m).
  { pose proof (B64Facts.rounded_significand_half (Zpos m * 2 ^ 52) 52 loc_Exact
                  (IZR (Zpos m * 2 ^ 52)) ltac:(lia) ltac:(lia) eq_refl) as Hhalf.
    rewrite mult_IZR in Hhalf. rewrite B64Facts.IZR_pow2 in Hhalf by lia.
    rewrite Rmult_assoc, <- B64Facts.bpow_add in Hhalf.
    rewrite Z.add_opp_diag_r in Hhalf. rewrite B64Facts.bpow_0, Rmult_1_r in Hhalf.
    rewrite <- minus_IZR in Hhalf. rewrite <- abs_IZR in Hhalf.
    assert (Hlt : (IZR (Z.abs (Round.rounded_significand (Zpos m * 2 ^ 52) 52 loc_Exact
                               - Zpos m)) < 1)%R) by lra.
    apply lt_IZR in Hlt. lia. }
  rewrite Hm2 in Hres.
  destruct Hres as [[Hzero _]|(m3 & e3 & _ & Hm3 & He3 & Hcanon3 & ->)]; [lia|].
  assert (e3 = e) as ->.
  { destruct (decide (e3 = e)) as [|Hne]; [done|]. exfalso.
    assert (e3 = e + 1) as -> by lia.
    replace (e + 1 - e) with 1 in Hm3 by lia. change (2 ^ 1) with 2 in Hm3.
    assert (Hd3 : Zdigits2 (Zpos m) = Zdigits2 (Zpos m3) + 1).
    { rewrite <- Hm3. change 2 with (2 ^ 1) at 1.
      apply B64Facts.Zdigits2_mul_pow2; lia. }
    replace (Zdigits2 (Zpos m3) + (e + 1)) with (Zdigits2 (Zpos m) + e) in Hcanon3
      by lia.
    lia. }
  rewrite Z.sub_diag, Z.mul_1_r in Hm3. injection Hm3 as ->.
  apply Z.leb_le in He. by rewrite He.
Qed.

(** X25. A therapist session of sixty minutes costs the hourly rate of
    the therapist, bit for bit, whatever binary64 number the rate is, and
    the payment is made for this amount. *)
Theorem one_hour_costs_the_rate uuid_pool session_data current_user w tid t :
  sc_session_type session_data = "therapist" ->
  sc_duration_minutes session_data = 60 ->
  sc_therapist_id session_data = Some tid -> tid <> "" ->
  find_one (fun t => th_id t = tid) (therapists w) = Some t ->
  B64.valid (th_hourly_rate t) = true ->
  exists s p w',
    create_session uuid_pool session_data current_user w = (Return s, w')
    /\ sessions w' = sessions w ++ [s] /\ payments w' = payments w ++ [p]
    /\ se_cost s = th_hourly_rate t /\ pay_amount p = th_hourly_rate t.
Proof.
  intros Hty Hd Htid Hne Hfind Hvalid.
  destruct (create_session_Return uuid_pool session_data current_user w
              (th_hourly_rate t))
    as (s & p & w' & Hrun & Hcreated & _); [|rewrite Hd; lia|].
  { intros w1 Hsame.
    rewrite (session_cost_therapist session_data w1 tid t (B64.nearest_quot 60 60));
      try done.
    - by rewrite mul_one_hour.
    - by rewrite Hsame.
    - rewrite Hd. by apply B64Facts.int_truediv_Return. }
  destruct Hcreated as (Hs & Hp & _ & _ & Hcost & Hamount & _).
  by exists s, p, w'.
Qed.

Lemma one_hour_costs_the_rate_witness :
  exists s p w',
    create_session demo_pool (demo_request "therapist" 60 (Some "t-bob") lit_5_0)
      alice clinic_world = (Return s, w')
    /\ sessions w' = sessions clinic_world ++ [s]
    /\ payments w' = payments clinic_world ++ [p]
    /\ se_cost s = B64.of_int 80 /\ pay_amount p = B64.of_int 80.
Proof.
  apply (one_hour_costs_the_rate demo_pool
           (demo_request "therapist" 60 (Some "t-bob") lit_5_0) alice clinic_world
           "t-bob" bob_profile).
  - reflexivity.
  - reflexivity.
  - reflexivity.
  - discriminate.
  - reflexivity.
  - reflexivity.
Defined.

(** ** From a profile to a booking *)

(** X26. A therapist who has no profile yet gets one with the rate of
    the request, and a session booked under the id of the new profile, when
    that id is not empty and not the id of an earlier profile, costs this
    rate times the quotient of the duration by 60; the years of experience
    and the duration are 8-byte integers. *)
Theorem register_therapist_then_book uuid_pool therapist_data therapist
    session_data client w :
  ur_role therapist = "therapist" ->
  (forall t, t ∈ therapists w -> th_user_id t <> ur_id therapist) ->
  (forall t, t ∈ therapists w -> th_id t <> uuid_pool (uuid_drawn w)) ->
  uuid_pool (uuid_drawn w) <> "" ->
  sc_session_type session_data = "therapist" ->
  sc_therapist_id session_data = Some (uuid_pool (uuid_drawn w)) ->
  - 2 ^ 63 <= tr_years_experience therapist_data < 2 ^ 63 ->
  - 2 ^ 63 <= sc_duration_minutes session_data < 2 ^ 63 ->
  exists profile w1 s p w2,
    register_therapist uuid_pool therapist_data therapist w = (Return profile, w1)
    /\ th_id profile = uuid_pool (uuid_drawn w)
    /\ th_hourly_rate profile = tr_hourly_rate therapist_data
    /\ create_session uuid_pool session_data client w1 = (Return s, w2)
    /\ created session_data client
         (B64.mul (tr_hourly_rate therapist_data)
            (B64.nearest_quot (sc_duration_minutes session_data) 60))
         w1 s p w2.
Proof.
  intros Hrole Hnone Hfresh Hne Hty Htid _ Hrange.
  unfold register_therapist. run_handler.
  rewrite decide_False by (rewrite Hrole; intros Hx; by apply Hx).
  pose proof (proj2 (find_one_None (fun t => th_user_id t = ur_id therapist)
                       (therapists w)) Hnone) as Hfind.
  rewrite Hfind.
  match goal with
  | |- context [(Return ?doc, ?w1)] => set (profile := doc); set (world1 := w1)
  end.
  destruct (create_session_Return uuid_pool session_data client world1
              (B64.mul (tr_hourly_rate therapist_data)
                 (B64.nearest_quot (sc_duration_minutes session_data) 60)))
    as (s & p & w2 & Hrun & Hcreated & _); [|done|].
  { intros w1 Hsame.
    apply (session_cost_therapist _ _ (uuid_pool (uuid_drawn w)) profile);
      try done.
    - rewrite Hsame. cbn [therapists world1].
      apply find_one_snoc_None; [|done]. by apply find_one_None.
    - apply B64Facts.int_truediv_Return; [done|]. by apply bson_int_small. }
  exists profile, world1, s, p, w2. done.
Qed.

Lemma register_therapist_then_book_witness :
  exists profile w1 s p w2,
    register_therapist demo_pool
      {| tr_license_number := "LIC-9"; tr_specialization := "cbt";
         tr_hourly_rate := B64.of_int 60; tr_bio := ""; tr_years_experience := 2 |}
      {| ur_id := "u-carol"; ur_email := "carol@example.org";
         ur_full_name := "Carol"; ur_role := "therapist";
         ur_created_at := 1700000000 |} clinic_world
    = (Return profile, w1)
    /\ th_id profile = "5b1c0a52-0001"
    /\ th_hourly_rate profile = B64.of_int 60
    /\ create_session demo_pool
         (demo_request "therapist" 45 (Some "5b1c0a52-0001") lit_5_0) alice w1
       = (Return s, w2)
    /\ created (demo_request "therapist" 45 (Some "5b1c0a52-0001") lit_5_0) alice
         (B64.mul (B64.of_int 60) (B64.nearest_quot 45 60)) w1 s p w2.
Proof.
  apply (register_therapist_then_book demo_pool
           {| tr_license_number := "LIC-9"; tr_specialization := "cbt";
              tr_hourly_rate := B64.of_int 60; tr_bio := "";
              tr_years_experience := 2 |}
           {| ur_id := "u-carol"; ur_email := "carol@example.org";
              ur_full_name := "Carol"; ur_role := "therapist";
              ur_created_at := 1700000000 |}
           (demo_request "therapist" 45 (Some "5b1c0a52-0001") lit_5_0)
           alice clinic_world).
  - reflexivity.
  - intros t Ht. cbn in Ht. each_of Ht. discriminate.
  - intros t Ht. cbn in Ht. each_of Ht. discriminate.
  - discriminate.
  - reflexivity.
  - reflexivity.
  - cbn [tr_years_experience]. lia.
  - cbn [sc_duration_minutes demo_request]. lia.
Defined.
